(** * Lost & Found matching engine

  A shallow embedding of the matching engine of the Lost & Found
  application: the Cloud Functions module [functions/index.js] and the
  browser module [dashboard.js].  Both files carry their own copy of the
  keyword extractor, the location normaliser, the score calculator, the
  duplicate check and the notification writer; the two copies are embedded
  separately (modules [Functions] and [Dashboard]) and compared.

  Conventions of the embedding
  - JavaScript strings are Rocq strings; [toLowerCase], the class [\s] and
    [trim] are the ASCII ones.
  - JavaScript numbers are IEEE 754 binary64 values ([spec_float] with
    precision 53 and maximal exponent 1024), so that every sum, product
    and quotient of the score is rounded as the program rounds it.
  - An absent (undefined) property is [None].
  - Firestore is a record of collections threaded through a state and
    error monad; a rejected promise is the outcome [Throw]. *)

From Stdlib Require Import List String Ascii ZArith Lia Bool Arith PeanoNat.
From Stdlib Require Import SpecFloat Sorted Permutation.
Import ListNotations.

Local Open Scope string_scope.
Local Open Scope list_scope.

(** ** The JavaScript runtime *)

Module JS.

(** *** Strings *)

Fixpoint str_map (f : ascii -> ascii) (s : string) : string :=
  match s with
  | EmptyString => EmptyString
  | String c s' => String (f c) (str_map f s')
  end.

Fixpoint str_filter (p : ascii -> bool) (s : string) : string :=
  match s with
  | EmptyString => EmptyString
  | String c s' => if p c then String c (str_filter p s') else str_filter p s'
  end.

Definition in_range (lo hi : nat) (c : ascii) : bool :=
  let n := nat_of_ascii c in (lo <=? n)%nat && (n <=? hi)%nat.

Definition is_upper : ascii -> bool := in_range 65 90.
Definition is_lower : ascii -> bool := in_range 97 122.
Definition is_digit : ascii -> bool := in_range 48 57.

(** The class [\s]: tab, line feed, vertical tab, form feed, carriage
    return and space. *)
Definition is_space (c : ascii) : bool :=
  in_range 9 13 c || (nat_of_ascii c =? 32)%nat.

Definition lower_char (c : ascii) : ascii :=
  if is_upper c then ascii_of_nat (nat_of_ascii c + 32) else c.

(** [s.toLowerCase()] *)
Definition toLowerCase : string -> string := str_map lower_char.

(** [s.replace(/[^a-z0-9\s]/g, '')] *)
Definition strip_special : string -> string :=
  str_filter (fun c => is_lower c || is_digit c || is_space c).

Definition starts_with_space (s : string) : bool :=
  match s with
  | EmptyString => false
  | String c _ => is_space c
  end.

(** [s.split(/\s+/)]: the pieces between the maximal runs of white space;
    a run at either end leaves an empty piece there, and the empty string
    splits into one empty piece. *)
Fixpoint split_ws (s : string) : list string :=
  match s with
  | EmptyString => [EmptyString]
  | String c s' =>
      if is_space c then
        if starts_with_space s' then split_ws s'
        else EmptyString :: split_ws s'
      else
        match split_ws s' with
        | t :: ts => String c t :: ts
        | [] => [String c EmptyString]
        end
  end.

Fixpoint trimStart (s : string) : string :=
  match s with
  | EmptyString => EmptyString
  | String c s' => if is_space c then trimStart s' else s
  end.

Fixpoint trimEnd (s : string) : string :=
  match s with
  | EmptyString => EmptyString
  | String c s' =>
      match trimEnd s' with
      | EmptyString => if is_space c then EmptyString else String c EmptyString
      | t => String c t
      end
  end.

(** [s.trim()] *)
Definition trim (s : string) : string := trimEnd (trimStart s).

(** [hay.includes(needle)] on strings *)
Fixpoint includes (hay needle : string) : bool :=
  String.prefix needle hay ||
  match hay with
  | EmptyString => false
  | String _ hay' => includes hay' needle
  end.

(** Truthiness of a property holding a string: absent and [''] are falsy. *)
Definition truthy (o : option string) : bool :=
  match o with
  | Some (String _ _) => true
  | _ => false
  end.

Definition str_truthy (s : string) : bool :=
  match s with
  | String _ _ => true
  | EmptyString => false
  end.

(** A string interpolated in a template literal. *)
Definition interpolate (o : option string) : string :=
  match o with
  | Some s => s
  | None => "undefined"
  end.

(** [a === b] on properties holding strings *)
Definition strict_eq (a b : option string) : bool :=
  match a, b with
  | Some x, Some y => String.eqb x y
  | None, None => true
  | _, _ => false
  end.

(** *** Arrays and Sets of strings

    A [Set] is kept as the array of its elements in insertion order. *)

Definition array_includes (l : list string) (w : string) : bool :=
  existsb (String.eqb w) l.

Definition Set_has (s : list string) (k : string) : bool :=
  existsb (String.eqb k) s.

Definition Set_add (s : list string) (k : string) : list string :=
  if Set_has s k then s else s ++ [k].

(** [new Set(array)] *)
Definition new_Set (l : list string) : list string :=
  fold_left Set_add l [].

(** [a.slice(0, n)] *)
Definition slice0 {A : Type} (n : nat) (l : list A) : list A := firstn n l.

(** *** Numbers *)

Definition number := spec_float.

Definition prec : Z := 53.
Definition emax : Z := 1024.

(** The number denoted by an integer literal or by a length. *)
Definition num (z : Z) : number := binary_normalize prec emax z 0 false.

Definition add : number -> number -> number := SFadd prec emax.
Definition mul : number -> number -> number := SFmul prec emax.
Definition div : number -> number -> number := SFdiv prec emax.

(** The literals [0.7], [0.5] and [0.3]: the doubles nearest to the
    decimal fractions. *)
Definition lit_0_7 : number := Eval vm_compute in div (num 7) (num 10).
Definition lit_0_5 : number := Eval vm_compute in div (num 5) (num 10).
Definition lit_0_3 : number := Eval vm_compute in div (num 3) (num 10).

Definition is_neg_zero (x : number) : bool :=
  match x with
  | S754_zero true => true
  | _ => false
  end.

(** [Math.min(x, y)] *)
Definition Math_min (x y : number) : number :=
  match SFcompare x y with
  | None => S754_nan
  | Some Lt => x
  | Some Gt => y
  | Some Eq => if is_neg_zero x then x else y
  end.

(** [Math.round(x)], as the integer the result holds: the integer nearest
    to [x], the larger one at a tie, that is the floor of [x + 1/2]
    computed exactly.  The program only rounds finite numbers (lemma
    [score_sum_finite] below); NaN and the infinities are sent to 0. *)
Definition Math_round (x : number) : Z :=
  match x with
  | S754_finite s m e =>
      let v := if s then Z.neg m else Z.pos m in
      match e with
      | Zneg d => ((2 * v + 2 ^ Z.pos d) / 2 ^ (Z.pos d + 1))%Z
      | _ => (v * 2 ^ e)%Z
      end
  | _ => 0%Z
  end.


(** *** [Array.prototype.sort] with the comparator
    [(a, b) => b.score - a.score]

    The sort is stable (ECMAScript 2019), so its result is the one of the
    stable insertion sort below: an element goes in front of the first
    element that its key reaches. *)
Section Sort.
Context {A : Type} (key : A -> Z).

Fixpoint insert_desc (x : A) (l : list A) : list A :=
  match l with
  | [] => [x]
  | y :: l' => if (key y <=? key x)%Z then x :: y :: l'
               else y :: insert_desc x l'
  end.

Fixpoint sort_desc (l : list A) : list A :=
  match l with
  | [] => []
  | x :: l' => insert_desc x (sort_desc l')
  end.
End Sort.

End JS.

(** ** The data model *)

Inductive ItemType := lost | found.

Inductive Status := open | resolved.

(** A document of the collection [items], together with its id.
    [keywords], [normalizedLocation] and [matchProcessed] are the enrichment
    fields that the creation triggers write back; [expiresAt] is a time in
    milliseconds. *)
Record Item := {
  item_id : string;
  item_type : ItemType;
  category : option string;
  title : option string;
  description : option string;
  location : option string;
  keywords : option (list string);
  normalizedLocation : option string;
  matchProcessed : bool;
  status : Status;
  uid : string;
  email : string;
  expiresAt : option Z
}.

(** The breakdown [matchDetails] of a score. *)
Record MatchDetails := {
  md_category : bool;
  md_location : bool;
  keywordOverlap : nat;
  matchedKeywords : list string
}.

(** The result [{ score, matchDetails }] of the score calculator. *)
Record ScoreResult := {
  score : Z;
  matchDetails : MatchDetails
}.

(** An entry of the array [matches]: the candidate with its score. *)
Record Match := {
  m_item : Item;
  m_score : Z;
  m_details : MatchDetails
}.

(** A document of the collection [notifications].  The field [createdAt]
    holds the server time stamp and is left out; [emailSent] is only set by
    the Cloud Functions. *)
Record Notification := {
  userId : string;
  userEmail : string;
  n_type : string;
  n_title : string;
  message : string;
  n_lostItemId : string;
  n_foundItemId : string;
  matchScore : Z;
  n_matchDetails : MatchDetails;
  read : bool;
  emailSent : option bool
}.

(** A document of the collection [matches] ([createdAt] left out). *)
Record MatchRecord := {
  lostItemId : string;
  foundItemId : string;
  r_score : Z;
  matchedOn : MatchDetails;
  r_status : string
}.

Definition opposite (t : ItemType) : ItemType :=
  match t with
  | lost => found
  | found => lost
  end.

Definition ItemType_eqb (a b : ItemType) : bool :=
  match a, b with
  | lost, lost | found, found => true
  | _, _ => false
  end.

Definition Status_eqb (a b : Status) : bool :=
  match a, b with
  | open, open | resolved, resolved => true
  | _, _ => false
  end.

(** [`${item.title} ${item.description}`]: an absent title or description
    is spelled [undefined]. *)
Definition item_text (i : Item) : string :=
  JS.interpolate (title i) ++ " " ++ JS.interpolate (description i).

(** The words of the constant [STOP_WORDS], which both files spell out. *)
Definition stop_word_list : list string :=
  [ "a"; "an"; "the"; "is"; "are"; "was"; "were"; "be"; "been";
    "being"; "have"; "has"; "had"; "do"; "does"; "did"; "will";
    "would"; "could"; "should"; "may"; "might"; "must"; "shall";
    "can"; "need"; "to"; "of"; "in"; "for"; "on"; "with"; "at";
    "by"; "from"; "as"; "into"; "through"; "during"; "before";
    "after"; "above"; "below"; "between"; "under"; "again";
    "further"; "then"; "once"; "here"; "there"; "when"; "where";
    "why"; "how"; "all"; "each"; "few"; "more"; "most"; "other";
    "some"; "such"; "no"; "nor"; "not"; "only"; "own"; "same";
    "so"; "than"; "too"; "very"; "just"; "and"; "but"; "if"; "or";
    "because"; "until"; "while"; "my"; "i"; "me"; "we"; "our";
    "you"; "your"; "he"; "she"; "it"; "they"; "them"; "his"; "her";
    "its"; "their"; "this"; "that"; "these"; "those"; "lost"; "found";
    "please"; "help"; "anyone"; "someone"; "near"; "around"; "today";
    "yesterday"; "morning"; "evening"; "night"; "afternoon" ].

(** ** Firestore

    The three collections the engine touches, in retrieval order.  A call to
    the store is a request that may be rejected: [faults] lists, for the
    requests still to come, whether each one fails (the empty list: none
    does).  [queries] records the pairs the duplicate check has asked for. *)

Module Firestore.

Inductive Error := Unavailable | NotFound.

Inductive Outcome (A : Type) :=
| Ok (a : A)
| Throw (e : Error).

Arguments Ok {A} a.
Arguments Throw {A} e.

Record Store := {
  items : list Item;
  notifications : list Notification;
  matches : list MatchRecord;
  queries : list (string * string);
  faults : list bool
}.

(** An asynchronous computation, run to completion: it ends with a value or
    with a rejection, and leaves the store as it is at that point. *)
Definition Async (A : Type) : Type := Store -> Outcome A * Store.

Definition ret {A : Type} (a : A) : Async A := fun st => (Ok a, st).

Definition bind {A B : Type} (c : Async A) (k : A -> Async B) : Async B :=
  fun st =>
    match c st with
    | (Ok a, st') => k a st'
    | (Throw e, st') => (Throw e, st')
    end.

Notation "x <- c1 ;; c2" := (bind c1 (fun x => c2))
  (at level 61, c1 at next level, right associativity).

Definition set_faults (fs : list bool) (st : Store) : Store :=
  {| items := items st; notifications := notifications st;
     matches := matches st; queries := queries st; faults := fs |}.

Definition log_query (l f : string) (st : Store) : Store :=
  {| items := items st; notifications := notifications st;
     matches := matches st; queries := queries st ++ [(l, f)];
     faults := faults st |}.

Definition push_notification (n : Notification) (st : Store) : Store :=
  {| items := items st; notifications := notifications st ++ [n];
     matches := matches st; queries := queries st; faults := faults st |}.

Definition push_match (r : MatchRecord) (st : Store) : Store :=
  {| items := items st; notifications := notifications st;
     matches := matches st ++ [r]; queries := queries st;
     faults := faults st |}.

Definition set_items (l : list Item) (st : Store) : Store :=
  {| items := l; notifications := notifications st;
     matches := matches st; queries := queries st; faults := faults st |}.

(** One round trip to the store. *)
Definition request : Async unit :=
  fun st =>
    match faults st with
    | [] => (Ok tt, st)
    | b :: fs =>
        if b then (Throw Unavailable, set_faults fs st)
        else (Ok tt, set_faults fs st)
    end.

(** [collection("items").where("type", "==", t).where("status", "==", "open").get()] *)
Definition open_items_of_type (t : ItemType) : Async (list Item) :=
  _ <- request ;;
  fun st =>
    (Ok (filter (fun i => ItemType_eqb (item_type i) t && Status_eqb (status i) open)
           (items st)), st).

Definition same_pair (l f : string) (r : MatchRecord) : bool :=
  String.eqb (lostItemId r) l && String.eqb (foundItemId r) f.

(** The query of the duplicate check: is there a document of [matches] with
    these two ids?  Answers whether the result is non-empty. *)
Definition match_query_nonempty (l f : string) : Async bool :=
  _ <- request ;;
  fun st => (Ok (existsb (same_pair l f) (matches st)), log_query l f st).

(** [collection("notifications").add(n)] *)
Definition add_notification (n : Notification) : Async unit :=
  _ <- request ;;
  fun st => (Ok tt, push_notification n st).

(** [collection("matches").add(r)] *)
Definition add_match (r : MatchRecord) : Async unit :=
  _ <- request ;;
  fun st => (Ok tt, push_match r st).

(** [ref.update(fields)] on the document [id] of [items]; the update of a
    document that does not exist is rejected. *)
Definition update_item (id : string) (f : Item -> Item) : Async unit :=
  _ <- request ;;
  fun st =>
    if existsb (fun i => String.eqb (item_id i) id) (items st) then
      (Ok tt,
       set_items (map (fun i => if String.eqb (item_id i) id then f i else i)
                      (items st)) st)
    else (Throw NotFound, st).

(** [for (const x of l) { ... }] with the local variables the body updates
    passed along in [s]. *)
Fixpoint for_of {A S : Type} (l : list A) (body : A -> S -> Async S) (s : S)
  : Async S :=
  match l with
  | [] => ret s
  | x :: l' => s' <- body x s ;; for_of l' body s'
  end.

End Firestore.

Import Firestore.

Definition byte_string (l : list nat) : string :=
  string_of_list_ascii (map ascii_of_nat l).

(** The double quote of the message templates. *)
Definition dq : string := byte_string [34].

(** The record [{ keywords, normalizedLocation, matchProcessed: true }] laid
    over an item. *)
Definition enrich (kws : list string) (nloc : string) (i : Item) : Item :=
  {| item_id := item_id i; item_type := item_type i; category := category i;
     title := title i; description := description i; location := location i;
     keywords := Some kws; normalizedLocation := Some nloc;
     matchProcessed := true; status := status i; uid := uid i;
     email := email i; expiresAt := expiresAt i |}.

(** [{ ...newItem, keywords, normalizedLocation }] *)
Definition with_enrichment (kws : list string) (nloc : string) (i : Item) : Item :=
  {| item_id := item_id i; item_type := item_type i; category := category i;
     title := title i; description := description i; location := location i;
     keywords := Some kws; normalizedLocation := Some nloc;
     matchProcessed := matchProcessed i; status := status i; uid := uid i;
     email := email i; expiresAt := expiresAt i |}.

(** Truthiness of [item.expiresAt]: absent and 0 are falsy. *)
Definition expiresAt_truthy (i : Item) : bool :=
  match expiresAt i with
  | Some e => negb (e =? 0)%Z
  | None => false
  end.

Definition expiresAt_lt (i : Item) (now : Z) : bool :=
  match expiresAt i with
  | Some e => (e <? now)%Z
  | None => false
  end.

Definition expiresAt_ge (i : Item) (now : Z) : bool :=
  match expiresAt i with
  | Some e => (now <=? e)%Z
  | None => false
  end.

(** ** functions/index.js *)

Module Functions.

Definition MATCH_THRESHOLD : Z := 50.

Record Weights := {
  w_category : JS.number;
  w_location : JS.number;
  w_keywords : JS.number
}.

Definition WEIGHTS : Weights :=
  {| w_category := JS.num 40; w_location := JS.num 30; w_keywords := JS.num 30 |}.

Definition STOP_WORDS : list string := JS.new_Set stop_word_list.

Definition extractKeywords (text : option string) : list string :=
  if negb (JS.truthy text) then []
  else
    JS.slice0 20
      (filter (fun word => (2 <? String.length word)%nat
                           && negb (JS.Set_has STOP_WORDS word))
         (JS.split_ws (JS.strip_special (JS.toLowerCase (JS.interpolate text))))).

Definition normalizeLocation (location : option string) : string :=
  if negb (JS.truthy location) then ""
  else JS.trim (JS.toLowerCase (JS.interpolate location)).

(** [stored || computed] *)
Definition or_else (stored : option string) (computed : string) : string :=
  if JS.truthy stored then JS.interpolate stored else computed.

(** The points of the location tier that applies, if one does. *)
Definition locationPoints (loc1 loc2 : string) : option JS.number :=
  if JS.str_truthy loc1 && JS.str_truthy loc2 then
    if String.eqb loc1 loc2 then Some (w_location WEIGHTS)
    else if JS.includes loc1 loc2 || JS.includes loc2 loc1 then
      Some (JS.mul (w_location WEIGHTS) JS.lit_0_7)
    else
      let words1 := JS.split_ws loc1 in
      let words2 := JS.split_ws loc2 in
      let commonWords :=
        filter (fun w => JS.array_includes words2 w && (2 <? String.length w)%nat)
               words1 in
      if (0 <? List.length commonWords)%nat then
        Some (JS.mul (w_location WEIGHTS) JS.lit_0_5)
      else None
  else None.

Definition calculateMatchScore (item1 item2 : Item) : ScoreResult :=
  let score := JS.num 0 in
  (* 1. Category Match *)
  let categoryMatch :=
    JS.truthy (category item1) && JS.truthy (category item2)
    && JS.strict_eq (category item1) (category item2) in
  let score := if categoryMatch then JS.add score (w_category WEIGHTS) else score in
  (* 2. Location Match *)
  let loc1 := or_else (normalizedLocation item1) (normalizeLocation (location item1)) in
  let loc2 := or_else (normalizedLocation item2) (normalizeLocation (location item2)) in
  let locationMatch := locationPoints loc1 loc2 in
  let score :=
    match locationMatch with
    | Some points => JS.add score points
    | None => score
    end in
  (* 3. Keyword Overlap *)
  let kw1 := JS.new_Set (match keywords item1 with
                         | Some k => k
                         | None => extractKeywords (Some (item_text item1))
                         end) in
  let kw2 := JS.new_Set (match keywords item2 with
                         | Some k => k
                         | None => extractKeywords (Some (item_text item2))
                         end) in
  let intersection := filter (fun k => JS.Set_has kw2 k) kw1 in
  let union := JS.new_Set (kw1 ++ kw2) in
  let overlap := (0 <? List.length union)%nat && (0 <? List.length intersection)%nat in
  let score :=
    if overlap then
      let jaccardScore :=
        JS.div (JS.num (Z.of_nat (List.length intersection)))
               (JS.num (Z.of_nat (List.length union))) in
      let overlapBonus :=
        JS.mul (JS.Math_min (JS.div (JS.num (Z.of_nat (List.length intersection)))
                                    (JS.num 5))
                            (JS.num 1))
               JS.lit_0_3 in
      let keywordScore := JS.mul (JS.add jaccardScore overlapBonus) (w_keywords WEIGHTS) in
      JS.add score keywordScore
    else score in
  {| score := JS.Math_round (JS.Math_min score (JS.num 100));
     matchDetails :=
       {| md_category := categoryMatch;
          md_location := match locationMatch with Some _ => true | None => false end;
          keywordOverlap := if overlap then List.length intersection else 0%nat;
          matchedKeywords := if overlap then JS.slice0 5 intersection else [] |} |}.

(** The title of the notification: a party popper and the text. *)
Definition notification_title : string :=
  byte_string [240; 159; 142; 137] ++ " Potential Match Found!".

(** The object [notification] of [createNotification]. *)
Definition notification (lostItem foundItem : Item) (score : Z)
    (matchDetails : MatchDetails) : Notification :=
  {| userId := uid lostItem;
     userEmail := email lostItem;
     n_type := "match_found";
     n_title := notification_title;
     message := "Your lost " ++ dq ++ JS.interpolate (title lostItem) ++ dq
                ++ " may match a found item " ++ dq
                ++ JS.interpolate (title foundItem) ++ dq
                ++ " near " ++ dq ++ JS.interpolate (location foundItem) ++ dq ++ ".";
     n_lostItemId := item_id lostItem;
     n_foundItemId := item_id foundItem;
     matchScore := score;
     n_matchDetails := matchDetails;
     read := false;
     emailSent := Some false |}.

(** The document added to [matches]. *)
Definition matchRecord (lostItem foundItem : Item) (score : Z)
    (matchDetails : MatchDetails) : MatchRecord :=
  {| lostItemId := item_id lostItem;
     foundItemId := item_id foundItem;
     r_score := score;
     matchedOn := matchDetails;
     r_status := "pending" |}.

(** Writes the notification for the owner of the lost item and the match
    record; writes nothing when one user posted both items.  The messages
    sent to the console are left out. *)
Definition createNotification (lostItem foundItem : Item) (score : Z)
    (matchDetails : MatchDetails) : Async (option Notification) :=
  if String.eqb (uid lostItem) (uid foundItem) then ret None
  else
    _ <- add_notification (notification lostItem foundItem score matchDetails) ;;
    _ <- add_match (matchRecord lostItem foundItem score matchDetails) ;;
    ret (Some (notification lostItem foundItem score matchDetails)).

Definition matchExists (lostItemId foundItemId : string) : Async bool :=
  match_query_nonempty lostItemId foundItemId.

(** The loop over the open found items of [onLostItemCreated]: expired items
    are skipped, the others are scored against the new item and kept from
    the threshold on. *)
Fixpoint scanFoundItems (now : Z) (newItem : Item) (docs : list Item) : list Match :=
  match docs with
  | [] => []
  | foundItem :: rest =>
      if expiresAt_truthy foundItem && expiresAt_lt foundItem now then
        scanFoundItems now newItem rest
      else
        let r := calculateMatchScore newItem foundItem in
        if (MATCH_THRESHOLD <=? score r)%Z then
          {| m_item := foundItem; m_score := score r; m_details := matchDetails r |}
            :: scanFoundItems now newItem rest
        else scanFoundItems now newItem rest
  end.

(** The same loop of [onFoundItemCreated], over the open lost items. *)
Fixpoint scanLostItems (now : Z) (newItem : Item) (docs : list Item) : list Match :=
  match docs with
  | [] => []
  | lostItem :: rest =>
      if expiresAt_truthy lostItem && expiresAt_lt lostItem now then
        scanLostItems now newItem rest
      else
        let r := calculateMatchScore lostItem newItem in
        if (MATCH_THRESHOLD <=? score r)%Z then
          {| m_item := lostItem; m_score := score r; m_details := matchDetails r |}
            :: scanLostItems now newItem rest
        else scanLostItems now newItem rest
  end.

(** [matches.sort((a, b) => b.score - a.score)] followed by [slice(0, 3)] *)
Definition top3 (ms : list Match) : list Match :=
  JS.slice0 3 (JS.sort_desc m_score ms).

(** The body of the loop over the top matches of [onLostItemCreated]: the
    new item is the lost one. *)
Definition notifyFoundMatch (newItem : Item) (m : Match) (notificationCount : nat)
  : Async nat :=
  exists_ <- matchExists (item_id newItem) (item_id (m_item m)) ;;
  if negb exists_ then
    _ <- createNotification newItem (m_item m) (m_score m) (m_details m) ;;
    ret (S notificationCount)
  else ret notificationCount.

(** The body of the loop of [onFoundItemCreated]: the new item is the found
    one. *)
Definition notifyLostMatch (newItem : Item) (m : Match) (notificationCount : nat)
  : Async nat :=
  exists_ <- matchExists (item_id (m_item m)) (item_id newItem) ;;
  if negb exists_ then
    _ <- createNotification (m_item m) newItem (m_score m) (m_details m) ;;
    ret (S notificationCount)
  else ret notificationCount.

(** The handler of the creation of a document of [items], for lost items.
    [now] is the value of [Date.now()].  The handler resolves to [null]; the
    embedding gives back the value of [notificationCount] that the last line
    logs, and [None] when the item is skipped. *)
Definition onLostItemCreated (now : Z) (newItem : Item) : Async (option nat) :=
  if negb (ItemType_eqb (item_type newItem) lost) then ret None
  else
    let keywords := extractKeywords (Some (item_text newItem)) in
    let normalizedLocation := normalizeLocation (location newItem) in
    _ <- update_item (item_id newItem) (enrich keywords normalizedLocation) ;;
    foundItems <- open_items_of_type found ;;
    let ms := scanFoundItems now (with_enrichment keywords normalizedLocation newItem)
                             foundItems in
    notificationCount <- for_of (top3 ms) (notifyFoundMatch newItem) 0%nat ;;
    ret (Some notificationCount).

(** The handler for found items. *)
Definition onFoundItemCreated (now : Z) (newItem : Item) : Async (option nat) :=
  if negb (ItemType_eqb (item_type newItem) found) then ret None
  else
    let keywords := extractKeywords (Some (item_text newItem)) in
    let normalizedLocation := normalizeLocation (location newItem) in
    _ <- update_item (item_id newItem) (enrich keywords normalizedLocation) ;;
    lostItems <- open_items_of_type lost ;;
    let ms := scanLostItems now (with_enrichment keywords normalizedLocation newItem)
                            lostItems in
    notificationCount <- for_of (top3 ms) (notifyLostMatch newItem) 0%nat ;;
    ret (Some notificationCount).

End Functions.

(** ** dashboard.js *)

Module Dashboard.

Definition MATCH_THRESHOLD : Z := 50.

Record Weights := {
  w_category : JS.number;
  w_location : JS.number;
  w_keywords : JS.number
}.

Definition WEIGHTS : Weights :=
  {| w_category := JS.num 40; w_location := JS.num 30; w_keywords := JS.num 30 |}.

Definition STOP_WORDS : list string := JS.new_Set stop_word_list.

Definition extractKeywords (text : option string) : list string :=
  if negb (JS.truthy text) then []
  else
    JS.slice0 20
      (filter (fun w => (2 <? String.length w)%nat && negb (JS.Set_has STOP_WORDS w))
         (JS.split_ws (JS.strip_special (JS.toLowerCase (JS.interpolate text))))).

(** [loc?.toLowerCase().trim() || ''] *)
Definition normalizeLocation (loc : option string) : string :=
  match loc with
  | None => ""
  | Some l =>
      let t := JS.trim (JS.toLowerCase l) in
      if JS.str_truthy t then t else ""
  end.

Definition calculateMatchScore (item1 item2 : Item) : ScoreResult :=
  let score := JS.num 0 in
  let categoryMatch :=
    JS.truthy (category item1) && JS.strict_eq (category item1) (category item2) in
  let score := if categoryMatch then JS.add score (w_category WEIGHTS) else score in
  let loc1 := normalizeLocation (location item1) in
  let loc2 := normalizeLocation (location item2) in
  let locationMatch :=
    if JS.str_truthy loc1 && JS.str_truthy loc2 then
      if String.eqb loc1 loc2 then Some (w_location WEIGHTS)
      else if JS.includes loc1 loc2 || JS.includes loc2 loc1 then
        Some (JS.mul (w_location WEIGHTS) JS.lit_0_7)
      else if (0 <? List.length
                      (filter (fun w => JS.array_includes (JS.split_ws loc2) w
                                        && (2 <? String.length w)%nat)
                              (JS.split_ws loc1)))%nat then
        Some (JS.mul (w_location WEIGHTS) JS.lit_0_5)
      else None
    else None in
  let score :=
    match locationMatch with
    | Some points => JS.add score points
    | None => score
    end in
  let kw1 := JS.new_Set (extractKeywords (Some (item_text item1))) in
  let kw2 := JS.new_Set (extractKeywords (Some (item_text item2))) in
  let intersection := filter (fun k => JS.Set_has kw2 k) kw1 in
  let overlap := (0 <? List.length intersection)%nat in
  let score :=
    if overlap then
      JS.add score
        (JS.mul
           (JS.add
              (JS.div (JS.num (Z.of_nat (List.length intersection)))
                      (JS.num (Z.of_nat (List.length (JS.new_Set (kw1 ++ kw2))))))
              (JS.mul (JS.Math_min (JS.div (JS.num (Z.of_nat (List.length intersection)))
                                           (JS.num 5))
                                   (JS.num 1))
                      JS.lit_0_3))
           (w_keywords WEIGHTS))
    else score in
  {| score := JS.Math_round (JS.Math_min score (JS.num 100));
     matchDetails :=
       {| md_category := categoryMatch;
          md_location := match locationMatch with Some _ => true | None => false end;
          keywordOverlap := if overlap then List.length intersection else 0%nat;
          matchedKeywords := if overlap then JS.slice0 5 intersection else [] |} |}.

Definition matchExists (lostId foundId : string) : Async bool :=
  match_query_nonempty lostId foundId.

(** The first characters of the two titles, as the file spells them. *)
Definition title_prefix : string := byte_string [196; 159; 197; 184; 226; 128; 176].

(** The object [lostNotif] of [createMatchNotification]. *)
Definition lostNotif (lostItem foundItem : Item) (score : Z)
    (matchDetails : MatchDetails) : Notification :=
  {| userId := uid lostItem;
     userEmail := email lostItem;
     n_type := "match_found";
     n_title := title_prefix ++ " Potential Match Found!";
     message := "Your lost " ++ dq ++ JS.interpolate (title lostItem) ++ dq
                ++ " may match a found item " ++ dq
                ++ JS.interpolate (title foundItem) ++ dq
                ++ " near " ++ dq ++ JS.interpolate (location foundItem) ++ dq ++ ".";
     n_lostItemId := item_id lostItem;
     n_foundItemId := item_id foundItem;
     matchScore := score;
     n_matchDetails := matchDetails;
     read := false;
     emailSent := None |}.

(** The object [foundNotif]. *)
Definition foundNotif (lostItem foundItem : Item) (score : Z)
    (matchDetails : MatchDetails) : Notification :=
  {| userId := uid foundItem;
     userEmail := email foundItem;
     n_type := "match_found";
     n_title := title_prefix ++ " Someone may be looking for this!";
     message := "Your found " ++ dq ++ JS.interpolate (title foundItem) ++ dq
                ++ " may belong to someone who lost " ++ dq
                ++ JS.interpolate (title lostItem) ++ dq ++ ".";
     n_lostItemId := item_id lostItem;
     n_foundItemId := item_id foundItem;
     matchScore := score;
     n_matchDetails := matchDetails;
     read := false;
     emailSent := None |}.

(** The document added to [matches]. *)
Definition matchRecord (lostItem foundItem : Item) (score : Z)
    (matchDetails : MatchDetails) : MatchRecord :=
  {| lostItemId := item_id lostItem;
     foundItemId := item_id foundItem;
     r_score := score;
     matchedOn := matchDetails;
     r_status := "pending" |}.

(** Writes one notification for each of the two owners and the match record;
    writes nothing when one user posted both items.  The push notification
    shown in the browser is left out. *)
Definition createMatchNotification (lostItem foundItem : Item) (score : Z)
    (matchDetails : MatchDetails) : Async (option (Notification * Notification)) :=
  if String.eqb (uid lostItem) (uid foundItem) then ret None
  else
    _ <- add_notification (lostNotif lostItem foundItem score matchDetails) ;;
    _ <- add_notification (foundNotif lostItem foundItem score matchDetails) ;;
    _ <- add_match (matchRecord lostItem foundItem score matchDetails) ;;
    ret (Some (lostNotif lostItem foundItem score matchDetails,
               foundNotif lostItem foundItem score matchDetails)).

(** The array [matches] of [findMatches]: every open item of the other type
    scored against the new item, those under the threshold or expired
    dropped, the rest sorted by score and cut to three. *)
Definition rankedMatches (now : Z) (newItem : Item) (docs : list Item) : list Match :=
  JS.slice0 3
    (JS.sort_desc m_score
       (filter (fun m => (MATCH_THRESHOLD <=? m_score m)%Z
                         && (negb (expiresAt_truthy (m_item m))
                             || expiresAt_ge (m_item m) now))
          (map (fun d => let r := calculateMatchScore newItem d in
                         {| m_item := d; m_score := score r; m_details := matchDetails r |})
               docs))).

(** The roles [[lost, found]] of the new item and a candidate. *)
Definition roles (newItem candidate : Item) : Item * Item :=
  if ItemType_eqb (item_type newItem) lost then (newItem, candidate)
  else (candidate, newItem).

(** The body of the loop over [matches] of [findMatches]. *)
Definition notifyMatch (newItem : Item) (m : Match) (count : nat) : Async nat :=
  let '(lost_, found_) := roles newItem (m_item m) in
  exists_ <- matchExists (item_id lost_) (item_id found_) ;;
  if negb exists_ then
    _ <- createMatchNotification lost_ found_ (m_score m) (m_details m) ;;
    ret (S count)
  else ret count.

(** [now] is the value of [Date.now()]. *)
Definition findMatches (now : Z) (newItem : Item) : Async nat :=
  snapshot <- open_items_of_type
                (if ItemType_eqb (item_type newItem) lost then found else lost) ;;
  let ms := rankedMatches now newItem snapshot in
  for_of ms (notifyMatch newItem) 0%nat.

End Dashboard.

(** ** Notions used in the statements *)

Fixpoint str_forall (p : ascii -> bool) (s : string) : bool :=
  match s with
  | EmptyString => true
  | String c s' => p c && str_forall p s'
  end.

(** A token made of lower-case letters and digits only. *)
Definition alnum_token (t : string) : bool :=
  str_forall (fun c => JS.is_lower c || JS.is_digit c) t.

(** What the keyword extractor promises of each token. *)
Definition keyword_ok (t : string) : Prop :=
  alnum_token t = true /\ 2 < String.length t /\ ~ In t stop_word_list.


(** ** The score calculators

    Both calculators compute the same sum from four signals: whether the
    categories match, the points of the location tier, the number of shared
    keywords and the size of the union. *)

Definition keywordPoints (i u : nat) : JS.number :=
  JS.mul (JS.add (JS.div (JS.num (Z.of_nat i)) (JS.num (Z.of_nat u)))
                 (JS.mul (JS.Math_min (JS.div (JS.num (Z.of_nat i)) (JS.num 5))
                                      (JS.num 1))
                         JS.lit_0_3))
         (JS.num 30).

Definition score_sum (categoryMatch : bool) (locationMatch : option JS.number)
    (overlap : bool) (i u : nat) : JS.number :=
  let score := JS.num 0 in
  let score := if categoryMatch then JS.add score (JS.num 40) else score in
  let score := match locationMatch with
               | Some points => JS.add score points
               | None => score
               end in
  if overlap then JS.add score (keywordPoints i u) else score.

Definition score_of_signals (categoryMatch : bool) (locationMatch : option JS.number)
    (overlap : bool) (kw1 kw2 : list string) : ScoreResult :=
  let intersection := filter (fun k => JS.Set_has kw2 k) kw1 in
  {| score := JS.Math_round
                (JS.Math_min
                   (score_sum categoryMatch locationMatch overlap
                      (List.length intersection)
                      (List.length (JS.new_Set (kw1 ++ kw2))))
                   (JS.num 100));
     matchDetails :=
       {| md_category := categoryMatch;
          md_location := match locationMatch with Some _ => true | None => false end;
          keywordOverlap := if overlap then List.length intersection else 0%nat;
          matchedKeywords := if overlap then JS.slice0 5 intersection else [] |} |}.

(** The signals as [functions/index.js] reads them off two items. *)
Definition server_category (item1 item2 : Item) : bool :=
  JS.truthy (category item1) && JS.truthy (category item2)
  && JS.strict_eq (category item1) (category item2).

Definition server_location (i : Item) : string :=
  Functions.or_else (normalizedLocation i) (Functions.normalizeLocation (location i)).

Definition server_keywords (i : Item) : list string :=
  JS.new_Set (match keywords i with
              | Some k => k
              | None => Functions.extractKeywords (Some (item_text i))
              end).

(** The signals as [dashboard.js] reads them. *)
Definition client_category (item1 item2 : Item) : bool :=
  JS.truthy (category item1) && JS.strict_eq (category item1) (category item2).

Definition client_location (i : Item) : string :=
  Dashboard.normalizeLocation (location i).

Definition client_keywords (i : Item) : list string :=
  JS.new_Set (Functions.extractKeywords (Some (item_text i))).

Definition shared (kw1 kw2 : list string) : list string :=
  filter (fun k => JS.Set_has kw2 k) kw1.

(** The three location tiers. *)
Definition location_tiers : list (option JS.number) :=
  [ None; Some (JS.num 30); Some (JS.mul (JS.num 30) JS.lit_0_7);
    Some (JS.mul (JS.num 30) JS.lit_0_5) ].

(** Cached enrichment fields are the ones the triggers derive from the text
    of the item. *)
Definition well_formed (i : Item) : Prop :=
  match keywords i with
  | Some k => k = Functions.extractKeywords (Some (item_text i))
  | None => True
  end
  /\ match normalizedLocation i with
     | Some l => l = Functions.normalizeLocation (location i)
     | None => True
     end.


(** ** Sample data *)

Definition sample_item (id : string) (t : ItemType) (cat ttl descr : string)
    (loc : string) (owner : string) (expires : option Z) : Item :=
  {| item_id := id; item_type := t; category := Some cat; title := Some ttl;
     description := Some descr; location := Some loc; keywords := None;
     normalizedLocation := None; matchProcessed := false; status := open;
     uid := owner; email := owner ++ "@thapar.edu"; expiresAt := expires |}.

(** A lost and a found blue bag, posted by two users. *)
Definition lost_bag : Item :=
  sample_item "L1" lost "Bags" "Blue bag" "blue backpack with laptop"
              "Library" "u1" (Some 1700000300000%Z).

Definition found_bag : Item :=
  sample_item "F1" found "Bags" "Blue bag" "blue backpack with laptop"
              "Main Library" "u2" (Some 1700000200000%Z).

(** A lost and a found identity card whose texts hold no keyword: [id] is
    too short and [my] is a stop word. *)
Definition lost_card : Item :=
  sample_item "L2" lost "Documents" "ID" "My ID" "Library" "u1"
              (Some 1700000300000%Z).

Definition found_card : Item :=
  sample_item "F2" found "Documents" "ID" "My ID" "Library" "u2"
              (Some 1700000200000%Z).



(** ** The table of scores

    The sum of the calculator only depends on the category flag, the
    location tier and, when keywords are shared, the two counts [i <= 20] and
    [u <= 40]; the checks below run over all of them. *)

Definition clamp_round (x : JS.number) : Z :=
  JS.Math_round (JS.Math_min x (JS.num 100)).



(** The scores of two items that agree on category, location and keywords. *)
Definition identical_table_ok : bool :=
  forallb (fun n => (clamp_round (score_sum true (Some (JS.num 30)) true n n) =? 100)%Z)
          (seq 1 20).

(** The found bag, reported at the place of the lost one. *)
Definition found_bag_same_place : Item :=
  sample_item "F3" found "Bags" "Blue bag" "blue backpack with laptop"
              "Library" "u2" (Some 1700000200000%Z).


(** The two bags again, reported without a location. *)
Definition lost_bag_nowhere : Item :=
  sample_item "L4" lost "Bags" "Blue bag" "blue backpack with laptop" ""
              "u1" (Some 1700000300000%Z).

Definition found_bag_nowhere : Item :=
  sample_item "F4" found "Bags" "Blue bag" "blue backpack with laptop" ""
              "u2" (Some 1700000200000%Z).

(** ** Notions for the match finder *)

(** The score is not below the threshold and the item has not expired, as
    the code tests it: an absent [expiresAt] and the value 0 are falsy and
    never count as expired. *)
Definition eligible (now : Z) (scoreOf : Item -> Z) (d : Item) : bool :=
  negb (expiresAt_truthy d && expiresAt_lt d now) && (50 <=? scoreOf d)%Z.

(** The candidates in retrieval order, each with its score. *)
Definition candidates (now : Z) (calc : Item -> ScoreResult) (docs : list Item)
  : list Match :=
  map (fun d => {| m_item := d; m_score := score (calc d);
                   m_details := matchDetails (calc d) |})
      (filter (eligible now (fun d => score (calc d))) docs).

Definition desc_sorted (ms : list Match) : Prop :=
  StronglySorted (fun a b => (m_score b <= m_score a)%Z) ms.

Definition with_score (s : Z) (m : Match) : bool := (m_score m =? s)%Z.

(** [expiresAt], when present and not 0, is not before [now]. *)
Definition live (now : Z) (i : Item) : Prop :=
  forall e, expiresAt i = Some e -> e <> 0%Z -> (now <= e)%Z.

(** What holds of the output [out] of a match finder run at time [now] over
    the pool [docs] (in retrieval order) with the scores [scoreOf]: at most
    three entries; each one scored by [scoreOf], at 50 or more, and live;
    scores in descending order; and, for every score [s], the entries of
    score [s] are the first eligible items of score [s] of the pool, in the
    order of the pool. *)
Definition ranked (now : Z) (scoreOf : Item -> Z) (docs : list Item)
    (out : list Match) : Prop :=
  List.length out <= 3
  /\ Forall (fun m => m_score m = scoreOf (m_item m)
                      /\ (50 <= m_score m)%Z
                      /\ live now (m_item m)) out
  /\ desc_sorted out
  /\ forall s, exists rest,
       filter (fun d => eligible now scoreOf d && (scoreOf d =? s)%Z) docs
       = map m_item (filter (with_score s) out) ++ rest.

(** The found bag with an [expiresAt] of 0, and a time of invocation. *)
Definition found_bag_epoch : Item :=
  sample_item "F5" found "Bags" "Blue bag" "blue backpack with laptop"
              "Main Library" "u2" (Some 0%Z).

Definition sample_now : Z := 1700000000000%Z.

(** ** Notions for the passes over the store *)

(** No request to the store fails. *)
Definition quiet (st : Store) : Prop := faults st = [].

Definition has_record (l f : string) (st : Store) : bool :=
  existsb (same_pair l f) (matches st).

Definition count_records (l f : string) (st : Store) : nat :=
  List.length (filter (same_pair l f) (matches st)).

Definition about_pair (l f : string) (n : Notification) : bool :=
  String.eqb (n_lostItemId n) l && String.eqb (n_foundItemId n) f.

Definition count_notifications (l f : string) (st : Store) : nat :=
  List.length (filter (about_pair l f) (notifications st)).

(** [st'] is [st] with the notifications [ns] and the match records [rs]
    added, and nothing else changed. *)
Definition adds (st st' : Store) (ns : list Notification) (rs : list MatchRecord)
  : Prop :=
  items st' = items st
  /\ notifications st' = notifications st ++ ns
  /\ matches st' = matches st ++ rs
  /\ queries st' = queries st
  /\ faults st' = faults st.

(** A store that holds the four bags and nothing else. *)
Definition sample_store : Store :=
  {| items := [lost_bag; found_bag; found_bag_same_place; found_bag_epoch];
     notifications := []; matches := []; queries := []; faults := [] |}.

Definition sample_details : MatchDetails :=
  matchDetails (Functions.calculateMatchScore lost_bag found_bag).

(** ** The effect of a pass on a store without faults *)

(** The roles [(lost, found)] of the new item and a candidate, by the type
    of the new item. *)
Definition orient (t : ItemType) (newItem c : Item) : Item * Item :=
  match t with
  | lost => (newItem, c)
  | found => (c, newItem)
  end.

(** What a notification writer adds for a pair of distinct owners. *)
Record Writer := {
  w_notifications : Item -> Item -> Z -> MatchDetails -> list Notification;
  w_record : Item -> Item -> Z -> MatchDetails -> MatchRecord
}.

Definition server_writer : Writer :=
  {| w_notifications := fun l f s d => [Functions.notification l f s d];
     w_record := Functions.matchRecord |}.

Definition client_writer : Writer :=
  {| w_notifications := fun l f s d =>
       [Dashboard.lostNotif l f s d; Dashboard.foundNotif l f s d];
     w_record := Dashboard.matchRecord |}.

Definition push_all (ns : list Notification) (st : Store) : Store :=
  fold_left (fun s n => push_notification n s) ns st.

Definition write_effect (W : Writer) (l f : Item) (s : Z) (d : MatchDetails)
    (st : Store) : Store :=
  if String.eqb (uid l) (uid f) then st
  else push_match (w_record W l f s d) (push_all (w_notifications W l f s d) st).

(** One turn of the loop: the count and the store after the duplicate check
    and, if no record was found, the writer. *)
Definition step_effect (W : Writer) (t : ItemType) (newItem : Item) (m : Match)
    (acc : nat * Store) : nat * Store :=
  let l := fst (orient t newItem (m_item m)) in
  let f := snd (orient t newItem (m_item m)) in
  let st1 := log_query (item_id l) (item_id f) (snd acc) in
  if has_record (item_id l) (item_id f) (snd acc) then (fst acc, st1)
  else (S (fst acc), write_effect W l f (m_score m) (m_details m) st1).

Definition pass_effect (W : Writer) (t : ItemType) (newItem : Item)
    (ms : list Match) (acc : nat * Store) : nat * Store :=
  fold_left (fun acc m => step_effect W t newItem m acc) ms acc.

(** The ids [(lostItemId, foundItemId)] a pass uses for a candidate. *)
Definition pair_ids (t : ItemType) (newItem : Item) (m : Match) : string * string :=
  (item_id (fst (orient t newItem (m_item m))),
   item_id (snd (orient t newItem (m_item m)))).

(** No match record of the store has the ids of the candidate. *)
Definition fresh (t : ItemType) (newItem : Item) (st : Store) (m : Match) : bool :=
  negb (has_record (fst (pair_ids t newItem m)) (snd (pair_ids t newItem m)) st).

Definition other_owner (t : ItemType) (newItem : Item) (m : Match) : bool :=
  negb (String.eqb (uid (fst (orient t newItem (m_item m))))
                   (uid (snd (orient t newItem (m_item m))))).

(** The candidates a pass writes for. *)
Definition written (t : ItemType) (newItem : Item) (st : Store) (ms : list Match)
  : list Match :=
  filter (fun m => fresh t newItem st m && other_owner t newItem m) ms.

Definition notifications_for (W : Writer) (t : ItemType) (newItem : Item) (m : Match)
  : list Notification :=
  w_notifications W (fst (orient t newItem (m_item m)))
    (snd (orient t newItem (m_item m))) (m_score m) (m_details m).

Definition record_for (W : Writer) (t : ItemType) (newItem : Item) (m : Match)
  : MatchRecord :=
  w_record W (fst (orient t newItem (m_item m)))
    (snd (orient t newItem (m_item m))) (m_score m) (m_details m).

(** The store after a pass over [ms]. *)
Definition store_after (W : Writer) (t : ItemType) (newItem : Item)
    (ms : list Match) (st : Store) : Store :=
  {| items := items st;
     notifications := notifications st
                      ++ flat_map (notifications_for W t newItem)
                                  (written t newItem st ms);
     matches := matches st ++ map (record_for W t newItem) (written t newItem st ms);
     queries := queries st ++ map (pair_ids t newItem) ms;
     faults := faults st |}.

(** The writers put the ids of the two items in what they write. *)
Definition writer_ok (W : Writer) : Prop :=
  forall l f s d,
    lostItemId (w_record W l f s d) = item_id l
    /\ foundItemId (w_record W l f s d) = item_id f
    /\ Forall (fun n => n_lostItemId n = item_id l /\ n_foundItemId n = item_id f)
              (w_notifications W l f s d).

Definition candidate_ids (ms : list Match) : list string :=
  map (fun m => item_id (m_item m)) ms.

(** ** Notions for the three passes *)

(** The open items of type [t], in retrieval order. *)
Definition pool (t : ItemType) (st : Store) : list Item :=
  filter (fun i => ItemType_eqb (item_type i) t && Status_eqb (status i) open)
         (items st).

(** The ids of the documents of [items] are distinct. *)
Definition store_ok (st : Store) : Prop := NoDup (map item_id (items st)).

(** The new item is a document of the store (the trigger runs on its
    creation): some document has its id and its type. *)
Definition posted (newItem : Item) (st : Store) : Prop :=
  exists d, In d (items st) /\ item_id d = item_id newItem
            /\ item_type d = item_type newItem.

(** The store once a trigger has written the enrichment of the new item. *)
Definition enriched_store (newItem : Item) (st : Store) : Store :=
  set_items
    (map (fun i => if String.eqb (item_id i) (item_id newItem)
                   then enrich (Functions.extractKeywords (Some (item_text newItem)))
                               (Functions.normalizeLocation (location newItem)) i
                   else i)
         (items st)) st.

(** The new item as the triggers pass it to the score calculator. *)
Definition enriched (newItem : Item) : Item :=
  with_enrichment (Functions.extractKeywords (Some (item_text newItem)))
                  (Functions.normalizeLocation (location newItem)) newItem.

(** The top matches of the three passes. *)
Definition client_ranked (now : Z) (newItem : Item) (st : Store) : list Match :=
  Dashboard.rankedMatches now newItem (pool (opposite (item_type newItem)) st).

Definition lost_trigger_ranked (now : Z) (newItem : Item) (st : Store) : list Match :=
  Functions.top3 (Functions.scanFoundItems now (enriched newItem) (pool found st)).

Definition found_trigger_ranked (now : Z) (newItem : Item) (st : Store) : list Match :=
  Functions.top3 (Functions.scanLostItems now (enriched newItem) (pool lost st)).

(** ** Notions for passes over a store with faults *)

(** The outcome of a turn for the candidate [m] from the store [st]: the
    documents of [items] are untouched, notifications of the candidate may
    be added, and the match record of the candidate is added or not; it is
    added only if the store held no record for the pair and the owners
    differ; the duplicate check, if it got through, asked for the ids of
    the pair. *)
Definition turn_writes (W : Writer) (t : ItemType) (newItem : Item) (m : Match)
    (st st' : Store) : Prop :=
  items st' = items st
  /\ exists (b : bool) (ns : list Notification),
       notifications st' = notifications st ++ ns
       /\ matches st' = matches st
                        ++ (if b then [record_for W t newItem m] else [])
       /\ (b = true -> fresh t newItem st m = true
                       /\ other_owner t newItem m = true)
       /\ incl ns (notifications_for W t newItem m)
       /\ (queries st' = queries st
           \/ queries st' = queries st ++ [pair_ids t newItem m]).

(** What a pass over the candidates [ms] may have written when it ends,
    with a count or with a rejection: the documents of [items] are
    untouched; notifications of candidates were added; match records were
    added for some candidates [kept], each at most once, and only for
    candidates that had no record and whose owner is another user; the
    duplicate checks asked for the ids of candidates. *)
Definition pass_writes (W : Writer) (t : ItemType) (newItem : Item)
    (ms : list Match) (st st' : Store) : Prop :=
  items st' = items st
  /\ exists (kept : list Match) (ns : list Notification),
       notifications st' = notifications st ++ ns
       /\ matches st' = matches st ++ map (record_for W t newItem) kept
       /\ (forall m, In m kept ->
             In m ms /\ fresh t newItem st m = true
             /\ other_owner t newItem m = true)
       /\ NoDup (candidate_ids kept)
       /\ (forall n, In n ns ->
             exists m, In m ms /\ In n (notifications_for W t newItem m))
       /\ exists checked, queries st' = queries st ++ map (pair_ids t newItem) checked
                          /\ incl checked ms.

(** Nothing was written. *)
Definition same_documents (st st' : Store) : Prop :=
  items st' = items st /\ notifications st' = notifications st
  /\ matches st' = matches st.

(** The best match of the lost bag in the sample store. *)
Definition sample_top_match : Match :=
  hd {| m_item := lost_bag; m_score := 0; m_details := sample_details |}
     (client_ranked sample_now lost_bag sample_store).

(** The sample store when its third request is rejected. *)
Definition faulty_store : Store := set_faults [false; false; true] sample_store.

(** ** Notions for two readings of the clock *)

(** The expiry test of the match finders at the time [now]. *)
Definition expired (now : Z) (d : Item) : bool :=
  expiresAt_truthy d && expiresAt_lt d now.

(** No document of the store expires between the two readings [now1] and
    [now2] of the clock. *)
Definition same_expiry (now1 now2 : Z) (st : Store) : Prop :=
  forall d, In d (items st) -> expired now2 d = expired now1 d.

(** ** Notions for the orientation of pairs *)

(** [a] is the id of an item of type [ty]: the new item or a document of
    the store. *)
Definition id_of_type (ty : ItemType) (newItem : Item) (st : Store) (a : string)
  : Prop :=
  exists d, (d = newItem \/ In d (items st)) /\ item_type d = ty /\ item_id d = a.

(** The first id is the id of a lost item and the second the id of a found
    item. *)
Definition oriented (newItem : Item) (st : Store) (p : string * string) : Prop :=
  id_of_type lost newItem st (fst p) /\ id_of_type found newItem st (snd p).

(** Everything a pass added to the store carries an oriented pair of ids. *)
Definition adds_oriented (newItem : Item) (st st' : Store) : Prop :=
  exists rs qs ns,
    matches st' = matches st ++ rs
    /\ queries st' = queries st ++ qs
    /\ notifications st' = notifications st ++ ns
    /\ Forall (fun r => oriented newItem st (lostItemId r, foundItemId r)) rs
    /\ Forall (oriented newItem st) qs
    /\ Forall (fun n => oriented newItem st (n_lostItemId n, n_foundItemId n)) ns.

(** ** Notions for the two entry points *)

(** The cached enrichment of every document of the store is the derived
    one. *)
Definition docs_well_formed (st : Store) : Prop :=
  forall d, In d (items st) -> well_formed d.

(** The candidate and the score of a match. *)
Definition choice (m : Match) : Item * Z := (m_item m, m_score m).

(** Two lists of matches hold the same candidates with the same scores, in
    the same order. *)
Definition same_choice (ms1 ms2 : list Match) : Prop :=
  map choice ms1 = map choice ms2.

(** ** Notions for the signals of a score *)

(** At least two of the three signals of a breakdown are there: the
    category, the location, a shared keyword. *)
Definition two_signals (d : MatchDetails) : bool :=
  (md_category d && md_location d)
  || (md_category d && (0 <? keywordOverlap d)%nat)
  || (md_location d && (0 <? keywordOverlap d)%nat).

(** The scores of shared keywords alone, for [i] shared keywords out of [u],
    stay under the threshold. *)
Definition keyword_row_low (u : nat) : bool :=
  forallb (fun i => (u <? i)%nat
                    || (clamp_round (score_sum false None true i u) <? 50)%Z)
          (seq 1 20).

(** What the breakdown of a result says about its score: a score at the
    threshold or above has at least two signals; the category alone gives
    40, the location alone 30, 21 or 15 by its tier, and no signal gives 0. *)
Definition signal_scores (r : ScoreResult) : Prop :=
  ((50 <= score r)%Z -> two_signals (matchDetails r) = true)
  /\ (md_category (matchDetails r) = true -> md_location (matchDetails r) = false ->
      keywordOverlap (matchDetails r) = 0 -> score r = 40%Z)
  /\ (md_category (matchDetails r) = false -> md_location (matchDetails r) = true ->
      keywordOverlap (matchDetails r) = 0 ->
      score r = 30%Z \/ score r = 21%Z \/ score r = 15%Z)
  /\ (md_category (matchDetails r) = false -> md_location (matchDetails r) = false ->
      keywordOverlap (matchDetails r) = 0 -> score r = 0%Z).

(** ** Notions for the soft invariant of the match records *)

(** From [st] to [st'] the records of the pair [(l, f)] are kept, and at most
    one is added, none if the pair had a record. *)
Definition at_most_one_more (l f : string) (st st' : Store) : Prop :=
  count_records l f st <= count_records l f st'
  /\ count_records l f st'
     <= count_records l f st + (if has_record l f st then 0 else 1).
(** ** Facts about strings and Sets *)

Section StringFacts.

Variable p : ascii -> bool.

Lemma str_filter_forall (s : string) : str_forall p (JS.str_filter p s) = true.
Proof.
  induction s as [|c s IH]; simpl; [reflexivity|].
  destruct (p c) eqn:Hc; simpl; [rewrite Hc|]; assumption.
Qed.

Lemma split_ws_not_nil (s : string) : JS.split_ws s <> [].
Proof.
  induction s as [|c s IH]; simpl; [discriminate|].
  destruct (JS.is_space c).
  - destruct (JS.starts_with_space s); [assumption|discriminate].
  - destruct (JS.split_ws s); discriminate.
Qed.

Lemma split_ws_forall (s : string) :
  str_forall p s = true ->
  Forall (fun t => str_forall (fun c => p c && negb (JS.is_space c)) t = true)
         (JS.split_ws s).
Proof.
  induction s as [|c s IH]; simpl; intros H.
  - repeat constructor.
  - apply andb_true_iff in H as [Hc Hs]. specialize (IH Hs).
    destruct (JS.is_space c) eqn:Hsp.
    + destruct (JS.starts_with_space s); [assumption|].
      constructor; [reflexivity|assumption].
    + destruct (JS.split_ws s) as [|t ts].
      * repeat constructor. simpl. rewrite Hc, Hsp. reflexivity.
      * inversion IH; subst. constructor; [|assumption].
        simpl. rewrite Hc, Hsp. simpl. assumption.
Qed.

End StringFacts.

Lemma str_forall_impl (p q : ascii -> bool) (s : string) :
  (forall c, p c = true -> q c = true) ->
  str_forall p s = true -> str_forall q s = true.
Proof.
  intros Hpq. induction s as [|c s IH]; simpl; [reflexivity|].
  intros H. apply andb_true_iff in H as [Hc Hs].
  rewrite (Hpq _ Hc), (IH Hs). reflexivity.
Qed.

Lemma Forall_firstn {A : Type} (P : A -> Prop) (n : nat) (l : list A) :
  Forall P l -> Forall P (firstn n l).
Proof.
  intros H. revert n. induction H as [|x l Hx Hl IH]; intros [|n]; simpl;
    constructor; auto.
Qed.

Lemma Forall_filter_both {A : Type} (P : A -> Prop) (f : A -> bool) (l : list A) :
  Forall P l -> Forall (fun x => P x /\ f x = true) (filter f l).
Proof.
  induction 1 as [|x l Hx Hl IH]; simpl; [constructor|].
  destruct (f x) eqn:Hf; [constructor; auto|assumption].
Qed.

Lemma Set_has_In (s : list string) (k : string) :
  JS.Set_has s k = true <-> In k s.
Proof.
  unfold JS.Set_has. rewrite existsb_exists. split.
  - intros [x [Hx He]]. apply String.eqb_eq in He. subst. assumption.
  - intros H. exists k. split; [assumption|apply String.eqb_refl].
Qed.

Lemma Set_has_false (s : list string) (k : string) :
  JS.Set_has s k = false <-> ~ In k s.
Proof.
  rewrite <- Set_has_In. destruct (JS.Set_has s k); intuition congruence.
Qed.

Lemma fold_Set_add_In (l acc : list string) (k : string) :
  In k (fold_left JS.Set_add l acc) <-> In k acc \/ In k l.
Proof.
  revert acc. induction l as [|x l IH]; intros acc; simpl.
  - tauto.
  - rewrite IH. unfold JS.Set_add.
    destruct (JS.Set_has acc x) eqn:Hx.
    + apply Set_has_In in Hx. split; [tauto|].
      intros [H|[H|H]]; subst; auto.
    + rewrite in_app_iff. simpl. tauto.
Qed.

Lemma new_Set_In (l : list string) (k : string) :
  In k (JS.new_Set l) <-> In k l.
Proof.
  unfold JS.new_Set. rewrite fold_Set_add_In. simpl. tauto.
Qed.

Lemma fold_Set_add_NoDup (l acc : list string) :
  NoDup acc -> NoDup (fold_left JS.Set_add l acc).
Proof.
  revert acc. induction l as [|x l IH]; intros acc H; simpl; [assumption|].
  apply IH. unfold JS.Set_add. destruct (JS.Set_has acc x) eqn:Hx; [assumption|].
  apply Set_has_false in Hx.
  apply NoDup_app; [assumption | repeat constructor; auto |].
  intros y Hy [Hy'|[]]. subst. auto.
Qed.

Lemma new_Set_NoDup (l : list string) : NoDup (JS.new_Set l).
Proof. apply fold_Set_add_NoDup. constructor. Qed.

Lemma fold_Set_add_length (l acc : list string) :
  List.length acc <= List.length (fold_left JS.Set_add l acc)
  /\ List.length (fold_left JS.Set_add l acc) <= List.length acc + List.length l.
Proof.
  revert acc. induction l as [|x l IH]; intros acc; simpl; [lia|].
  destruct (IH (JS.Set_add acc x)) as [H1 H2]. unfold JS.Set_add in *.
  destruct (JS.Set_has acc x); [lia|].
  rewrite length_app in *. simpl in *. lia.
Qed.

Lemma new_Set_length (l : list string) :
  List.length (JS.new_Set l) <= List.length l.
Proof.
  destruct (fold_Set_add_length l []) as [_ H]. simpl in H. exact H.
Qed.

(** Adding elements that are all there already changes nothing. *)
Lemma fold_Set_add_absorb (l acc : list string) :
  (forall k, In k l -> In k acc) -> fold_left JS.Set_add l acc = acc.
Proof.
  induction l as [|x l IH]; intros H; simpl; [reflexivity|].
  unfold JS.Set_add at 2.
  assert (Hx : JS.Set_has acc x = true) by (apply Set_has_In, H; left; reflexivity).
  rewrite Hx. apply IH. intros k Hk. apply H. right. assumption.
Qed.

(** A duplicate-free array is the Set built from it. *)
Lemma fold_Set_add_fresh (l acc : list string) :
  NoDup (acc ++ l) -> fold_left JS.Set_add l acc = acc ++ l.
Proof.
  revert acc. induction l as [|x l IH]; intros acc H; simpl.
  - rewrite app_nil_r. reflexivity.
  - assert (Hx : JS.Set_has acc x = false).
    { apply Set_has_false. intros Hin. apply NoDup_remove_2 in H.
      apply H. apply in_or_app. left. assumption. }
    unfold JS.Set_add at 2. rewrite Hx.
    rewrite IH; rewrite <- app_assoc; simpl; [reflexivity|assumption].
Qed.

Lemma new_Set_idem (l : list string) : JS.new_Set (JS.new_Set l) = JS.new_Set l.
Proof.
  unfold JS.new_Set at 1. rewrite fold_Set_add_fresh; [reflexivity|].
  simpl. apply new_Set_NoDup.
Qed.

Lemma new_Set_self_union (s : list string) :
  NoDup s -> JS.new_Set (s ++ s) = s.
Proof.
  intros H. unfold JS.new_Set. rewrite fold_left_app.
  rewrite (fold_Set_add_fresh s []) by exact H. simpl.
  apply fold_Set_add_absorb. auto.
Qed.

Lemma filter_all {A : Type} (f : A -> bool) (l : list A) :
  (forall x, In x l -> f x = true) -> filter f l = l.
Proof.
  induction l as [|x l IH]; intros H; simpl; [reflexivity|].
  rewrite (H x (or_introl eq_refl)). f_equal. apply IH.
  intros y Hy. apply H. right. assumption.
Qed.

Lemma filter_length_le {A : Type} (f : A -> bool) (l : list A) :
  List.length (filter f l) <= List.length l.
Proof.
  induction l as [|x l IH]; simpl; [lia|]. destruct (f x); simpl; lia.
Qed.


(** ** The keyword extractor *)

Lemma extractKeywords_same : Dashboard.extractKeywords = Functions.extractKeywords.
Proof. reflexivity. Qed.

Lemma STOP_WORDS_has (w : string) :
  JS.Set_has Functions.STOP_WORDS w = false -> ~ In w stop_word_list.
Proof.
  intros H Hin. apply Set_has_false in H. apply H.
  exact (proj2 (new_Set_In stop_word_list w) Hin).
Qed.

Lemma extractKeywords_length (text : option string) :
  List.length (Functions.extractKeywords text) <= 20.
Proof.
  unfold Functions.extractKeywords, JS.slice0.
  destruct (negb (JS.truthy text)); [apply Nat.le_0_l|].
  apply firstn_le_length.
Qed.

Lemma kept_token_ok (t : string) :
  str_forall (fun c => (JS.is_lower c || JS.is_digit c || JS.is_space c)
                       && negb (JS.is_space c)) t = true ->
  (2 <? String.length t)%nat && negb (JS.Set_has Functions.STOP_WORDS t) = true ->
  keyword_ok t.
Proof.
  intros Hchars Hkeep.
  destruct (2 <? String.length t)%nat eqn:Hlen; [|discriminate].
  destruct (JS.Set_has Functions.STOP_WORDS t) eqn:Hstop; [discriminate|].
  split; [|split].
  - unfold alnum_token. eapply str_forall_impl; [|exact Hchars].
    intros c Hc. cbv beta in Hc.
    destruct (JS.is_space c); [rewrite andb_false_r in Hc; discriminate|].
    rewrite orb_false_r, andb_true_r in Hc. exact Hc.
  - apply Nat.ltb_lt. exact Hlen.
  - exact (STOP_WORDS_has t Hstop).
Qed.

Lemma extractKeywords_tokens (text : option string) :
  Forall keyword_ok (Functions.extractKeywords text).
Proof.
  unfold Functions.extractKeywords, JS.slice0.
  destruct (negb (JS.truthy text)); [constructor|].
  apply Forall_firstn.
  set (s := JS.toLowerCase (JS.interpolate text)).
  pose proof (split_ws_forall _ _ (str_filter_forall
    (fun c => JS.is_lower c || JS.is_digit c || JS.is_space c) s)) as Htok.
  apply (Forall_filter_both _
    (fun word => (2 <? String.length word)%nat
                 && negb (JS.Set_has Functions.STOP_WORDS word))) in Htok.
  eapply Forall_impl; [|exact Htok].
  intros t [Hchars Hkeep]. exact (kept_token_ok t Hchars Hkeep).
Qed.

(** C7. For every input text, absent and empty ones included, the keyword
    extractor of either file returns at most 20 tokens, each made of
    lower-case letters and digits only, longer than 2 characters and not a
    stop word; an absent or empty text gives no token at all. *)
Theorem C7_keyword_extractor (text : option string) :
  (List.length (Functions.extractKeywords text) <= 20
   /\ Forall keyword_ok (Functions.extractKeywords text))
  /\ (List.length (Dashboard.extractKeywords text) <= 20
      /\ Forall keyword_ok (Dashboard.extractKeywords text))
  /\ Functions.extractKeywords None = []
  /\ Functions.extractKeywords (Some "") = []
  /\ Dashboard.extractKeywords None = []
  /\ Dashboard.extractKeywords (Some "") = [].
Proof.
  rewrite extractKeywords_same.
  repeat split; try reflexivity;
    first [apply extractKeywords_length | apply extractKeywords_tokens].
Qed.

(** ** The two score calculators agree *)

Lemma server_score_signals (item1 item2 : Item) :
  Functions.calculateMatchScore item1 item2
  = score_of_signals (server_category item1 item2)
      (Functions.locationPoints (server_location item1) (server_location item2))
      ((0 <? List.length (JS.new_Set (server_keywords item1 ++ server_keywords item2)))%nat
       && (0 <? List.length (shared (server_keywords item1) (server_keywords item2)))%nat)
      (server_keywords item1) (server_keywords item2).
Proof. reflexivity. Qed.

Lemma client_score_signals (item1 item2 : Item) :
  Dashboard.calculateMatchScore item1 item2
  = score_of_signals (client_category item1 item2)
      (Functions.locationPoints (client_location item1) (client_location item2))
      (0 <? List.length (shared (client_keywords item1) (client_keywords item2)))%nat
      (client_keywords item1) (client_keywords item2).
Proof. reflexivity. Qed.

Lemma category_same (item1 item2 : Item) :
  server_category item1 item2 = client_category item1 item2.
Proof.
  unfold server_category, client_category.
  destruct (category item1) as [[|c s]|], (category item2) as [[|c' s']|];
    reflexivity.
Qed.

Lemma normalizeLocation_same (loc : option string) :
  Functions.normalizeLocation loc = Dashboard.normalizeLocation loc.
Proof.
  unfold Functions.normalizeLocation, Dashboard.normalizeLocation.
  destruct loc as [[|c s]|]; try reflexivity.
  cbn [JS.truthy negb JS.interpolate].
  destruct (JS.trim (JS.toLowerCase (String c s))); reflexivity.
Qed.

Lemma or_else_same (l : string) : Functions.or_else (Some l) l = l.
Proof. destruct l; reflexivity. Qed.

Lemma server_location_wf (i : Item) :
  well_formed i -> server_location i = client_location i.
Proof.
  intros [_ H]. unfold server_location, client_location.
  rewrite <- normalizeLocation_same.
  destruct (normalizedLocation i) as [l|]; [|reflexivity].
  rewrite <- H. apply or_else_same.
Qed.

Lemma server_keywords_wf (i : Item) :
  well_formed i -> server_keywords i = client_keywords i.
Proof.
  intros [H _]. unfold server_keywords, client_keywords.
  destruct (keywords i) as [k|]; [rewrite H|]; reflexivity.
Qed.

Lemma shared_In (kw1 kw2 : list string) (k : string) :
  In k (shared kw1 kw2) <-> In k kw1 /\ In k kw2.
Proof.
  unfold shared. rewrite filter_In, Set_has_In. tauto.
Qed.

(** A shared keyword makes the union non-empty. *)
Lemma shared_union_pos (kw1 kw2 : list string) :
  (0 <? List.length (shared kw1 kw2))%nat = true ->
  (0 <? List.length (JS.new_Set (kw1 ++ kw2)))%nat = true.
Proof.
  intros H. destruct (shared kw1 kw2) as [|k rest] eqn:E; [discriminate|].
  assert (Hk : In k (JS.new_Set (kw1 ++ kw2))).
  { apply new_Set_In, in_or_app. left.
    apply (proj1 (shared_In kw1 kw2 k)). rewrite E. left. reflexivity. }
  destruct (JS.new_Set (kw1 ++ kw2)); [destruct Hk|reflexivity].
Qed.

Lemma overlap_same (kw1 kw2 : list string) :
  ((0 <? List.length (JS.new_Set (kw1 ++ kw2)))%nat
   && (0 <? List.length (shared kw1 kw2))%nat)
  = (0 <? List.length (shared kw1 kw2))%nat.
Proof.
  destruct (0 <? List.length (shared kw1 kw2))%nat eqn:H.
  - rewrite (shared_union_pos _ _ H). reflexivity.
  - apply andb_false_r.
Qed.

(** On items whose cached enrichment is the derived one, the calculator of
    the Cloud Functions and the one of the dashboard return the same
    result. *)
Lemma calculators_agree (item1 item2 : Item) :
  well_formed item1 -> well_formed item2 ->
  Functions.calculateMatchScore item1 item2
  = Dashboard.calculateMatchScore item1 item2.
Proof.
  intros H1 H2. rewrite server_score_signals, client_score_signals.
  rewrite category_same, overlap_same.
  rewrite !server_location_wf, !server_keywords_wf by assumption.
  reflexivity.
Qed.

Lemma no_cache_well_formed (i : Item) :
  keywords i = None -> normalizedLocation i = None -> well_formed i.
Proof. intros Hk Hl. unfold well_formed. rewrite Hk, Hl. split; exact I. Qed.

(** C10. For every two items that carry no cached enrichment (neither
    [keywords] nor [normalizedLocation]), the score calculator of
    [functions/index.js] and the one of [dashboard.js] return the same
    score and the same break-down: category flag, location flag, number of
    shared keywords and list of matched keywords. *)
Theorem C10_calculators_agree (item1 item2 : Item) :
  keywords item1 = None -> normalizedLocation item1 = None ->
  keywords item2 = None -> normalizedLocation item2 = None ->
  Functions.calculateMatchScore item1 item2
  = Dashboard.calculateMatchScore item1 item2.
Proof.
  intros K1 L1 K2 L2.
  apply calculators_agree; apply no_cache_well_formed; assumption.
Qed.

Lemma C10_witness :
  keywords lost_bag = None /\ normalizedLocation lost_bag = None
  /\ keywords found_bag = None /\ normalizedLocation found_bag = None
  /\ Functions.calculateMatchScore lost_bag found_bag
     = Dashboard.calculateMatchScore lost_bag found_bag.
Proof.
  refine (conj eq_refl (conj eq_refl (conj eq_refl (conj eq_refl _)))).
  apply (C10_calculators_agree lost_bag found_bag); reflexivity.
Defined.

(** ** The range of the score *)


Lemma identical_table_checked : identical_table_ok = true.
Proof. vm_compute. reflexivity. Qed.

Lemma forallb_at {A : Type} (f : A -> bool) (l : list A) (x : A) :
  forallb f l = true -> In x l -> f x = true.
Proof. intros H Hx. exact (proj1 (forallb_forall f l) H x Hx). Qed.



Lemma locationPoints_tier (loc1 loc2 : string) :
  In (Functions.locationPoints loc1 loc2) location_tiers.
Proof.
  unfold Functions.locationPoints, location_tiers.
  change (Functions.w_location Functions.WEIGHTS) with (JS.num 30).
  destruct (JS.str_truthy loc1 && JS.str_truthy loc2); [|left; reflexivity].
  destruct (String.eqb loc1 loc2); [right; left; reflexivity|].
  destruct (JS.includes loc1 loc2 || JS.includes loc2 loc1);
    [right; right; left; reflexivity|].
  match goal with |- In (if ?b then _ else _) _ => destruct b end;
    [right; right; right; left; reflexivity | left; reflexivity].
Qed.

Lemma client_keywords_length (i : Item) : List.length (client_keywords i) <= 20.
Proof.
  unfold client_keywords.
  pose proof (new_Set_length (Functions.extractKeywords (Some (item_text i)))).
  pose proof (extractKeywords_length (Some (item_text i))). lia.
Qed.

Lemma shared_length (kw1 kw2 : list string) :
  List.length (shared kw1 kw2) <= List.length kw1.
Proof. apply filter_length_le. Qed.

Lemma union_length (kw1 kw2 : list string) :
  List.length (JS.new_Set (kw1 ++ kw2)) <= List.length kw1 + List.length kw2.
Proof.
  pose proof (new_Set_length (kw1 ++ kw2)) as H. rewrite length_app in H. exact H.
Qed.







(** ** Items that agree on text, category and location *)

Lemma locationPoints_equal (l : string) :
  l <> "" -> Functions.locationPoints l l = Some (JS.num 30).
Proof.
  intros H. unfold Functions.locationPoints.
  destruct l as [|c s]; [contradiction|].
  cbn [JS.str_truthy andb]. rewrite String.eqb_refl. reflexivity.
Qed.

Lemma shared_self (s : list string) : shared s s = s.
Proof.
  unfold shared. apply filter_all. intros k Hk. apply Set_has_In. exact Hk.
Qed.

Lemma client_score_identical (item1 item2 : Item) :
  title item1 = title item2 -> description item1 = description item2 ->
  category item1 = category item2 -> JS.truthy (category item1) = true ->
  location item1 = location item2 ->
  Functions.normalizeLocation (location item1) <> "" ->
  Functions.extractKeywords (Some (item_text item1)) <> [] ->
  score (Dashboard.calculateMatchScore item1 item2) = 100%Z.
Proof.
  intros Ht Hd Hc Hcat Hl Hloc Hkw.
  rewrite client_score_signals.
  unfold client_category, client_location, client_keywords, item_text.
  rewrite <- Ht, <- Hd, <- Hc, <- Hl, Hcat.
  fold (item_text item1).
  rewrite <- normalizeLocation_same, (locationPoints_equal _ Hloc).
  set (K := JS.new_Set (Functions.extractKeywords (Some (item_text item1)))).
  assert (HK : NoDup K) by apply new_Set_NoDup.
  unfold score_of_signals; cbn [score].
  fold (shared K K). rewrite shared_self, (new_Set_self_union K HK).
  assert (Hn : 1 <= List.length K <= 20).
  { split; [|apply (client_keywords_length item1)].
    destruct (Functions.extractKeywords (Some (item_text item1))) as [|k ks] eqn:E;
      [contradiction|].
    assert (In k K) by (apply new_Set_In; left; reflexivity).
    destruct K; [contradiction|simpl; lia]. }
  assert (Hs : JS.strict_eq (category item1) (category item1) = true).
  { destruct (category item1) as [c|]; [apply String.eqb_refl|reflexivity]. }
  rewrite Hs.
  replace (0 <? List.length K)%nat with true
    by (symmetry; apply Nat.ltb_lt; lia).
  pose proof identical_table_checked as T. unfold identical_table_ok in T.
  rewrite forallb_forall in T.
  apply Z.eqb_eq. apply (T (List.length K)). apply in_seq. lia.
Qed.

(** C6, as the code has it.  Two well-formed items with the same title and
    description, the same non-empty category and the same location score
    exactly 100 when, in addition, the location is not empty once normalised
    and the text gives at least one keyword. *)
Theorem C6_identical_items (item1 item2 : Item) :
  well_formed item1 -> well_formed item2 ->
  title item1 = title item2 -> description item1 = description item2 ->
  category item1 = category item2 -> JS.truthy (category item1) = true ->
  location item1 = location item2 ->
  Functions.normalizeLocation (location item1) <> "" ->
  Functions.extractKeywords (Some (item_text item1)) <> [] ->
  score (Functions.calculateMatchScore item1 item2) = 100%Z
  /\ score (Dashboard.calculateMatchScore item1 item2) = 100%Z.
Proof.
  intros W1 W2 Ht Hd Hc Hcat Hl Hloc Hkw.
  rewrite (calculators_agree item1 item2 W1 W2).
  split; apply client_score_identical; assumption.
Qed.

Lemma C6_witness :
  score (Functions.calculateMatchScore lost_bag found_bag_same_place) = 100%Z
  /\ score (Dashboard.calculateMatchScore lost_bag found_bag_same_place) = 100%Z.
Proof.
  apply (C6_identical_items lost_bag found_bag_same_place).
  - split; exact I.
  - split; exact I.
  - reflexivity.
  - reflexivity.
  - reflexivity.
  - reflexivity.
  - reflexivity.
  - vm_compute. discriminate.
  - vm_compute. discriminate.
Defined.

(** The claim fails without either addition.  The two identity cards agree
    on title, description, non-empty category and location, and score 70:
    their text holds no keyword.  The two bags without a location agree on
    all four as well, and score 77: an empty location earns no point. *)
Lemma C6_counterexample :
  (title lost_card = title found_card
   /\ description lost_card = description found_card
   /\ category lost_card = category found_card
   /\ JS.truthy (category lost_card) = true
   /\ location lost_card = location found_card
   /\ score (Functions.calculateMatchScore lost_card found_card) = 70%Z
   /\ score (Dashboard.calculateMatchScore lost_card found_card) = 70%Z)
  /\ (title lost_bag_nowhere = title found_bag_nowhere
      /\ description lost_bag_nowhere = description found_bag_nowhere
      /\ category lost_bag_nowhere = category found_bag_nowhere
      /\ JS.truthy (category lost_bag_nowhere) = true
      /\ location lost_bag_nowhere = location found_bag_nowhere
      /\ score (Functions.calculateMatchScore lost_bag_nowhere found_bag_nowhere) = 77%Z
      /\ score (Dashboard.calculateMatchScore lost_bag_nowhere found_bag_nowhere) = 77%Z).
Proof. vm_compute. repeat split. Qed.

(** ** The stable sort *)

Section SortFacts.

Context {A : Type} (key : A -> Z).

Lemma insert_desc_perm (x : A) (l : list A) :
  Permutation (JS.insert_desc key x l) (x :: l).
Proof.
  induction l as [|y l IH]; simpl; [reflexivity|].
  destruct (key y <=? key x)%Z; [reflexivity|].
  rewrite IH. apply perm_swap.
Qed.

Lemma sort_desc_perm (l : list A) : Permutation (JS.sort_desc key l) l.
Proof.
  induction l as [|x l IH]; simpl; [reflexivity|].
  rewrite insert_desc_perm, IH. reflexivity.
Qed.

Lemma insert_desc_sorted (x : A) (l : list A) :
  StronglySorted (fun a b => (key b <= key a)%Z) l ->
  StronglySorted (fun a b => (key b <= key a)%Z) (JS.insert_desc key x l).
Proof.
  induction 1 as [|y l Hl IH Hy]; simpl.
  - repeat constructor.
  - destruct (key y <=? key x)%Z eqn:E.
    + apply Z.leb_le in E. constructor; [constructor; assumption|].
      constructor; [assumption|].
      eapply Forall_impl; [|exact Hy]. intros b Hb. cbv beta in Hb. lia.
    + apply Z.leb_gt in E. constructor; [assumption|].
      eapply Permutation_Forall; [symmetry; apply insert_desc_perm|].
      constructor; [lia|assumption].
Qed.

Lemma sort_desc_sorted (l : list A) :
  StronglySorted (fun a b => (key b <= key a)%Z) (JS.sort_desc key l).
Proof.
  induction l as [|x l IH]; simpl; [constructor|].
  apply insert_desc_sorted, IH.
Qed.

(** Stability: the elements of one key keep their order. *)
Lemma insert_desc_stable (s : Z) (x : A) (l : list A) :
  filter (fun a => (key a =? s)%Z) (JS.insert_desc key x l)
  = filter (fun a => (key a =? s)%Z) (x :: l).
Proof.
  induction l as [|y l IH]; [reflexivity|].
  cbn [JS.insert_desc]. destruct (key y <=? key x)%Z eqn:E; [reflexivity|].
  apply Z.leb_gt in E.
  cbn [filter] in *. rewrite IH.
  destruct (key x =? s)%Z eqn:Ex, (key y =? s)%Z eqn:Ey; try reflexivity.
  apply Z.eqb_eq in Ex, Ey. lia.
Qed.

Lemma sort_desc_stable (s : Z) (l : list A) :
  filter (fun a => (key a =? s)%Z) (JS.sort_desc key l)
  = filter (fun a => (key a =? s)%Z) l.
Proof.
  induction l as [|x l IH]; [reflexivity|].
  cbn [JS.sort_desc]. rewrite insert_desc_stable. cbn [filter].
  rewrite IH. reflexivity.
Qed.

End SortFacts.

Lemma StronglySorted_firstn {A : Type} (R : A -> A -> Prop) (n : nat) (l : list A) :
  StronglySorted R l -> StronglySorted R (firstn n l).
Proof.
  intros H. revert n. induction H as [|x l Hl IH Hx]; intros [|n]; simpl;
    try constructor; auto.
  apply Forall_firstn. assumption.
Qed.

Lemma filter_firstn_prefix {A : Type} (f : A -> bool) (n : nat) (l : list A) :
  exists rest, filter f l = filter f (firstn n l) ++ rest.
Proof.
  exists (filter f (skipn n l)).
  rewrite <- filter_app, firstn_skipn. reflexivity.
Qed.

Lemma filter_filter {A : Type} (f g : A -> bool) (l : list A) :
  filter f (filter g l) = filter (fun x => g x && f x) l.
Proof.
  induction l as [|x l IH]; simpl; [reflexivity|].
  destruct (g x); simpl; [destruct (f x)|]; rewrite IH; reflexivity.
Qed.

Lemma filter_map_comm {A B : Type} (f : B -> bool) (g : A -> B) (l : list A) :
  filter f (map g l) = map g (filter (fun x => f (g x)) l).
Proof.
  induction l as [|x l IH]; simpl; [reflexivity|].
  destruct (f (g x)); simpl; rewrite IH; reflexivity.
Qed.

(** ** The match finder *)

Lemma eligible_live (now : Z) (scoreOf : Item -> Z) (d : Item) :
  eligible now scoreOf d = true -> (50 <= scoreOf d)%Z /\ live now d.
Proof.
  unfold eligible, live, expiresAt_truthy, expiresAt_lt.
  intros H. apply andb_true_iff in H as [Hexp Hscore].
  split; [apply Z.leb_le; assumption|].
  intros e He Hne. rewrite He in Hexp.
  destruct (Z.eqb_spec e 0); [contradiction|].
  destruct (Z.ltb_spec e now); [discriminate|assumption].
Qed.

Lemma top_of_candidates_ranked (now : Z) (calc : Item -> ScoreResult)
    (docs : list Item) :
  ranked now (fun d => score (calc d)) docs
    (JS.slice0 3 (JS.sort_desc m_score (candidates now calc docs))).
Proof.
  unfold ranked, JS.slice0.
  set (cands := candidates now calc docs).
  assert (Hc : Forall (fun m => m_score m = score (calc (m_item m))
                                /\ (50 <= m_score m)%Z
                                /\ live now (m_item m)) cands).
  { unfold cands, candidates. apply Forall_forall. intros m Hm.
    apply in_map_iff in Hm as [d [<- Hd]]. apply filter_In in Hd as [_ Hd].
    apply eligible_live in Hd as [H1 H2]. cbn. auto. }
  repeat split.
  - apply firstn_le_length.
  - apply Forall_firstn.
    eapply Permutation_Forall; [symmetry; apply sort_desc_perm|exact Hc].
  - apply StronglySorted_firstn, sort_desc_sorted.
  - intros s.
    destruct (filter_firstn_prefix (with_score s) 3 (JS.sort_desc m_score cands))
      as [rest Hrest].
    exists (map m_item rest). rewrite <- map_app, <- Hrest.
    unfold with_score. rewrite sort_desc_stable.
    unfold cands, candidates. rewrite filter_map_comm, map_map, filter_filter.
    cbn [m_item m_score]. rewrite map_id. reflexivity.
Qed.

Lemma scanFoundItems_candidates (now : Z) (newItem : Item) (docs : list Item) :
  Functions.scanFoundItems now newItem docs
  = candidates now (Functions.calculateMatchScore newItem) docs.
Proof.
  unfold candidates, eligible. induction docs as [|d docs IH]; [reflexivity|].
  cbn [Functions.scanFoundItems filter].
  change Functions.MATCH_THRESHOLD with 50%Z.
  destruct (expiresAt_truthy d && expiresAt_lt d now); cbn [negb andb];
    [exact IH|].
  destruct (50 <=? score (Functions.calculateMatchScore newItem d))%Z;
    cbn [map]; rewrite IH; reflexivity.
Qed.

Lemma scanLostItems_candidates (now : Z) (newItem : Item) (docs : list Item) :
  Functions.scanLostItems now newItem docs
  = candidates now (fun d => Functions.calculateMatchScore d newItem) docs.
Proof.
  unfold candidates, eligible. induction docs as [|d docs IH]; [reflexivity|].
  cbn [Functions.scanLostItems filter].
  change Functions.MATCH_THRESHOLD with 50%Z.
  destruct (expiresAt_truthy d && expiresAt_lt d now); cbn [negb andb];
    [exact IH|].
  destruct (50 <=? score (Functions.calculateMatchScore d newItem))%Z;
    cbn [map]; rewrite IH; reflexivity.
Qed.

Lemma not_expired_same (now : Z) (d : Item) :
  negb (expiresAt_truthy d) || expiresAt_ge d now
  = negb (expiresAt_truthy d && expiresAt_lt d now).
Proof.
  unfold expiresAt_truthy, expiresAt_ge, expiresAt_lt.
  destruct (expiresAt d) as [e|]; [|reflexivity].
  destruct (e =? 0)%Z; cbn [negb orb andb]; [reflexivity|].
  rewrite Z.leb_antisym. reflexivity.
Qed.

Lemma rankedMatches_candidates (now : Z) (newItem : Item) (docs : list Item) :
  Dashboard.rankedMatches now newItem docs
  = JS.slice0 3 (JS.sort_desc m_score
                   (candidates now (Dashboard.calculateMatchScore newItem) docs)).
Proof.
  unfold Dashboard.rankedMatches, candidates. do 2 f_equal.
  rewrite filter_map_comm. f_equal. apply filter_ext. intros d.
  cbn [m_score m_item]. unfold eligible.
  change Dashboard.MATCH_THRESHOLD with 50%Z.
  rewrite not_expired_same. apply andb_comm.
Qed.

(** C5, as the code has it.  For every new item, every pool and every time
    of invocation, the output of each of the three match finders (the two
    creation triggers and [findMatches]) has at most three entries, none
    scoring below 50 and none whose [expiresAt] is present, different from 0
    and before the time of invocation; it is sorted by descending score,
    and entries of equal score come in the order of retrieval. *)
Theorem C5_match_finder (now : Z) (newItem : Item) (docs : list Item) :
  ranked now (fun d => score (Functions.calculateMatchScore newItem d)) docs
    (Functions.top3 (Functions.scanFoundItems now newItem docs))
  /\ ranked now (fun d => score (Functions.calculateMatchScore d newItem)) docs
       (Functions.top3 (Functions.scanLostItems now newItem docs))
  /\ ranked now (fun d => score (Dashboard.calculateMatchScore newItem d)) docs
       (Dashboard.rankedMatches now newItem docs).
Proof.
  unfold Functions.top3.
  rewrite scanFoundItems_candidates, scanLostItems_candidates,
    rankedMatches_candidates.
  split; [|split].
  - apply (top_of_candidates_ranked now (Functions.calculateMatchScore newItem)).
  - apply (top_of_candidates_ranked now
             (fun d => Functions.calculateMatchScore d newItem)).
  - apply (top_of_candidates_ranked now (Dashboard.calculateMatchScore newItem)).
Qed.

(** The claim fails at an [expiresAt] of 0, which the test
    [item.expiresAt && item.expiresAt < now] takes for absent: the found bag
    expired at time 0, long before the invocation, and is returned by the
    trigger and by [findMatches] alike. *)
Lemma C5_counterexample :
  expiresAt found_bag_epoch = Some 0%Z
  /\ (0 < sample_now)%Z
  /\ map m_item (Functions.top3
                   (Functions.scanFoundItems sample_now lost_bag [found_bag_epoch]))
     = [found_bag_epoch]
  /\ map m_item (Dashboard.rankedMatches sample_now lost_bag [found_bag_epoch])
     = [found_bag_epoch].
Proof. vm_compute. repeat split. Qed.

(** ** Requests to a store without faults *)

Lemma bind_ok {A B : Type} (c : Async A) (k : A -> Async B) (st st' : Store) (a : A) :
  c st = (Ok a, st') -> bind c k st = k a st'.
Proof. intros H. unfold bind. rewrite H. reflexivity. Qed.

Lemma bind_throw {A B : Type} (c : Async A) (k : A -> Async B) (st st' : Store)
    (e : Error) :
  c st = (Throw e, st') -> bind c k st = (Throw e, st').
Proof. intros H. unfold bind. rewrite H. reflexivity. Qed.

Lemma request_quiet (st : Store) : quiet st -> request st = (Ok tt, st).
Proof. unfold quiet, request. intros ->. reflexivity. Qed.

Lemma match_query_quiet (l f : string) (st : Store) :
  quiet st ->
  match_query_nonempty l f st = (Ok (has_record l f st), log_query l f st).
Proof.
  intros Q. unfold match_query_nonempty.
  rewrite (bind_ok _ _ _ _ _ (request_quiet st Q)). reflexivity.
Qed.

Lemma add_notification_quiet (n : Notification) (st : Store) :
  quiet st -> add_notification n st = (Ok tt, push_notification n st).
Proof.
  intros Q. unfold add_notification.
  rewrite (bind_ok _ _ _ _ _ (request_quiet st Q)). reflexivity.
Qed.

Lemma add_match_quiet (r : MatchRecord) (st : Store) :
  quiet st -> add_match r st = (Ok tt, push_match r st).
Proof.
  intros Q. unfold add_match.
  rewrite (bind_ok _ _ _ _ _ (request_quiet st Q)). reflexivity.
Qed.

Lemma open_items_quiet (t : ItemType) (st : Store) :
  quiet st ->
  open_items_of_type t st
  = (Ok (filter (fun i => ItemType_eqb (item_type i) t && Status_eqb (status i) open)
            (items st)), st).
Proof.
  intros Q. unfold open_items_of_type.
  rewrite (bind_ok _ _ _ _ _ (request_quiet st Q)). reflexivity.
Qed.

(** ** The two notification writers *)

Lemma createNotification_same_owner (l f : Item) (s : Z) (d : MatchDetails)
    (st : Store) :
  uid l = uid f -> Functions.createNotification l f s d st = (Ok None, st).
Proof.
  intros H. unfold Functions.createNotification.
  rewrite H, String.eqb_refl. reflexivity.
Qed.

Lemma createMatchNotification_same_owner (l f : Item) (s : Z) (d : MatchDetails)
    (st : Store) :
  uid l = uid f -> Dashboard.createMatchNotification l f s d st = (Ok None, st).
Proof.
  intros H. unfold Dashboard.createMatchNotification.
  rewrite H, String.eqb_refl. reflexivity.
Qed.

Lemma createNotification_quiet (l f : Item) (s : Z) (d : MatchDetails) (st : Store) :
  quiet st -> String.eqb (uid l) (uid f) = false ->
  Functions.createNotification l f s d st
  = (Ok (Some (Functions.notification l f s d)),
     push_match (Functions.matchRecord l f s d)
       (push_notification (Functions.notification l f s d) st)).
Proof.
  intros Q H. unfold Functions.createNotification. rewrite H.
  rewrite (bind_ok _ _ _ _ _ (add_notification_quiet _ st Q)); cbv beta.
  rewrite (bind_ok _ _ _ _ _ (add_match_quiet _ (push_notification _ st) Q)).
  reflexivity.
Qed.

Lemma createMatchNotification_quiet (l f : Item) (s : Z) (d : MatchDetails)
    (st : Store) :
  quiet st -> String.eqb (uid l) (uid f) = false ->
  Dashboard.createMatchNotification l f s d st
  = (Ok (Some (Dashboard.lostNotif l f s d, Dashboard.foundNotif l f s d)),
     push_match (Dashboard.matchRecord l f s d)
       (push_notification (Dashboard.foundNotif l f s d)
          (push_notification (Dashboard.lostNotif l f s d) st))).
Proof.
  intros Q H. unfold Dashboard.createMatchNotification. rewrite H.
  rewrite (bind_ok _ _ _ _ _ (add_notification_quiet _ st Q)); cbv beta.
  rewrite (bind_ok _ _ _ _ _
             (add_notification_quiet _ (push_notification _ st) Q)); cbv beta.
  rewrite (bind_ok _ _ _ _ _
             (add_match_quiet _ (push_notification _ (push_notification _ st)) Q)).
  reflexivity.
Qed.

(** C1, as the code has it.  On a store without faults and for owners that
    differ, the writer of the dashboard creates exactly two notifications,
    the first addressed to the owner of the lost item and the second to the
    owner of the found item, and exactly one match record; the writer of the
    Cloud Functions creates exactly one notification, addressed to the owner
    of the lost item, and exactly one match record.  When the two owners are
    the same user neither writer creates anything, whatever the score. *)
Theorem C1_dispatcher (lostItem foundItem : Item) (score : Z)
    (details : MatchDetails) (st : Store) :
  quiet st ->
  (uid lostItem <> uid foundItem ->
   (exists n1 n2 r st',
      Dashboard.createMatchNotification lostItem foundItem score details st
      = (Ok (Some (n1, n2)), st')
      /\ adds st st' [n1; n2] [r]
      /\ userId n1 = uid lostItem /\ userId n2 = uid foundItem
      /\ lostItemId r = item_id lostItem /\ foundItemId r = item_id foundItem)
   /\ (exists n r st',
         Functions.createNotification lostItem foundItem score details st
         = (Ok (Some n), st')
         /\ adds st st' [n] [r]
         /\ userId n = uid lostItem
         /\ lostItemId r = item_id lostItem /\ foundItemId r = item_id foundItem))
  /\ (uid lostItem = uid foundItem ->
      Dashboard.createMatchNotification lostItem foundItem score details st
      = (Ok None, st)
      /\ Functions.createNotification lostItem foundItem score details st
         = (Ok None, st)).
Proof.
  intros Q. split.
  - intros Hne. apply String.eqb_neq in Hne. split.
    + eexists _, _, _, _. split.
      * apply createMatchNotification_quiet; assumption.
      * unfold adds. cbn. rewrite <- app_assoc. repeat split.
    + eexists _, _, _. split.
      * apply createNotification_quiet; assumption.
      * unfold adds. cbn. repeat split.
  - intros He. split.
    + apply createMatchNotification_same_owner. assumption.
    + apply createNotification_same_owner. assumption.
Qed.

Lemma C1_witness :
  quiet sample_store
  /\ exists n r st',
       Functions.createNotification lost_bag found_bag 98 sample_details sample_store
       = (Ok (Some n), st')
       /\ adds sample_store st' [n] [r]
       /\ userId n = uid lost_bag
       /\ lostItemId r = item_id lost_bag /\ foundItemId r = item_id found_bag.
Proof.
  split; [reflexivity|].
  destruct (C1_dispatcher lost_bag found_bag 98 sample_details sample_store eq_refl)
    as [H _].
  apply H. discriminate.
Defined.

(** The claim fails on the Cloud Functions: for the two bags, whose owners
    differ, [createNotification] leaves one notification, not two. *)
Lemma C1_counterexample :
  uid lost_bag <> uid found_bag
  /\ List.length
       (notifications
          (snd (Functions.createNotification lost_bag found_bag 98 sample_details
                  sample_store))) = 1
  /\ List.length
       (matches
          (snd (Functions.createNotification lost_bag found_bag 98 sample_details
                  sample_store))) = 1.
Proof. split; [discriminate|]. vm_compute. split; reflexivity. Qed.

(** ** The loop over the top matches, on a store without faults *)

Lemma store_eta (st : Store) :
  st = {| items := items st; notifications := notifications st;
          matches := matches st; queries := queries st; faults := faults st |}.
Proof. destruct st. reflexivity. Qed.

Lemma server_writer_ok : writer_ok server_writer.
Proof. intros l f s d. cbn. repeat constructor. Qed.

Lemma client_writer_ok : writer_ok client_writer.
Proof. intros l f s d. cbn. repeat constructor. Qed.

Lemma push_all_fields (ns : list Notification) (st : Store) :
  push_all ns st
  = {| items := items st; notifications := notifications st ++ ns;
       matches := matches st; queries := queries st; faults := faults st |}.
Proof.
  revert st. induction ns as [|n ns IH]; intros st; simpl.
  - rewrite app_nil_r. apply store_eta.
  - unfold push_all in IH. rewrite IH. cbn. rewrite <- app_assoc. reflexivity.
Qed.

Lemma pair_ids_differ (t : ItemType) (newItem : Item) (m m' : Match) :
  item_id (m_item m) <> item_id (m_item m') ->
  pair_ids t newItem m <> pair_ids t newItem m'.
Proof.
  intros H E. apply H. unfold pair_ids in E. destruct t; cbn in E; congruence.
Qed.

Lemma same_pair_record (W : Writer) (t : ItemType) (newItem : Item) (m m' : Match) :
  writer_ok W ->
  same_pair (fst (pair_ids t newItem m')) (snd (pair_ids t newItem m'))
            (record_for W t newItem m)
  = String.eqb (item_id (m_item m)) (item_id (m_item m')).
Proof.
  intros HW. unfold same_pair, record_for.
  destruct (HW (fst (orient t newItem (m_item m))) (snd (orient t newItem (m_item m)))
               (m_score m) (m_details m)) as (-> & -> & _).
  destruct t; cbn; rewrite String.eqb_refl;
    [reflexivity | apply andb_true_r].
Qed.

(** Writing for one candidate does not change what the check answers for
    another one. *)
Lemma fresh_after_step (W : Writer) (t : ItemType) (newItem : Item)
    (m m' : Match) (c : nat) (st : Store) :
  writer_ok W ->
  item_id (m_item m) <> item_id (m_item m') ->
  fresh t newItem (snd (step_effect W t newItem m (c, st))) m'
  = fresh t newItem st m'.
Proof.
  intros HW Hne. unfold fresh, step_effect, has_record. cbn [fst snd].
  destruct (existsb _ (matches st)) eqn:E at 1; cbn [snd]; [reflexivity|].
  unfold write_effect.
  destruct (String.eqb _ _); [reflexivity|].
  rewrite push_all_fields. cbn [push_match matches log_query].
  rewrite existsb_app. cbn [existsb].
  fold (record_for W t newItem m).
  rewrite (same_pair_record W t newItem m m' HW).
  apply String.eqb_neq in Hne. rewrite Hne. cbn.
  rewrite orb_false_r. reflexivity.
Qed.

Lemma step_effect_store (W : Writer) (t : ItemType) (newItem : Item) (m : Match)
    (c : nat) (st : Store) :
  step_effect W t newItem m (c, st)
  = ((if fresh t newItem st m then S c else c),
     store_after W t newItem [m] st).
Proof.
  unfold step_effect, store_after, written, fresh, pair_ids. cbn [fst snd filter].
  destruct (has_record _ _ st); cbn [negb andb].
  - cbn. rewrite !app_nil_r. reflexivity.
  - unfold write_effect, other_owner.
    destruct (String.eqb _ _); cbn [negb flat_map map].
    + rewrite !app_nil_r. reflexivity.
    + rewrite push_all_fields. cbn. rewrite app_nil_r. reflexivity.
Qed.

Lemma filter_ext_in' {A : Type} (f g : A -> bool) (l : list A) :
  (forall x, In x l -> f x = g x) -> filter f l = filter g l.
Proof.
  induction l as [|x l IH]; intros H; simpl; [reflexivity|].
  rewrite (H x (or_introl eq_refl)), IH; [reflexivity|].
  intros y Hy. apply H. right. assumption.
Qed.

(** The count and the store after a pass over candidates of distinct ids. *)
Lemma pass_effect_store (W : Writer) (t : ItemType) (newItem : Item)
    (ms : list Match) (c : nat) (st : Store) :
  writer_ok W -> NoDup (candidate_ids ms) ->
  pass_effect W t newItem ms (c, st)
  = (c + List.length (filter (fresh t newItem st) ms),
     store_after W t newItem ms st).
Proof.
  intros HW. revert c st. induction ms as [|m ms IH]; intros c st Hnd.
  - cbn. unfold store_after. cbn. rewrite !app_nil_r, Nat.add_0_r.
    f_equal. apply store_eta.
  - cbn [candidate_ids map] in Hnd. apply NoDup_cons_iff in Hnd as [Hm Hnd].
    change (pass_effect W t newItem (m :: ms) (c, st))
      with (pass_effect W t newItem ms (step_effect W t newItem m (c, st))).
    assert (Hfresh : forall m', In m' ms ->
              fresh t newItem (store_after W t newItem [m] st) m'
              = fresh t newItem st m').
    { intros m' Hm'.
      rewrite <- (fresh_after_step W t newItem m m' c st HW).
      - rewrite step_effect_store. reflexivity.
      - intros E. apply Hm. rewrite E. unfold candidate_ids.
        apply in_map_iff. exists m'. split; [reflexivity|assumption]. }
    rewrite step_effect_store, IH by exact Hnd.
    rewrite (filter_ext_in' _ _ ms Hfresh).
    f_equal.
    + cbn [filter]. destruct (fresh t newItem st m); cbn [List.length]; lia.
    + assert (Hw : written t newItem (store_after W t newItem [m] st) ms
                   = written t newItem st ms).
      { unfold written. apply filter_ext_in'. intros m' Hm'.
        rewrite (Hfresh m' Hm'). reflexivity. }
      unfold store_after at 1. rewrite Hw.
      unfold store_after, written.
      cbn [items notifications matches queries faults filter map].
      destruct (fresh t newItem st m && other_owner t newItem m);
        cbn [flat_map map]; rewrite ?app_nil_r, <- ?app_assoc; reflexivity.
Qed.

(** ** The three passes on a store without faults *)

Lemma step_effect_quiet (W : Writer) (t : ItemType) (newItem : Item) (m : Match)
    (c : nat) (st : Store) :
  quiet st -> quiet (snd (step_effect W t newItem m (c, st))).
Proof.
  intros Q. rewrite step_effect_store. exact Q.
Qed.

Lemma for_of_quiet {A S : Type} (body : A -> S -> Async S)
    (step : A -> S * Store -> S * Store) (l : list A) (s : S) (st : Store) :
  (forall x s st, quiet st ->
     body x s st = (Ok (fst (step x (s, st))), snd (step x (s, st)))
     /\ quiet (snd (step x (s, st)))) ->
  quiet st ->
  for_of l body s st
  = (Ok (fst (fold_left (fun acc x => step x acc) l (s, st))),
     snd (fold_left (fun acc x => step x acc) l (s, st))).
Proof.
  intros Hbody. revert s st. induction l as [|x l IH]; intros s st Q.
  - reflexivity.
  - destruct (Hbody x s st Q) as [Hx Qx].
    cbn [for_of fold_left]. rewrite (bind_ok _ _ _ _ _ Hx).
    rewrite (IH _ _ Qx). rewrite <- surjective_pairing. reflexivity.
Qed.

Lemma notifyFoundMatch_quiet (newItem : Item) (m : Match) (c : nat) (st : Store) :
  quiet st ->
  Functions.notifyFoundMatch newItem m c st
  = (Ok (fst (step_effect server_writer lost newItem m (c, st))),
     snd (step_effect server_writer lost newItem m (c, st))).
Proof.
  intros Q. unfold Functions.notifyFoundMatch, Functions.matchExists, step_effect.
  rewrite (bind_ok _ _ _ _ _ (match_query_quiet _ _ st Q)).
  cbn [orient fst snd]. destruct (has_record _ _ st); cbn [negb]; [reflexivity|].
  unfold write_effect.
  destruct (String.eqb (uid newItem) (uid (m_item m))) eqn:E.
  - apply String.eqb_eq in E.
    rewrite (bind_ok _ _ _ _ _ (createNotification_same_owner _ _ _ _ _ E)).
    reflexivity.
  - rewrite (bind_ok _ _ _ _ _
               (createNotification_quiet _ _ _ _ (log_query _ _ st) Q E)).
    reflexivity.
Qed.

Lemma notifyLostMatch_quiet (newItem : Item) (m : Match) (c : nat) (st : Store) :
  quiet st ->
  Functions.notifyLostMatch newItem m c st
  = (Ok (fst (step_effect server_writer found newItem m (c, st))),
     snd (step_effect server_writer found newItem m (c, st))).
Proof.
  intros Q. unfold Functions.notifyLostMatch, Functions.matchExists, step_effect.
  rewrite (bind_ok _ _ _ _ _ (match_query_quiet _ _ st Q)).
  cbn [orient fst snd]. destruct (has_record _ _ st); cbn [negb]; [reflexivity|].
  unfold write_effect.
  destruct (String.eqb (uid (m_item m)) (uid newItem)) eqn:E.
  - apply String.eqb_eq in E.
    rewrite (bind_ok _ _ _ _ _ (createNotification_same_owner _ _ _ _ _ E)).
    reflexivity.
  - rewrite (bind_ok _ _ _ _ _
               (createNotification_quiet _ _ _ _ (log_query _ _ st) Q E)).
    reflexivity.
Qed.

Lemma roles_orient (newItem c : Item) :
  Dashboard.roles newItem c = orient (item_type newItem) newItem c.
Proof. unfold Dashboard.roles. destruct (item_type newItem); reflexivity. Qed.

Lemma notifyMatch_quiet (newItem : Item) (m : Match) (c : nat) (st : Store) :
  quiet st ->
  Dashboard.notifyMatch newItem m c st
  = (Ok (fst (step_effect client_writer (item_type newItem) newItem m (c, st))),
     snd (step_effect client_writer (item_type newItem) newItem m (c, st))).
Proof.
  intros Q. unfold Dashboard.notifyMatch, Dashboard.matchExists, step_effect.
  rewrite roles_orient.
  destruct (orient (item_type newItem) newItem (m_item m)) as [l f].
  rewrite (bind_ok _ _ _ _ _ (match_query_quiet _ _ st Q)).
  cbn [fst snd]. destruct (has_record _ _ st); cbn [negb]; [reflexivity|].
  unfold write_effect.
  destruct (String.eqb (uid l) (uid f)) eqn:E.
  - apply String.eqb_eq in E.
    rewrite (bind_ok _ _ _ _ _ (createMatchNotification_same_owner _ _ _ _ _ E)).
    reflexivity.
  - rewrite (bind_ok _ _ _ _ _
               (createMatchNotification_quiet _ _ _ _ (log_query _ _ st) Q E)).
    reflexivity.
Qed.

Lemma findMatches_quiet (now : Z) (newItem : Item) (st : Store) :
  quiet st ->
  Dashboard.findMatches now newItem st
  = (Ok (fst (pass_effect client_writer (item_type newItem) newItem
                (client_ranked now newItem st) (0, st))),
     snd (pass_effect client_writer (item_type newItem) newItem
            (client_ranked now newItem st) (0, st))).
Proof.
  intros Q. unfold Dashboard.findMatches.
  replace (if ItemType_eqb (item_type newItem) lost then found else lost)
    with (opposite (item_type newItem)) by (destruct (item_type newItem); reflexivity).
  rewrite (bind_ok _ _ _ _ _ (open_items_quiet _ st Q)).
  apply (for_of_quiet (Dashboard.notifyMatch newItem)
           (step_effect client_writer (item_type newItem) newItem)); [|exact Q].
  intros m c st' Q'. split.
  - apply notifyMatch_quiet. exact Q'.
  - apply step_effect_quiet. exact Q'.
Qed.

Lemma update_item_quiet (newItem : Item) (st : Store) :
  quiet st -> posted newItem st ->
  update_item (item_id newItem)
    (enrich (Functions.extractKeywords (Some (item_text newItem)))
            (Functions.normalizeLocation (location newItem))) st
  = (Ok tt, enriched_store newItem st).
Proof.
  intros Q (d & Hd & Hid & _). unfold update_item.
  rewrite (bind_ok _ _ _ _ _ (request_quiet st Q)).
  replace (existsb (fun i => String.eqb (item_id i) (item_id newItem)) (items st))
    with true; [reflexivity|].
  symmetry. apply existsb_exists. exists d. split; [assumption|].
  rewrite Hid. apply String.eqb_refl.
Qed.

Lemma onLostItemCreated_quiet (now : Z) (newItem : Item) (st : Store) :
  quiet st -> posted newItem st -> item_type newItem = lost ->
  Functions.onLostItemCreated now newItem st
  = (Ok (Some (fst (pass_effect server_writer lost newItem
                      (lost_trigger_ranked now newItem (enriched_store newItem st))
                      (0, enriched_store newItem st)))),
     snd (pass_effect server_writer lost newItem
            (lost_trigger_ranked now newItem (enriched_store newItem st))
            (0, enriched_store newItem st))).
Proof.
  intros Q P T. unfold Functions.onLostItemCreated. rewrite T. cbn [ItemType_eqb negb].
  rewrite (bind_ok _ _ _ _ _ (update_item_quiet newItem st Q P)).
  rewrite (bind_ok _ _ _ _ _ (open_items_quiet found (enriched_store newItem st) Q)).
  unfold bind.
  rewrite (for_of_quiet (Functions.notifyFoundMatch newItem)
             (step_effect server_writer lost newItem)); [reflexivity| |exact Q].
  intros m c st' Q'. split.
  - apply notifyFoundMatch_quiet. exact Q'.
  - apply step_effect_quiet. exact Q'.
Qed.

Lemma onFoundItemCreated_quiet (now : Z) (newItem : Item) (st : Store) :
  quiet st -> posted newItem st -> item_type newItem = found ->
  Functions.onFoundItemCreated now newItem st
  = (Ok (Some (fst (pass_effect server_writer found newItem
                      (found_trigger_ranked now newItem (enriched_store newItem st))
                      (0, enriched_store newItem st)))),
     snd (pass_effect server_writer found newItem
            (found_trigger_ranked now newItem (enriched_store newItem st))
            (0, enriched_store newItem st))).
Proof.
  intros Q P T. unfold Functions.onFoundItemCreated. rewrite T. cbn [ItemType_eqb negb].
  rewrite (bind_ok _ _ _ _ _ (update_item_quiet newItem st Q P)).
  rewrite (bind_ok _ _ _ _ _ (open_items_quiet lost (enriched_store newItem st) Q)).
  unfold bind.
  rewrite (for_of_quiet (Functions.notifyLostMatch newItem)
             (step_effect server_writer found newItem)); [reflexivity| |exact Q].
  intros m c st' Q'. split.
  - apply notifyLostMatch_quiet. exact Q'.
  - apply step_effect_quiet. exact Q'.
Qed.

(** ** The candidates of a pass have distinct ids *)

Lemma distinct_ids_filter (keep : Item -> bool) (docs : list Item) :
  NoDup (map item_id docs) -> NoDup (map item_id (filter keep docs)).
Proof.
  intros Hnd. induction docs as [|d docs IH]; [constructor|].
  cbn [map] in Hnd. apply NoDup_cons_iff in Hnd as [Hd Hrest].
  cbn [filter]. destruct (keep d); [|exact (IH Hrest)].
  cbn [map]. apply NoDup_cons; [|exact (IH Hrest)].
  intros Hin. apply Hd.
  apply in_map_iff in Hin as [d' [Hid Hd']].
  apply filter_In in Hd' as [Hd' _].
  rewrite <- Hid. apply in_map. exact Hd'.
Qed.

Lemma NoDup_firstn {A : Type} (n : nat) (l : list A) :
  NoDup l -> NoDup (firstn n l).
Proof.
  intros H. revert n. induction H as [|x l Hx Hl IH]; intros [|n]; simpl;
    try constructor; auto.
  intros Hin. apply Hx. rewrite <- (firstn_skipn n l). apply in_or_app. auto.
Qed.

Lemma candidate_ids_candidates (now : Z) (calc : Item -> ScoreResult)
    (docs : list Item) :
  candidate_ids (candidates now calc docs)
  = map item_id (filter (eligible now (fun d => score (calc d))) docs).
Proof. unfold candidate_ids, candidates. rewrite map_map. reflexivity. Qed.

Lemma top_candidates_NoDup (now : Z) (calc : Item -> ScoreResult) (docs : list Item) :
  NoDup (map item_id docs) ->
  NoDup (candidate_ids
           (JS.slice0 3 (JS.sort_desc m_score (candidates now calc docs)))).
Proof.
  intros H. unfold candidate_ids, JS.slice0. rewrite <- firstn_map.
  apply NoDup_firstn.
  eapply Permutation_NoDup.
  - apply Permutation_map. symmetry. apply sort_desc_perm.
  - fold (candidate_ids (candidates now calc docs)).
    rewrite candidate_ids_candidates. apply distinct_ids_filter. exact H.
Qed.

Lemma pool_NoDup (t : ItemType) (st : Store) :
  store_ok st -> NoDup (map item_id (pool t st)).
Proof. intros H. apply distinct_ids_filter. exact H. Qed.

Lemma client_ranked_NoDup (now : Z) (newItem : Item) (st : Store) :
  store_ok st -> NoDup (candidate_ids (client_ranked now newItem st)).
Proof.
  intros H. unfold client_ranked. rewrite rankedMatches_candidates.
  apply top_candidates_NoDup, pool_NoDup, H.
Qed.

Lemma lost_trigger_ranked_NoDup (now : Z) (newItem : Item) (st : Store) :
  store_ok st -> NoDup (candidate_ids (lost_trigger_ranked now newItem st)).
Proof.
  intros H. unfold lost_trigger_ranked, Functions.top3.
  rewrite scanFoundItems_candidates.
  apply top_candidates_NoDup, pool_NoDup, H.
Qed.

Lemma found_trigger_ranked_NoDup (now : Z) (newItem : Item) (st : Store) :
  store_ok st -> NoDup (candidate_ids (found_trigger_ranked now newItem st)).
Proof.
  intros H. unfold found_trigger_ranked, Functions.top3.
  rewrite scanLostItems_candidates.
  apply top_candidates_NoDup, pool_NoDup, H.
Qed.

(** ** The enrichment written by a trigger *)

Lemma enriched_store_ids (newItem : Item) (st : Store) :
  map item_id (items (enriched_store newItem st)) = map item_id (items st).
Proof.
  unfold enriched_store. cbn [items set_items]. rewrite map_map.
  apply map_ext. intros d. destruct (String.eqb _ _); reflexivity.
Qed.

Lemma enriched_store_ok (newItem : Item) (st : Store) :
  store_ok st -> store_ok (enriched_store newItem st).
Proof. unfold store_ok. rewrite enriched_store_ids. auto. Qed.

Lemma NoDup_map_eq {A B : Type} (f : A -> B) (l : list A) (x y : A) :
  NoDup (map f l) -> In x l -> In y l -> f x = f y -> x = y.
Proof.
  induction l as [|z l IH]; simpl; intros H Hx Hy E; [contradiction|].
  apply NoDup_cons_iff in H as [Hz Hl].
  destruct Hx as [->|Hx], Hy as [->|Hy]; auto.
  - exfalso. apply Hz. rewrite E. apply in_map. assumption.
  - exfalso. apply Hz. rewrite <- E. apply in_map. assumption.
Qed.

(** The enrichment only touches the document of the new item, which is not
    in the pool of the other type. *)
Lemma pool_enriched_store (newItem : Item) (st : Store) :
  store_ok st -> posted newItem st ->
  pool (opposite (item_type newItem)) (enriched_store newItem st)
  = pool (opposite (item_type newItem)) st.
Proof.
  intros Hok (d0 & Hd0 & Hid & Hty). unfold pool, enriched_store.
  cbn [items set_items]. rewrite filter_map_comm.
  assert (Hsame : forall d, In d (items st) ->
            item_id d = item_id newItem -> item_type d = item_type newItem).
  { intros d Hd E. rewrite <- Hid in E.
    rewrite (NoDup_map_eq item_id (items st) d d0 Hok Hd Hd0 E). exact Hty. }
  assert (Hopp : forall t, ItemType_eqb t (opposite t) = false)
    by (intros []; reflexivity).
  revert Hsame. generalize (items st) as l.
  induction l as [|d l IH]; intros Hsame; [reflexivity|].
  cbn [filter map].
  assert (IHl := IH (fun x Hx => Hsame x (or_intror Hx))).
  destruct (String.eqb (item_id d) (item_id newItem)) eqn:E.
  - apply String.eqb_eq in E.
    cbn [enrich item_type status].
    rewrite (Hsame d (or_introl eq_refl) E), Hopp. cbn [andb]. exact IHl.
  - destruct (ItemType_eqb (item_type d) (opposite (item_type newItem))
              && Status_eqb (status d) open); cbn [map]; rewrite ?E, IHl;
      reflexivity.
Qed.

(** ** What a pass returns and writes *)

(** On a store without faults whose documents have distinct ids,
    [findMatches] returns the number of its top matches for which the
    store holds no match record yet, and leaves the store with the
    duplicate checks logged and, for each of those matches whose owner is
    another user, two notifications and one match record added in ranked
    order. *)
Theorem findMatches_effect (now : Z) (newItem : Item) (st : Store) :
  quiet st -> store_ok st ->
  Dashboard.findMatches now newItem st
  = (Ok (List.length (filter (fresh (item_type newItem) newItem st)
                        (client_ranked now newItem st))),
     store_after client_writer (item_type newItem) newItem
       (client_ranked now newItem st) st).
Proof.
  intros Q Hok. rewrite (findMatches_quiet now newItem st Q).
  rewrite (pass_effect_store client_writer (item_type newItem) newItem
             (client_ranked now newItem st) 0 st client_writer_ok
             (client_ranked_NoDup now newItem st Hok)).
  reflexivity.
Qed.

Lemma findMatches_effect_witness :
  quiet sample_store /\ store_ok sample_store
  /\ Dashboard.findMatches sample_now lost_bag sample_store
     = (Ok (List.length (filter (fresh (item_type lost_bag) lost_bag sample_store)
                           (client_ranked sample_now lost_bag sample_store))),
        store_after client_writer (item_type lost_bag) lost_bag
          (client_ranked sample_now lost_bag sample_store) sample_store).
Proof.
  assert (Q : quiet sample_store) by reflexivity.
  assert (K : store_ok sample_store).
  { unfold store_ok. cbn. repeat constructor; cbn; intuition discriminate. }
  exact (conj Q (conj K (findMatches_effect sample_now lost_bag sample_store Q K))).
Defined.

Lemma opposite_lost (newItem : Item) :
  item_type newItem = lost -> found = opposite (item_type newItem).
Proof. intros ->. reflexivity. Qed.

Lemma opposite_found (newItem : Item) :
  item_type newItem = found -> lost = opposite (item_type newItem).
Proof. intros ->. reflexivity. Qed.

Lemma lost_trigger_ranked_enriched (now : Z) (newItem : Item) (st : Store) :
  store_ok st -> posted newItem st -> item_type newItem = lost ->
  lost_trigger_ranked now newItem (enriched_store newItem st)
  = lost_trigger_ranked now newItem st.
Proof.
  intros Hok P T. unfold lost_trigger_ranked.
  rewrite (opposite_lost newItem T), (pool_enriched_store newItem st Hok P).
  reflexivity.
Qed.

Lemma found_trigger_ranked_enriched (now : Z) (newItem : Item) (st : Store) :
  store_ok st -> posted newItem st -> item_type newItem = found ->
  found_trigger_ranked now newItem (enriched_store newItem st)
  = found_trigger_ranked now newItem st.
Proof.
  intros Hok P T. unfold found_trigger_ranked.
  rewrite (opposite_found newItem T), (pool_enriched_store newItem st Hok P).
  reflexivity.
Qed.

(** On a store without faults whose documents have distinct ids and which
    holds the new item, each creation trigger writes the enrichment on the
    document of the new item, logs the number of its top matches for which
    the store holds no match record yet, and adds, for each of those matches
    whose owner is another user, one notification and one match record.
    The top matches are those computed over the pool as it was before the
    enrichment. *)
Theorem triggers_effect (now : Z) (newItem : Item) (st : Store) :
  quiet st -> store_ok st -> posted newItem st ->
  (item_type newItem = lost ->
   Functions.onLostItemCreated now newItem st
   = (Ok (Some (List.length (filter (fresh lost newItem st)
                               (lost_trigger_ranked now newItem st)))),
      store_after server_writer lost newItem
        (lost_trigger_ranked now newItem st) (enriched_store newItem st)))
  /\ (item_type newItem = found ->
      Functions.onFoundItemCreated now newItem st
      = (Ok (Some (List.length (filter (fresh found newItem st)
                                  (found_trigger_ranked now newItem st)))),
         store_after server_writer found newItem
           (found_trigger_ranked now newItem st) (enriched_store newItem st))).
Proof.
  intros Q Hok P. split; intros T.
  - rewrite (onLostItemCreated_quiet now newItem st Q P T).
    rewrite (pass_effect_store server_writer lost newItem _ 0
               (enriched_store newItem st) server_writer_ok
               (lost_trigger_ranked_NoDup now newItem _
                  (enriched_store_ok newItem st Hok))).
    rewrite (lost_trigger_ranked_enriched now newItem st Hok P T).
    reflexivity.
  - rewrite (onFoundItemCreated_quiet now newItem st Q P T).
    rewrite (pass_effect_store server_writer found newItem _ 0
               (enriched_store newItem st) server_writer_ok
               (found_trigger_ranked_NoDup now newItem _
                  (enriched_store_ok newItem st Hok))).
    rewrite (found_trigger_ranked_enriched now newItem st Hok P T).
    reflexivity.
Qed.

Lemma sample_store_ok : store_ok sample_store.
Proof. unfold store_ok. cbn. repeat constructor; cbn; intuition discriminate. Qed.

Lemma lost_bag_posted : posted lost_bag sample_store.
Proof. exists lost_bag. cbn. auto. Qed.

Lemma triggers_effect_witness :
  quiet sample_store /\ store_ok sample_store /\ posted lost_bag sample_store
  /\ item_type lost_bag = lost
  /\ Functions.onLostItemCreated sample_now lost_bag sample_store
     = (Ok (Some (List.length (filter (fresh lost lost_bag sample_store)
                                 (lost_trigger_ranked sample_now lost_bag
                                    sample_store)))),
        store_after server_writer lost lost_bag
          (lost_trigger_ranked sample_now lost_bag sample_store)
          (enriched_store lost_bag sample_store)).
Proof.
  refine (conj eq_refl (conj sample_store_ok (conj lost_bag_posted (conj eq_refl _)))).
  exact (proj1 (triggers_effect sample_now lost_bag sample_store eq_refl
                  sample_store_ok lost_bag_posted) eq_refl).
Defined.

(** ** Two readings of the clock *)

Lemma candidates_same_expiry (now1 now2 : Z) (calc : Item -> ScoreResult)
    (docs : list Item) :
  (forall d, In d docs -> expired now2 d = expired now1 d) ->
  candidates now2 calc docs = candidates now1 calc docs.
Proof.
  intros H. unfold candidates. f_equal. apply filter_ext_in'. intros d Hd.
  unfold eligible. fold (expired now2 d) (expired now1 d).
  rewrite (H d Hd). reflexivity.
Qed.

Lemma same_expiry_pool (now1 now2 : Z) (t : ItemType) (st : Store) :
  same_expiry now1 now2 st ->
  forall d, In d (pool t st) -> expired now2 d = expired now1 d.
Proof.
  intros H d Hd. apply H. unfold pool in Hd. apply filter_In in Hd. apply Hd.
Qed.

Lemma client_ranked_same_expiry (now1 now2 : Z) (newItem : Item) (st : Store) :
  same_expiry now1 now2 st ->
  client_ranked now2 newItem st = client_ranked now1 newItem st.
Proof.
  intros H. unfold client_ranked. rewrite !rankedMatches_candidates.
  rewrite (candidates_same_expiry now1 now2 _ _ (same_expiry_pool _ _ _ st H)).
  reflexivity.
Qed.

Lemma lost_trigger_ranked_same_expiry (now1 now2 : Z) (newItem : Item) (st : Store) :
  same_expiry now1 now2 st ->
  lost_trigger_ranked now2 newItem st = lost_trigger_ranked now1 newItem st.
Proof.
  intros H. unfold lost_trigger_ranked. rewrite !scanFoundItems_candidates.
  rewrite (candidates_same_expiry now1 now2 _ _ (same_expiry_pool _ _ _ st H)).
  reflexivity.
Qed.

Lemma found_trigger_ranked_same_expiry (now1 now2 : Z) (newItem : Item) (st : Store) :
  same_expiry now1 now2 st ->
  found_trigger_ranked now2 newItem st = found_trigger_ranked now1 newItem st.
Proof.
  intros H. unfold found_trigger_ranked. rewrite !scanLostItems_candidates.
  rewrite (candidates_same_expiry now1 now2 _ _ (same_expiry_pool _ _ _ st H)).
  reflexivity.
Qed.

(** A later reading of the clock, one second on. *)
Lemma sample_same_expiry : same_expiry sample_now (sample_now + 1000) sample_store.
Proof.
  intros d Hd. cbn in Hd.
  destruct Hd as [<-|[<-|[<-|[<-|[]]]]]; vm_compute; reflexivity.
Qed.

(** ** A second pass *)

Lemma fresh_matches_ext (t : ItemType) (newItem : Item) (st st' : Store) (m : Match) :
  matches st' = matches st -> fresh t newItem st' m = fresh t newItem st m.
Proof. intros H. unfold fresh, has_record. rewrite H. reflexivity. Qed.

Lemma written_matches_ext (t : ItemType) (newItem : Item) (st st' : Store)
    (ms : list Match) :
  matches st' = matches st -> written t newItem st' ms = written t newItem st ms.
Proof.
  intros H. unfold written. apply filter_ext. intros m.
  rewrite (fresh_matches_ext t newItem st st' m H). reflexivity.
Qed.

Lemma filter_none {A : Type} (f : A -> bool) (l : list A) :
  (forall x, In x l -> f x = false) -> filter f l = [].
Proof.
  induction l as [|x l IH]; intros H; [reflexivity|].
  cbn [filter]. rewrite (H x (or_introl eq_refl)). apply IH.
  intros y Hy. apply H. right. exact Hy.
Qed.

(** After a pass, the check still finds no record exactly for the
    candidates that had none and were posted by the owner of the new item. *)
Lemma fresh_after_pass (W : Writer) (t : ItemType) (newItem : Item)
    (ms : list Match) (st : Store) (m : Match) :
  writer_ok W -> NoDup (candidate_ids ms) -> In m ms ->
  fresh t newItem (store_after W t newItem ms st) m
  = fresh t newItem st m && negb (other_owner t newItem m).
Proof.
  intros HW Hnd Hm. unfold fresh at 1. unfold has_record, store_after.
  cbn [matches]. rewrite existsb_app.
  fold (has_record (fst (pair_ids t newItem m)) (snd (pair_ids t newItem m)) st).
  destruct (has_record _ _ st) eqn:Hr.
  - unfold fresh. rewrite Hr. reflexivity.
  - unfold fresh. rewrite Hr. cbn [negb orb andb].
    destruct (other_owner t newItem m) eqn:Ho; cbn [negb].
    + replace (existsb _ _) with true; [reflexivity|].
      symmetry. apply existsb_exists. exists (record_for W t newItem m). split.
      * apply in_map. unfold written. apply filter_In. split; [exact Hm|].
        unfold fresh. rewrite Hr, Ho. reflexivity.
      * rewrite (same_pair_record W t newItem m m HW). apply String.eqb_refl.
    + replace (existsb _ _) with false; [reflexivity|].
      symmetry. apply not_true_is_false. intros E.
      apply existsb_exists in E as [r [Hr' Hs]].
      apply in_map_iff in Hr' as [m' [<- Hm']].
      unfold written in Hm'. apply filter_In in Hm' as [Hin' Hm'].
      apply andb_true_iff in Hm' as [_ Ho'].
      rewrite (same_pair_record W t newItem m' m HW) in Hs.
      apply String.eqb_eq in Hs.
      assert (m' = m)
        by (apply (NoDup_map_eq (fun x => item_id (m_item x)) ms); assumption).
      subst m'. congruence.
Qed.

Lemma written_after_pass (W : Writer) (t : ItemType) (newItem : Item)
    (ms : list Match) (st : Store) :
  writer_ok W -> NoDup (candidate_ids ms) ->
  written t newItem (store_after W t newItem ms st) ms = [].
Proof.
  intros HW Hnd. unfold written. apply filter_none. intros m Hm.
  rewrite (fresh_after_pass W t newItem ms st m HW Hnd Hm).
  destruct (fresh t newItem st m), (other_owner t newItem m); reflexivity.
Qed.

Lemma fresh_filter_after_pass (W : Writer) (t : ItemType) (newItem : Item)
    (ms : list Match) (st : Store) :
  writer_ok W -> NoDup (candidate_ids ms) ->
  filter (fresh t newItem (store_after W t newItem ms st)) ms
  = filter (fun m => fresh t newItem st m && negb (other_owner t newItem m)) ms.
Proof.
  intros HW Hnd. apply filter_ext_in'. intros m Hm.
  apply fresh_after_pass; assumption.
Qed.

Lemma store_after_again (W : Writer) (t : ItemType) (newItem : Item)
    (ms : list Match) (st : Store) :
  writer_ok W -> NoDup (candidate_ids ms) ->
  notifications (store_after W t newItem ms (store_after W t newItem ms st))
  = notifications (store_after W t newItem ms st)
  /\ matches (store_after W t newItem ms (store_after W t newItem ms st))
     = matches (store_after W t newItem ms st).
Proof.
  intros HW Hnd.
  pose proof (written_after_pass W t newItem ms st HW Hnd) as Hw.
  remember (store_after W t newItem ms st) as st1 eqn:E.
  unfold store_after. cbn [notifications matches]. rewrite Hw.
  cbn [flat_map map]. rewrite !app_nil_r. split; reflexivity.
Qed.

(** Running [findMatches] again for the same item, after a first pass on a
    store without faults whose documents have distinct ids, writes no
    notification and no match record, provided no document expires between
    the readings [now1] and [now2] of the clock of the two passes.  It
    returns the number of top matches that the owner of the new item posted
    and that had no record, since for those nothing is ever recorded. *)
Theorem findMatches_second_pass (now1 now2 : Z) (newItem : Item) (st : Store) :
  quiet st -> store_ok st -> same_expiry now1 now2 st ->
  let st1 := snd (Dashboard.findMatches now1 newItem st) in
  let again := Dashboard.findMatches now2 newItem st1 in
  fst again
  = Ok (List.length
          (filter (fun m => fresh (item_type newItem) newItem st m
                            && negb (other_owner (item_type newItem) newItem m))
                  (client_ranked now1 newItem st)))
  /\ notifications (snd again) = notifications st1
  /\ matches (snd again) = matches st1
  /\ items (snd again) = items st.
Proof.
  intros Q Hok Hex. cbv zeta.
  rewrite (findMatches_effect now1 newItem st Q Hok). cbn [snd].
  set (t := item_type newItem). set (ms := client_ranked now1 newItem st).
  assert (Hnd : NoDup (candidate_ids ms))
    by (apply client_ranked_NoDup; exact Hok).
  rewrite (findMatches_effect now2 newItem
             (store_after client_writer t newItem ms st) Q Hok).
  change (client_ranked now2 newItem (store_after client_writer t newItem ms st))
    with (client_ranked now2 newItem st).
  rewrite (client_ranked_same_expiry now1 now2 newItem st Hex).
  fold t ms. cbn [fst snd].
  rewrite (fresh_filter_after_pass client_writer t newItem ms st client_writer_ok Hnd).
  destruct (store_after_again client_writer t newItem ms st client_writer_ok Hnd)
    as [Hn Hm].
  repeat split; assumption.
Qed.

Lemma findMatches_second_pass_witness :
  quiet sample_store /\ store_ok sample_store
  /\ same_expiry sample_now (sample_now + 1000) sample_store
  /\ matches (snd (Dashboard.findMatches (sample_now + 1000) lost_bag
                     (snd (Dashboard.findMatches sample_now lost_bag sample_store))))
     = matches (snd (Dashboard.findMatches sample_now lost_bag sample_store)).
Proof.
  refine (conj eq_refl (conj sample_store_ok (conj sample_same_expiry _))).
  exact (proj1 (proj2 (proj2
           (findMatches_second_pass sample_now (sample_now + 1000) lost_bag
              sample_store eq_refl sample_store_ok sample_same_expiry)))).
Defined.

Lemma enriched_store_posted (newItem : Item) (st : Store) :
  posted newItem st -> posted newItem (enriched_store newItem st).
Proof.
  intros (d & Hd & Hid & Hty).
  exists (if String.eqb (item_id d) (item_id newItem)
          then enrich (Functions.extractKeywords (Some (item_text newItem)))
                      (Functions.normalizeLocation (location newItem)) d
          else d).
  split; [|destruct (String.eqb _ _); auto].
  unfold enriched_store. cbn [items set_items].
  apply (in_map (fun i => if String.eqb (item_id i) (item_id newItem)
                          then enrich _ _ i else i)). exact Hd.
Qed.

(** Writing the enrichment a second time changes nothing. *)
Lemma enriched_store_idem (newItem : Item) (st : Store) :
  enriched_store newItem (enriched_store newItem st) = enriched_store newItem st.
Proof.
  unfold enriched_store, set_items. cbn [items notifications matches queries faults].
  f_equal. rewrite map_map. apply map_ext. intros d.
  destruct (String.eqb (item_id d) (item_id newItem)) eqn:E.
  - cbn [enrich item_id]. rewrite E. reflexivity.
  - rewrite E. reflexivity.
Qed.

Lemma store_after_enriched (W : Writer) (t : ItemType) (newItem : Item)
    (ms : list Match) (st : Store) :
  enriched_store newItem (store_after W t newItem ms st)
  = store_after W t newItem ms (enriched_store newItem st).
Proof. reflexivity. Qed.

(** A creation trigger that runs a second time for the same item, after its
    first run on a store without faults that holds the new item and whose
    documents have distinct ids, leaves the store as the first run left it
    but for the log of the duplicate checks, provided no document expires
    between the readings [now1] and [now2] of the clock of the two runs: no
    notification and no match record is added, and the documents stay as
    enriched. *)
Theorem trigger_second_run (now1 now2 : Z) (newItem : Item) (st : Store) :
  quiet st -> store_ok st -> posted newItem st -> same_expiry now1 now2 st ->
  (item_type newItem = lost ->
   let st1 := snd (Functions.onLostItemCreated now1 newItem st) in
   let st2 := snd (Functions.onLostItemCreated now2 newItem st1) in
   notifications st2 = notifications st1 /\ matches st2 = matches st1
   /\ items st2 = items st1)
  /\ (item_type newItem = found ->
      let st1 := snd (Functions.onFoundItemCreated now1 newItem st) in
      let st2 := snd (Functions.onFoundItemCreated now2 newItem st1) in
      notifications st2 = notifications st1 /\ matches st2 = matches st1
      /\ items st2 = items st1).
Proof.
  intros Q Hok P Hex. split; intros T; cbv zeta.
  - rewrite (proj1 (triggers_effect now1 newItem st Q Hok P) T). cbn [snd].
    set (ms := lost_trigger_ranked now1 newItem st).
    set (st1 := store_after server_writer lost newItem ms (enriched_store newItem st)).
    assert (Q1 : quiet st1) by exact Q.
    assert (Hok1 : store_ok st1) by (apply (enriched_store_ok newItem st Hok)).
    assert (P1 : posted newItem st1) by (apply (enriched_store_posted newItem st P)).
    rewrite (proj1 (triggers_effect now2 newItem st1 Q1 Hok1 P1) T). cbn [snd].
    assert (Hms : lost_trigger_ranked now2 newItem st1 = ms).
    { change (lost_trigger_ranked now2 newItem st1)
        with (lost_trigger_ranked now2 newItem (enriched_store newItem st)).
      rewrite (lost_trigger_ranked_enriched now2 newItem st Hok P T).
      apply lost_trigger_ranked_same_expiry. exact Hex. }
    rewrite Hms.
    assert (Hnd : NoDup (candidate_ids ms))
      by (apply lost_trigger_ranked_NoDup; exact Hok).
    unfold st1 at 1 3 5. rewrite store_after_enriched, enriched_store_idem. fold st1.
    destruct (store_after_again server_writer lost newItem ms
                (enriched_store newItem st) server_writer_ok Hnd) as [Hn Hm].
    repeat split; assumption.
  - rewrite (proj2 (triggers_effect now1 newItem st Q Hok P) T). cbn [snd].
    set (ms := found_trigger_ranked now1 newItem st).
    set (st1 := store_after server_writer found newItem ms (enriched_store newItem st)).
    assert (Q1 : quiet st1) by exact Q.
    assert (Hok1 : store_ok st1) by (apply (enriched_store_ok newItem st Hok)).
    assert (P1 : posted newItem st1) by (apply (enriched_store_posted newItem st P)).
    rewrite (proj2 (triggers_effect now2 newItem st1 Q1 Hok1 P1) T). cbn [snd].
    assert (Hms : found_trigger_ranked now2 newItem st1 = ms).
    { change (found_trigger_ranked now2 newItem st1)
        with (found_trigger_ranked now2 newItem (enriched_store newItem st)).
      rewrite (found_trigger_ranked_enriched now2 newItem st Hok P T).
      apply found_trigger_ranked_same_expiry. exact Hex. }
    rewrite Hms.
    assert (Hnd : NoDup (candidate_ids ms))
      by (apply found_trigger_ranked_NoDup; exact Hok).
    unfold st1 at 1 3 5. rewrite store_after_enriched, enriched_store_idem. fold st1.
    destruct (store_after_again server_writer found newItem ms
                (enriched_store newItem st) server_writer_ok Hnd) as [Hn Hm].
    repeat split; assumption.
Qed.

Lemma trigger_second_run_witness :
  quiet sample_store /\ store_ok sample_store /\ posted lost_bag sample_store
  /\ same_expiry sample_now (sample_now + 1000) sample_store
  /\ item_type lost_bag = lost
  /\ matches (snd (Functions.onLostItemCreated (sample_now + 1000) lost_bag
                     (snd (Functions.onLostItemCreated sample_now lost_bag
                             sample_store))))
     = matches (snd (Functions.onLostItemCreated sample_now lost_bag sample_store)).
Proof.
  refine (conj eq_refl (conj sample_store_ok (conj lost_bag_posted
            (conj sample_same_expiry (conj eq_refl _))))).
  exact (proj1 (proj2 (proj1 (trigger_second_run sample_now (sample_now + 1000)
                                lost_bag sample_store eq_refl sample_store_ok
                                lost_bag_posted sample_same_expiry) eq_refl))).
Defined.

(** ** Requests to a store with faults *)

Lemma set_faults_same (st : Store) : set_faults (faults st) st = st.
Proof. destruct st. reflexivity. Qed.

(** A request succeeds or is rejected; either way only [faults] changes. *)
Lemma request_cases (st : Store) :
  exists fs, request st = (Ok tt, set_faults fs st)
             \/ request st = (Throw Unavailable, set_faults fs st).
Proof.
  unfold request. destruct (faults st) as [|b fs] eqn:E.
  - exists []. left. rewrite <- E, set_faults_same. reflexivity.
  - exists fs. destruct b; [right|left]; reflexivity.
Qed.

Lemma match_query_cases (l f : string) (st : Store) :
  exists fs,
    match_query_nonempty l f st
    = (Ok (has_record l f st), log_query l f (set_faults fs st))
    \/ match_query_nonempty l f st = (Throw Unavailable, set_faults fs st).
Proof.
  unfold match_query_nonempty. destruct (request_cases st) as [fs [H|H]]; exists fs.
  - left. rewrite (bind_ok _ _ _ _ _ H). reflexivity.
  - right. apply bind_throw. exact H.
Qed.

Lemma add_notification_cases (n : Notification) (st : Store) :
  exists fs,
    add_notification n st = (Ok tt, push_notification n (set_faults fs st))
    \/ add_notification n st = (Throw Unavailable, set_faults fs st).
Proof.
  unfold add_notification. destruct (request_cases st) as [fs [H|H]]; exists fs.
  - left. rewrite (bind_ok _ _ _ _ _ H). reflexivity.
  - right. apply bind_throw. exact H.
Qed.

Lemma add_match_cases (r : MatchRecord) (st : Store) :
  exists fs,
    add_match r st = (Ok tt, push_match r (set_faults fs st))
    \/ add_match r st = (Throw Unavailable, set_faults fs st).
Proof.
  unfold add_match. destruct (request_cases st) as [fs [H|H]]; exists fs.
  - left. rewrite (bind_ok _ _ _ _ _ H). reflexivity.
  - right. apply bind_throw. exact H.
Qed.

Lemma open_items_cases (t : ItemType) (st : Store) :
  exists fs,
    open_items_of_type t st = (Ok (pool t st), set_faults fs st)
    \/ open_items_of_type t st = (Throw Unavailable, set_faults fs st).
Proof.
  unfold open_items_of_type. destruct (request_cases st) as [fs [H|H]]; exists fs.
  - left. rewrite (bind_ok _ _ _ _ _ H). reflexivity.
  - right. apply bind_throw. exact H.
Qed.

Lemma update_item_cases (id : string) (f : Item -> Item) (st : Store) :
  exists fs,
    update_item id f st
    = (Ok tt, set_items (map (fun i => if String.eqb (item_id i) id then f i else i)
                             (items st)) (set_faults fs st))
    \/ (exists e, update_item id f st = (Throw e, set_faults fs st)).
Proof.
  unfold update_item. destruct (request_cases st) as [fs [H|H]]; exists fs.
  - rewrite (bind_ok _ _ _ _ _ H). cbn [items set_faults].
    destruct (existsb _ (items st)); [left; reflexivity|].
    right. exists NotFound. reflexivity.
  - right. exists Unavailable. apply bind_throw. exact H.
Qed.

(** ** What one turn of a loop may write, whatever fails *)

Lemma turn_writes_nothing (W : Writer) (t : ItemType) (newItem : Item) (m : Match)
    (st st' : Store) :
  items st' = items st -> notifications st' = notifications st ->
  matches st' = matches st ->
  (queries st' = queries st \/ queries st' = queries st ++ [pair_ids t newItem m]) ->
  turn_writes W t newItem m st st'.
Proof.
  intros Hi Hn Hm Hq. split; [exact Hi|]. exists false, [].
  rewrite !app_nil_r.
  split; [exact Hn|]. split; [exact Hm|]. split; [discriminate|].
  split; [intros x []|exact Hq].
Qed.

Lemma server_turn (t : ItemType) (newItem : Item) (m : Match) (c : nat) (st : Store) :
  let l := fst (orient t newItem (m_item m)) in
  let f := snd (orient t newItem (m_item m)) in
  turn_writes server_writer t newItem m st
    (snd (bind (Functions.matchExists (item_id l) (item_id f))
            (fun exists_ =>
               if negb exists_ then
                 bind (Functions.createNotification l f (m_score m) (m_details m))
                      (fun _ => ret (S c))
               else ret c) st)).
Proof.
  cbv zeta. unfold Functions.matchExists.
  set (l := fst (orient t newItem (m_item m))).
  set (f := snd (orient t newItem (m_item m))).
  destruct (match_query_cases (item_id l) (item_id f) st) as [fs [H|H]].
  2:{ rewrite (bind_throw _ _ _ _ _ H). apply turn_writes_nothing; try reflexivity; first [left; reflexivity | right; reflexivity]. }
  rewrite (bind_ok _ _ _ _ _ H).
  destruct (has_record (item_id l) (item_id f) st) eqn:Hr; cbn [negb].
  { apply turn_writes_nothing; try reflexivity; first [left; reflexivity | right; reflexivity]. }
  unfold Functions.createNotification.
  destruct (String.eqb (uid l) (uid f)) eqn:Hu.
  { apply turn_writes_nothing; try reflexivity; first [left; reflexivity | right; reflexivity]. }
  set (st1 := log_query (item_id l) (item_id f) (set_faults fs st)).
  destruct (add_notification_cases
              (Functions.notification l f (m_score m) (m_details m)) st1)
    as [fs1 [H1|H1]].
  2:{ rewrite (bind_throw _ _ _ _ _ (bind_throw _ _ _ _ _ H1)).
      apply turn_writes_nothing; try reflexivity; first [left; reflexivity | right; reflexivity]. }
  set (st2 := push_notification _ (set_faults fs1 st1)) in H1.
  destruct (add_match_cases (Functions.matchRecord l f (m_score m) (m_details m)) st2)
    as [fs2 [H2|H2]].
  - assert (E : Functions.createNotification l f (m_score m) (m_details m) st1
                = (Ok (Some (Functions.notification l f (m_score m) (m_details m))),
                   push_match (Functions.matchRecord l f (m_score m) (m_details m))
                     (set_faults fs2 st2))).
    { unfold Functions.createNotification. rewrite Hu.
      rewrite (bind_ok _ _ _ _ _ H1). rewrite (bind_ok _ _ _ _ _ H2). reflexivity. }
    unfold Functions.createNotification in E. rewrite Hu in E.
    rewrite (bind_ok _ _ _ _ _ E). cbn [snd ret].
    split; [reflexivity|].
    exists true, [Functions.notification l f (m_score m) (m_details m)].
    split; [reflexivity|]. split; [reflexivity|].
    split; [intros _; split|split; [intros x Hx; exact Hx|right; reflexivity]].
    + unfold fresh, pair_ids. cbn [fst snd]. fold l f. rewrite Hr. reflexivity.
    + unfold other_owner. fold l f. rewrite Hu. reflexivity.
  - assert (E : Functions.createNotification l f (m_score m) (m_details m) st1
                = (Throw Unavailable, set_faults fs2 st2)).
    { unfold Functions.createNotification. rewrite Hu.
      rewrite (bind_ok _ _ _ _ _ H1). apply bind_throw. exact H2. }
    unfold Functions.createNotification in E. rewrite Hu in E.
    rewrite (bind_throw _ _ _ _ _ E). cbn [snd].
    split; [reflexivity|].
    exists false, [Functions.notification l f (m_score m) (m_details m)].
    split; [reflexivity|].
    split; [cbn; rewrite app_nil_r; reflexivity|].
    split; [discriminate|].
    split; [intros x Hx; exact Hx|right; reflexivity].
Qed.

Lemma client_turn (t : ItemType) (newItem : Item) (m : Match) (c : nat) (st : Store) :
  let l := fst (orient t newItem (m_item m)) in
  let f := snd (orient t newItem (m_item m)) in
  turn_writes client_writer t newItem m st
    (snd (bind (Dashboard.matchExists (item_id l) (item_id f))
            (fun exists_ =>
               if negb exists_ then
                 bind (Dashboard.createMatchNotification l f (m_score m) (m_details m))
                      (fun _ => ret (S c))
               else ret c) st)).
Proof.
  cbv zeta. unfold Dashboard.matchExists.
  set (l := fst (orient t newItem (m_item m))).
  set (f := snd (orient t newItem (m_item m))).
  destruct (match_query_cases (item_id l) (item_id f) st) as [fs [H|H]].
  2:{ rewrite (bind_throw _ _ _ _ _ H). apply turn_writes_nothing; try reflexivity; first [left; reflexivity | right; reflexivity]. }
  rewrite (bind_ok _ _ _ _ _ H).
  destruct (has_record (item_id l) (item_id f) st) eqn:Hr; cbn [negb].
  { apply turn_writes_nothing; try reflexivity; first [left; reflexivity | right; reflexivity]. }
  destruct (String.eqb (uid l) (uid f)) eqn:Hu.
  { unfold Dashboard.createMatchNotification. rewrite Hu.
    apply turn_writes_nothing; try reflexivity; first [left; reflexivity | right; reflexivity]. }
  set (n1 := Dashboard.lostNotif l f (m_score m) (m_details m)).
  set (n2 := Dashboard.foundNotif l f (m_score m) (m_details m)).
  set (r := Dashboard.matchRecord l f (m_score m) (m_details m)).
  set (st1 := log_query (item_id l) (item_id f) (set_faults fs st)).
  assert (Hcreate : forall out,
            bind (add_notification n1)
              (fun _ => bind (add_notification n2)
                 (fun _ => bind (add_match r) (fun _ => ret (Some (n1, n2))))) st1
            = out ->
            turn_writes client_writer t newItem m st
              (snd (bind (Dashboard.createMatchNotification l f (m_score m)
                            (m_details m))
                         (fun _ => ret (S c)) st1))).
  { intros out Hout.
    assert (Hfresh : fresh t newItem st m = true)
      by (unfold fresh, pair_ids; cbn [fst snd]; fold l f; rewrite Hr; reflexivity).
    assert (Hother : other_owner t newItem m = true)
      by (unfold other_owner; fold l f; rewrite Hu; reflexivity).
    unfold Dashboard.createMatchNotification. rewrite Hu. fold n1 n2 r.
    destruct (add_notification_cases n1 st1) as [fs1 [H1|H1]].
    2:{ rewrite (bind_throw _ _ _ _ _ (bind_throw _ _ _ _ _ H1)).
        apply turn_writes_nothing; try reflexivity; first [left; reflexivity | right; reflexivity]. }
    set (st2 := push_notification n1 (set_faults fs1 st1)) in H1.
    destruct (add_notification_cases n2 st2) as [fs2 [H2|H2]].
    2:{ assert (E : bind (add_notification n1)
                      (fun _ => bind (add_notification n2)
                         (fun _ => bind (add_match r)
                                     (fun _ => ret (Some (n1, n2))))) st1
                    = (Throw Unavailable, set_faults fs2 st2)).
        { rewrite (bind_ok _ _ _ _ _ H1). apply bind_throw. exact H2. }
        rewrite (bind_throw _ _ _ _ _ E). cbn [snd].
        split; [reflexivity|]. exists false, [n1].
        split; [reflexivity|].
        split; [cbn; rewrite app_nil_r; reflexivity|].
        split; [discriminate|].
        split; [intros x [<-|[]]; left; reflexivity|right; reflexivity]. }
    set (st3 := push_notification n2 (set_faults fs2 st2)) in H2.
    destruct (add_match_cases r st3) as [fs3 [H3|H3]].
    - assert (E : bind (add_notification n1)
                    (fun _ => bind (add_notification n2)
                       (fun _ => bind (add_match r)
                                   (fun _ => ret (Some (n1, n2))))) st1
                  = (Ok (Some (n1, n2)), push_match r (set_faults fs3 st3))).
      { rewrite (bind_ok _ _ _ _ _ H1). rewrite (bind_ok _ _ _ _ _ H2).
        rewrite (bind_ok _ _ _ _ _ H3). reflexivity. }
      rewrite (bind_ok _ _ _ _ _ E). cbn [snd ret].
      split; [reflexivity|]. exists true, [n1; n2].
      split; [cbn; rewrite <- app_assoc; reflexivity|].
      split; [reflexivity|].
      split; [intros _; split; assumption|].
      split; [intros x Hx; exact Hx|right; reflexivity].
    - assert (E : bind (add_notification n1)
                    (fun _ => bind (add_notification n2)
                       (fun _ => bind (add_match r)
                                   (fun _ => ret (Some (n1, n2))))) st1
                  = (Throw Unavailable, set_faults fs3 st3)).
      { rewrite (bind_ok _ _ _ _ _ H1). rewrite (bind_ok _ _ _ _ _ H2).
        apply bind_throw. exact H3. }
      rewrite (bind_throw _ _ _ _ _ E). cbn [snd].
      split; [reflexivity|]. exists false, [n1; n2].
      split; [cbn; rewrite <- app_assoc; reflexivity|].
      split; [cbn; rewrite app_nil_r; reflexivity|].
      split; [discriminate|].
      split; [intros x Hx; exact Hx|right; reflexivity]. }
  exact (Hcreate _ eq_refl).
Qed.

Lemma notifyFoundMatch_turn (newItem : Item) (m : Match) (c : nat) (st : Store) :
  turn_writes server_writer lost newItem m st
    (snd (Functions.notifyFoundMatch newItem m c st)).
Proof. exact (server_turn lost newItem m c st). Qed.

Lemma notifyLostMatch_turn (newItem : Item) (m : Match) (c : nat) (st : Store) :
  turn_writes server_writer found newItem m st
    (snd (Functions.notifyLostMatch newItem m c st)).
Proof. exact (server_turn found newItem m c st). Qed.

Lemma notifyMatch_turn (newItem : Item) (m : Match) (c : nat) (st : Store) :
  turn_writes client_writer (item_type newItem) newItem m st
    (snd (Dashboard.notifyMatch newItem m c st)).
Proof.
  pose proof (client_turn (item_type newItem) newItem m c st) as H. cbv zeta in H.
  unfold Dashboard.notifyMatch. rewrite roles_orient.
  destruct (orient (item_type newItem) newItem (m_item m)) as [l f].
  exact H.
Qed.

(** ** What a whole pass may write, whatever fails *)

Lemma pass_writes_nothing (W : Writer) (t : ItemType) (newItem : Item)
    (ms : list Match) (st st' : Store) :
  same_documents st st' -> queries st' = queries st ->
  pass_writes W t newItem ms st st'.
Proof.
  intros (Hi & Hn & Hm) Hq. split; [exact Hi|]. exists [], [].
  cbn [map]. rewrite !app_nil_r.
  split; [exact Hn|]. split; [exact Hm|].
  split; [intros m []|]. split; [constructor|]. split; [intros n []|].
  exists []. cbn [map]. rewrite app_nil_r. split; [exact Hq|intros x []].
Qed.

Lemma fresh_monotone (t : ItemType) (newItem : Item) (st st' : Store)
    (rs : list MatchRecord) (m : Match) :
  matches st' = matches st ++ rs ->
  fresh t newItem st' m = true -> fresh t newItem st m = true.
Proof.
  unfold fresh, has_record. intros ->. rewrite existsb_app.
  destruct (existsb _ (matches st)); [discriminate|reflexivity].
Qed.

Lemma for_of_writes (W : Writer) (t : ItemType) (newItem : Item)
    (body : Match -> nat -> Async nat) (ms : list Match) :
  (forall m c st, turn_writes W t newItem m st (snd (body m c st))) ->
  NoDup (candidate_ids ms) ->
  forall c st, pass_writes W t newItem ms st (snd (for_of ms body c st)).
Proof.
  intros Hbody. induction ms as [|m ms IH]; intros Hnd c st.
  - apply pass_writes_nothing; repeat split.
  - cbn [candidate_ids map] in Hnd. apply NoDup_cons_iff in Hnd as [Hm Hnd].
    pose proof (Hbody m c st) as Hturn.
    cbn [for_of]. unfold bind at 1.
    destruct (body m c st) as [[c'|e] stm] eqn:E; cbn [snd] in Hturn.
    + specialize (IH Hnd c' stm).
      destruct Hturn as (Hi & b & ns & Hn & Hr & Hb & Hns & Hq).
      destruct IH as (Hi' & kept & ns' & Hn' & Hr' & Hk & Hkn & Hns' & chk & Hq' & Hchk).
      split; [congruence|].
      exists ((if b then [m] else []) ++ kept), (ns ++ ns').
      split; [rewrite Hn', Hn, app_assoc; reflexivity|].
      split; [rewrite Hr', Hr, map_app, app_assoc; destruct b; reflexivity|].
      split; [|split; [|split]].
      * intros x Hx. apply in_app_or in Hx as [Hx|Hx].
        -- destruct b; [|destruct Hx]. destruct Hx as [<-|[]].
           destruct (Hb eq_refl). repeat split; [left; reflexivity|assumption..].
        -- destruct (Hk x Hx) as (H1 & H2 & H3).
           repeat split; [right; assumption| |assumption].
           eapply fresh_monotone; [exact Hr|exact H2].
      * unfold candidate_ids. rewrite map_app. fold (candidate_ids kept).
        destruct b; cbn [map app]; [|exact Hkn].
        constructor; [|exact Hkn].
        intros Hin. apply Hm. unfold candidate_ids in *.
        apply in_map_iff in Hin as [x [Hx Hin]].
        apply in_map_iff. exists x. split; [exact Hx|].
        apply (Hk x Hin).
      * intros n Hn0. apply in_app_or in Hn0 as [Hn0|Hn0].
        -- exists m. split; [left; reflexivity|apply Hns; exact Hn0].
        -- destruct (Hns' n Hn0) as [x [Hx Hxn]]. exists x.
           split; [right; exact Hx|exact Hxn].
      * destruct Hq as [Hq|Hq].
        -- exists chk. split; [rewrite Hq', Hq; reflexivity|].
           intros x Hx. right. apply Hchk. exact Hx.
        -- exists (m :: chk). split.
           ++ rewrite Hq', Hq. cbn [map]. rewrite <- app_assoc. reflexivity.
           ++ intros x [<-|Hx]; [left; reflexivity|right; apply Hchk; exact Hx].
    + cbn [snd].
      destruct Hturn as (Hi & b & ns & Hn & Hr & Hb & Hns & Hq).
      split; [exact Hi|].
      exists (if b then [m] else []), ns.
      split; [exact Hn|].
      split; [rewrite Hr; destruct b; reflexivity|].
      split; [|split; [|split]].
      * intros x Hx. destruct b; [|destruct Hx]. destruct Hx as [<-|[]].
        destruct (Hb eq_refl). repeat split; [left; reflexivity|assumption..].
      * destruct b; cbn; repeat constructor. intros [].
      * intros n Hn0. exists m. split; [left; reflexivity|apply Hns; exact Hn0].
      * destruct Hq as [Hq|Hq].
        -- exists []. cbn [map]. rewrite app_nil_r. split; [exact Hq|intros x []].
        -- exists [m]. split; [exact Hq|]. intros x [<-|[]]. left. reflexivity.
Qed.

Lemma findMatches_writes (now : Z) (newItem : Item) (st : Store) :
  store_ok st ->
  pass_writes client_writer (item_type newItem) newItem
    (client_ranked now newItem st) st
    (snd (Dashboard.findMatches now newItem st)).
Proof.
  intros Hok. unfold Dashboard.findMatches.
  replace (if ItemType_eqb (item_type newItem) lost then found else lost)
    with (opposite (item_type newItem)) by (destruct (item_type newItem); reflexivity).
  destruct (open_items_cases (opposite (item_type newItem)) st) as [fs [H|H]].
  - rewrite (bind_ok _ _ _ _ _ H).
    exact (for_of_writes client_writer (item_type newItem) newItem
             (Dashboard.notifyMatch newItem) (client_ranked now newItem st)
             (notifyMatch_turn newItem)
             (client_ranked_NoDup now newItem st Hok) 0 (set_faults fs st)).
  - rewrite (bind_throw _ _ _ _ _ H). apply pass_writes_nothing; repeat split.
Qed.

Lemma snd_bind_ret {A B : Type} (c : Async A) (g : A -> B) (st : Store) :
  snd (bind c (fun a => ret (g a)) st) = snd (c st).
Proof. unfold bind, ret. destruct (c st) as [[a|e] st']; reflexivity. Qed.

Lemma onLostItemCreated_writes (now : Z) (newItem : Item) (st : Store) :
  store_ok st ->
  (same_documents st (snd (Functions.onLostItemCreated now newItem st))
   /\ queries (snd (Functions.onLostItemCreated now newItem st)) = queries st)
  \/ pass_writes server_writer lost newItem
       (lost_trigger_ranked now newItem (enriched_store newItem st))
       (enriched_store newItem st)
       (snd (Functions.onLostItemCreated now newItem st)).
Proof.
  intros Hok. unfold Functions.onLostItemCreated.
  destruct (negb (ItemType_eqb (item_type newItem) lost)).
  { left. repeat split. }
  destruct (update_item_cases (item_id newItem)
              (enrich (Functions.extractKeywords (Some (item_text newItem)))
                      (Functions.normalizeLocation (location newItem))) st)
    as [fs [H|[e H]]].
  2:{ left. rewrite (bind_throw _ _ _ _ _ H). repeat split. }
  rewrite (bind_ok _ _ _ _ _ H).
  match type of H with _ = (_, ?s) => set (su := s) in * end.
  right.
  destruct (open_items_cases found su) as [fs' [H'|H']].
  2:{ rewrite (bind_throw _ _ _ _ _ H'). apply pass_writes_nothing; repeat split. }
  rewrite (bind_ok _ _ _ _ _ H'). rewrite snd_bind_ret.
  exact (for_of_writes server_writer lost newItem
           (Functions.notifyFoundMatch newItem)
           (lost_trigger_ranked now newItem (enriched_store newItem st))
           (notifyFoundMatch_turn newItem)
           (lost_trigger_ranked_NoDup now newItem _
              (enriched_store_ok newItem st Hok))
           0 (set_faults fs' su)).
Qed.

Lemma onFoundItemCreated_writes (now : Z) (newItem : Item) (st : Store) :
  store_ok st ->
  (same_documents st (snd (Functions.onFoundItemCreated now newItem st))
   /\ queries (snd (Functions.onFoundItemCreated now newItem st)) = queries st)
  \/ pass_writes server_writer found newItem
       (found_trigger_ranked now newItem (enriched_store newItem st))
       (enriched_store newItem st)
       (snd (Functions.onFoundItemCreated now newItem st)).
Proof.
  intros Hok. unfold Functions.onFoundItemCreated.
  destruct (negb (ItemType_eqb (item_type newItem) found)).
  { left. repeat split. }
  destruct (update_item_cases (item_id newItem)
              (enrich (Functions.extractKeywords (Some (item_text newItem)))
                      (Functions.normalizeLocation (location newItem))) st)
    as [fs [H|[e H]]].
  2:{ left. rewrite (bind_throw _ _ _ _ _ H). repeat split. }
  rewrite (bind_ok _ _ _ _ _ H).
  match type of H with _ = (_, ?s) => set (su := s) in * end.
  right.
  destruct (open_items_cases lost su) as [fs' [H'|H']].
  2:{ rewrite (bind_throw _ _ _ _ _ H'). apply pass_writes_nothing; repeat split. }
  rewrite (bind_ok _ _ _ _ _ H'). rewrite snd_bind_ret.
  exact (for_of_writes server_writer found newItem
           (Functions.notifyLostMatch newItem)
           (found_trigger_ranked now newItem (enriched_store newItem st))
           (notifyLostMatch_turn newItem)
           (found_trigger_ranked_NoDup now newItem _
              (enriched_store_ok newItem st Hok))
           0 (set_faults fs' su)).
Qed.

(** ** Counting what a pass wrote for one pair *)

Lemma about_pair_notification (W : Writer) (t : ItemType) (newItem : Item)
    (m m' : Match) (n : Notification) :
  writer_ok W -> In n (notifications_for W t newItem m) ->
  about_pair (fst (pair_ids t newItem m')) (snd (pair_ids t newItem m')) n
  = String.eqb (item_id (m_item m)) (item_id (m_item m')).
Proof.
  intros HW Hn. unfold about_pair, notifications_for in *.
  destruct (HW (fst (orient t newItem (m_item m))) (snd (orient t newItem (m_item m)))
               (m_score m) (m_details m)) as (_ & _ & Hall).
  rewrite Forall_forall in Hall. destruct (Hall n Hn) as [-> ->].
  destruct t; cbn; rewrite String.eqb_refl;
    [reflexivity | apply andb_true_r].
Qed.

Lemma filter_about_pair (W : Writer) (t : ItemType) (newItem : Item) (m m' : Match) :
  writer_ok W ->
  filter (about_pair (fst (pair_ids t newItem m')) (snd (pair_ids t newItem m')))
         (notifications_for W t newItem m)
  = if String.eqb (item_id (m_item m)) (item_id (m_item m'))
    then notifications_for W t newItem m else [].
Proof.
  intros HW.
  destruct (String.eqb (item_id (m_item m)) (item_id (m_item m'))) eqn:E.
  - apply filter_all. intros n Hn.
    rewrite (about_pair_notification W t newItem m m' n HW Hn). exact E.
  - apply filter_none. intros n Hn.
    rewrite (about_pair_notification W t newItem m m' n HW Hn). exact E.
Qed.

Section OnePair.

Variables (W : Writer) (t : ItemType) (newItem : Item) (keep : Match -> bool).
Hypothesis HW : writer_ok W.

Lemma no_record_of_stranger (m : Match) (ms : list Match) :
  ~ In (item_id (m_item m)) (candidate_ids ms) ->
  filter (same_pair (fst (pair_ids t newItem m)) (snd (pair_ids t newItem m)))
         (map (record_for W t newItem) (filter keep ms)) = []
  /\ filter (about_pair (fst (pair_ids t newItem m)) (snd (pair_ids t newItem m)))
            (flat_map (notifications_for W t newItem) (filter keep ms)) = [].
Proof.
  induction ms as [|m0 ms IH]; intros Hm; [split; reflexivity|].
  cbn [candidate_ids map] in Hm.
  assert (Hne : String.eqb (item_id (m_item m0)) (item_id (m_item m)) = false).
  { apply String.eqb_neq. intros E. apply Hm. left. exact E. }
  destruct (IH (fun H => Hm (or_intror H))) as [IH1 IH2].
  cbn [filter]. destruct (keep m0); [|split; assumption].
  cbn [map flat_map filter]. rewrite filter_app.
  rewrite (same_pair_record W t newItem m0 m HW), Hne.
  rewrite (filter_about_pair W t newItem m0 m HW), Hne.
  split; assumption.
Qed.

Lemma writes_of_candidate (m : Match) (ms : list Match) :
  NoDup (candidate_ids ms) -> In m ms ->
  filter (same_pair (fst (pair_ids t newItem m)) (snd (pair_ids t newItem m)))
         (map (record_for W t newItem) (filter keep ms))
  = (if keep m then [record_for W t newItem m] else [])
  /\ filter (about_pair (fst (pair_ids t newItem m)) (snd (pair_ids t newItem m)))
            (flat_map (notifications_for W t newItem) (filter keep ms))
     = (if keep m then notifications_for W t newItem m else []).
Proof.
  induction ms as [|m0 ms IH]; intros Hnd Hm; [destruct Hm|].
  cbn [candidate_ids map] in Hnd. apply NoDup_cons_iff in Hnd as [H0 Hnd].
  destruct Hm as [->|Hm].
  - destruct (no_record_of_stranger m ms H0) as [N1 N2].
    cbn [filter]. destruct (keep m); [|split; assumption].
    cbn [map flat_map filter]. rewrite filter_app.
    rewrite (same_pair_record W t newItem m m HW), String.eqb_refl.
    rewrite (filter_about_pair W t newItem m m HW), String.eqb_refl.
    rewrite N1, N2, app_nil_r. split; reflexivity.
  - destruct (IH Hnd Hm) as [IH1 IH2].
    assert (Hne : String.eqb (item_id (m_item m0)) (item_id (m_item m)) = false).
    { apply String.eqb_neq. intros E. apply H0. rewrite E.
      unfold candidate_ids. apply in_map_iff. exists m. split; [reflexivity|exact Hm]. }
    cbn [filter]. destruct (keep m0); [|split; assumption].
    cbn [map flat_map filter]. rewrite filter_app.
    rewrite (same_pair_record W t newItem m0 m HW), Hne.
    rewrite (filter_about_pair W t newItem m0 m HW), Hne.
    split; assumption.
Qed.

End OnePair.

(** The records and the notifications of the pair of a candidate, after a
    pass on a store without faults. *)
Lemma counts_after_pass (W : Writer) (t : ItemType) (newItem : Item)
    (ms : list Match) (st : Store) (m : Match) :
  writer_ok W -> NoDup (candidate_ids ms) -> In m ms ->
  let l := fst (pair_ids t newItem m) in
  let f := snd (pair_ids t newItem m) in
  let wrote := fresh t newItem st m && other_owner t newItem m in
  count_records l f (store_after W t newItem ms st)
  = count_records l f st + (if wrote then 1 else 0)
  /\ count_notifications l f (store_after W t newItem ms st)
     = count_notifications l f st
       + (if wrote then List.length (notifications_for W t newItem m) else 0).
Proof.
  intros HW Hnd Hm. cbv zeta.
  unfold count_records, count_notifications, store_after, written.
  cbn [matches notifications]. rewrite !filter_app, !length_app.
  destruct (writes_of_candidate W t newItem
              (fun m0 => fresh t newItem st m0 && other_owner t newItem m0)
              HW m ms Hnd Hm) as [-> ->].
  destruct (fresh t newItem st m && other_owner t newItem m); split; reflexivity.
Qed.

Lemma count_zero_fresh (t : ItemType) (newItem : Item) (st : Store) (m : Match) :
  count_records (fst (pair_ids t newItem m)) (snd (pair_ids t newItem m)) st = 0 ->
  fresh t newItem st m = true.
Proof.
  unfold count_records, fresh, has_record. intros H.
  destruct (existsb _ (matches st)) eqn:E; [|reflexivity].
  apply existsb_exists in E as [r [Hr Hs]].
  assert (In r (filter (same_pair (fst (pair_ids t newItem m))
                                  (snd (pair_ids t newItem m))) (matches st)))
    by (apply filter_In; split; assumption).
  destruct (filter _ (matches st)); [contradiction|discriminate].
Qed.


(** ** What the count of a pass counts *)






(** ** Two passes in sequence

    Each pass reads the clock for itself: [now1] is the reading of the first
    pass and [now2] the reading of the second. *)

Lemma findMatches_twice_store (now1 now2 : Z) (newItem : Item) (st : Store) :
  quiet st -> store_ok st ->
  snd (Dashboard.findMatches now1 newItem st)
  = store_after client_writer (item_type newItem) newItem
      (client_ranked now1 newItem st) st
  /\ snd (Dashboard.findMatches now2 newItem
            (snd (Dashboard.findMatches now1 newItem st)))
     = store_after client_writer (item_type newItem) newItem
         (client_ranked now2 newItem st)
         (store_after client_writer (item_type newItem) newItem
            (client_ranked now1 newItem st) st).
Proof.
  intros Q Hok. rewrite (findMatches_effect now1 newItem st Q Hok). cbn [snd].
  split; [reflexivity|].
  rewrite (findMatches_effect now2 newItem
             (store_after client_writer (item_type newItem) newItem
                (client_ranked now1 newItem st) st) Q Hok).
  reflexivity.
Qed.

Lemma lost_trigger_twice_store (now1 now2 : Z) (newItem : Item) (st : Store) :
  quiet st -> store_ok st -> posted newItem st -> item_type newItem = lost ->
  snd (Functions.onLostItemCreated now1 newItem st)
  = store_after server_writer lost newItem (lost_trigger_ranked now1 newItem st)
      (enriched_store newItem st)
  /\ snd (Functions.onLostItemCreated now2 newItem
            (snd (Functions.onLostItemCreated now1 newItem st)))
     = store_after server_writer lost newItem (lost_trigger_ranked now2 newItem st)
         (store_after server_writer lost newItem (lost_trigger_ranked now1 newItem st)
            (enriched_store newItem st)).
Proof.
  intros Q Hok P T.
  rewrite (proj1 (triggers_effect now1 newItem st Q Hok P) T). cbn [snd].
  split; [reflexivity|].
  set (ms := lost_trigger_ranked now1 newItem st).
  set (st1 := store_after server_writer lost newItem ms (enriched_store newItem st)).
  assert (Q1 : quiet st1) by exact Q.
  assert (Hok1 : store_ok st1) by (apply (enriched_store_ok newItem st Hok)).
  assert (P1 : posted newItem st1) by (apply (enriched_store_posted newItem st P)).
  rewrite (proj1 (triggers_effect now2 newItem st1 Q1 Hok1 P1) T). cbn [snd].
  assert (Hms : lost_trigger_ranked now2 newItem st1
                = lost_trigger_ranked now2 newItem st).
  { change (lost_trigger_ranked now2 newItem st1)
      with (lost_trigger_ranked now2 newItem (enriched_store newItem st)).
    apply lost_trigger_ranked_enriched; assumption. }
  rewrite Hms. f_equal.
  unfold st1. rewrite store_after_enriched, enriched_store_idem. reflexivity.
Qed.

Lemma found_trigger_twice_store (now1 now2 : Z) (newItem : Item) (st : Store) :
  quiet st -> store_ok st -> posted newItem st -> item_type newItem = found ->
  snd (Functions.onFoundItemCreated now1 newItem st)
  = store_after server_writer found newItem (found_trigger_ranked now1 newItem st)
      (enriched_store newItem st)
  /\ snd (Functions.onFoundItemCreated now2 newItem
            (snd (Functions.onFoundItemCreated now1 newItem st)))
     = store_after server_writer found newItem (found_trigger_ranked now2 newItem st)
         (store_after server_writer found newItem
            (found_trigger_ranked now1 newItem st) (enriched_store newItem st)).
Proof.
  intros Q Hok P T.
  rewrite (proj2 (triggers_effect now1 newItem st Q Hok P) T). cbn [snd].
  split; [reflexivity|].
  set (ms := found_trigger_ranked now1 newItem st).
  set (st1 := store_after server_writer found newItem ms (enriched_store newItem st)).
  assert (Q1 : quiet st1) by exact Q.
  assert (Hok1 : store_ok st1) by (apply (enriched_store_ok newItem st Hok)).
  assert (P1 : posted newItem st1) by (apply (enriched_store_posted newItem st P)).
  rewrite (proj2 (triggers_effect now2 newItem st1 Q1 Hok1 P1) T). cbn [snd].
  assert (Hms : found_trigger_ranked now2 newItem st1
                = found_trigger_ranked now2 newItem st).
  { change (found_trigger_ranked now2 newItem st1)
      with (found_trigger_ranked now2 newItem (enriched_store newItem st)).
    apply found_trigger_ranked_enriched; assumption. }
  rewrite Hms. f_equal.
  unfold st1. rewrite store_after_enriched, enriched_store_idem. reflexivity.
Qed.

(** A pass writes nothing for a pair that the store already holds a record
    of, whatever its candidates are. *)
Lemma pass_keeps_recorded_pair (W : Writer) (t : ItemType) (newItem : Item)
    (ms : list Match) (st : Store) (l f : string) :
  writer_ok W -> has_record l f st = true ->
  count_records l f (store_after W t newItem ms st) = count_records l f st
  /\ count_notifications l f (store_after W t newItem ms st)
     = count_notifications l f st.
Proof.
  intros HW Hr.
  assert (Hfresh : forall m, In m (written t newItem st ms) ->
            fst (pair_ids t newItem m) = l -> snd (pair_ids t newItem m) = f ->
            False).
  { intros m Hm El Ef. unfold written in Hm. apply filter_In in Hm as [_ Hm].
    apply andb_true_iff in Hm as [Hm _]. unfold fresh in Hm.
    rewrite El, Ef, Hr in Hm. discriminate. }
  unfold count_records, count_notifications, store_after.
  cbn [matches notifications]. rewrite !filter_app, !length_app.
  assert (E1 : filter (same_pair l f)
                 (map (record_for W t newItem) (written t newItem st ms)) = []).
  { apply filter_none. intros r Hin. apply in_map_iff in Hin as [m [<- Hm]].
    apply not_true_is_false. intros E. unfold same_pair, record_for in E.
    destruct (HW (fst (orient t newItem (m_item m)))
                 (snd (orient t newItem (m_item m)))
                 (m_score m) (m_details m)) as (E1 & E2 & _).
    rewrite E1, E2 in E. apply andb_true_iff in E as [El Ef].
    apply String.eqb_eq in El, Ef. exact (Hfresh m Hm El Ef). }
  assert (E2 : filter (about_pair l f)
                 (flat_map (notifications_for W t newItem) (written t newItem st ms))
               = []).
  { apply filter_none. intros n Hin. apply in_flat_map in Hin as [m [Hm Hn]].
    apply not_true_is_false. intros E. unfold about_pair in E.
    unfold notifications_for in Hn.
    destruct (HW (fst (orient t newItem (m_item m)))
                 (snd (orient t newItem (m_item m)))
                 (m_score m) (m_details m)) as (_ & _ & Hall).
    rewrite Forall_forall in Hall. destruct (Hall n Hn) as [E1' E2'].
    rewrite E1', E2' in E. apply andb_true_iff in E as [El Ef].
    apply String.eqb_eq in El, Ef. exact (Hfresh m Hm El Ef). }
  rewrite E1, E2. cbn [List.length]. split; lia.
Qed.

(** The counts of a pair after one pass and after two, for a candidate of
    another owner whose pair had no record and no notification.  The second
    pass may run over other candidates [ms2]. *)
Lemma counts_after_two_passes (W : Writer) (k : nat) (t : ItemType) (newItem : Item)
    (ms ms2 : list Match) (st : Store) (m : Match) :
  writer_ok W -> (forall x, List.length (notifications_for W t newItem x) = k) ->
  NoDup (candidate_ids ms) -> In m ms ->
  other_owner t newItem m = true ->
  count_records (fst (pair_ids t newItem m)) (snd (pair_ids t newItem m)) st = 0 ->
  count_notifications (fst (pair_ids t newItem m)) (snd (pair_ids t newItem m)) st = 0 ->
  let st1 := store_after W t newItem ms st in
  let st2 := store_after W t newItem ms2 st1 in
  count_records (fst (pair_ids t newItem m)) (snd (pair_ids t newItem m)) st1 = 1
  /\ count_notifications (fst (pair_ids t newItem m)) (snd (pair_ids t newItem m)) st1 = k
  /\ count_records (fst (pair_ids t newItem m)) (snd (pair_ids t newItem m)) st2 = 1
  /\ count_notifications (fst (pair_ids t newItem m)) (snd (pair_ids t newItem m)) st2 = k.
Proof.
  intros HW Hk Hnd Hm Ho Hr Hn. cbv zeta.
  pose proof (count_zero_fresh t newItem st m Hr) as Hf.
  destruct (counts_after_pass W t newItem ms st m HW Hnd Hm) as [R1 N1].
  cbv zeta in R1, N1. rewrite Hf, Ho, Hr, Hk in *. cbn [andb] in R1, N1.
  assert (Hrec : has_record (fst (pair_ids t newItem m)) (snd (pair_ids t newItem m))
                   (store_after W t newItem ms st) = true).
  { pose proof (fresh_after_pass W t newItem ms st m HW Hnd Hm) as F.
    rewrite Hf, Ho in F. cbn [andb negb] in F. unfold fresh in F.
    apply negb_false_iff in F. exact F. }
  destruct (pass_keeps_recorded_pair W t newItem ms2 (store_after W t newItem ms st)
              _ _ HW Hrec) as [R2 N2].
  rewrite R2, N2, R1, N1. repeat split; lia.
Qed.

(** C2, as the code has it.  On a store without faults whose documents have
    distinct ids, let a pass run twice in sequence for the same new item,
    each run with its own reading of the clock, and take a top match of the
    first run whose owner is another user and whose pair had no match record
    and no notification.  After the first pass the pair has exactly one
    match record; the duplicate check of the second pass finds it, so after
    the second pass the pair still has exactly one match record, with
    exactly two notifications when the pass is [findMatches] and exactly
    one, for the owner of the lost item, when it is a creation trigger. *)
Theorem C2_two_passes (now1 now2 : Z) (newItem : Item) (st : Store) :
  quiet st -> store_ok st ->
  (forall m, In m (client_ranked now1 newItem st) ->
     other_owner (item_type newItem) newItem m = true ->
     let l := fst (pair_ids (item_type newItem) newItem m) in
     let f := snd (pair_ids (item_type newItem) newItem m) in
     count_records l f st = 0 -> count_notifications l f st = 0 ->
     let st1 := snd (Dashboard.findMatches now1 newItem st) in
     let st2 := snd (Dashboard.findMatches now2 newItem st1) in
     count_records l f st1 = 1 /\ count_notifications l f st1 = 2
     /\ count_records l f st2 = 1 /\ count_notifications l f st2 = 2)
  /\ (posted newItem st -> item_type newItem = lost ->
      forall m, In m (lost_trigger_ranked now1 newItem st) ->
        other_owner lost newItem m = true ->
        let l := fst (pair_ids lost newItem m) in
        let f := snd (pair_ids lost newItem m) in
        count_records l f st = 0 -> count_notifications l f st = 0 ->
        let st1 := snd (Functions.onLostItemCreated now1 newItem st) in
        let st2 := snd (Functions.onLostItemCreated now2 newItem st1) in
        count_records l f st1 = 1 /\ count_notifications l f st1 = 1
        /\ count_records l f st2 = 1 /\ count_notifications l f st2 = 1)
  /\ (posted newItem st -> item_type newItem = found ->
      forall m, In m (found_trigger_ranked now1 newItem st) ->
        other_owner found newItem m = true ->
        let l := fst (pair_ids found newItem m) in
        let f := snd (pair_ids found newItem m) in
        count_records l f st = 0 -> count_notifications l f st = 0 ->
        let st1 := snd (Functions.onFoundItemCreated now1 newItem st) in
        let st2 := snd (Functions.onFoundItemCreated now2 newItem st1) in
        count_records l f st1 = 1 /\ count_notifications l f st1 = 1
        /\ count_records l f st2 = 1 /\ count_notifications l f st2 = 1).
Proof.
  intros Q Hok. split; [|split].
  - intros m Hm Ho l f Hr Hn st1 st2. subst st1 st2 l f.
    destruct (findMatches_twice_store now1 now2 newItem st Q Hok) as [-> ->].
    exact (counts_after_two_passes client_writer 2 (item_type newItem) newItem
             (client_ranked now1 newItem st) (client_ranked now2 newItem st) st m
             client_writer_ok (fun _ => eq_refl)
             (client_ranked_NoDup now1 newItem st Hok) Hm Ho Hr Hn).
  - intros P T m Hm Ho l f Hr Hn st1 st2. subst st1 st2 l f.
    destruct (lost_trigger_twice_store now1 now2 newItem st Q Hok P T) as [-> ->].
    exact (counts_after_two_passes server_writer 1 lost newItem
             (lost_trigger_ranked now1 newItem st)
             (lost_trigger_ranked now2 newItem st) (enriched_store newItem st) m
             server_writer_ok (fun _ => eq_refl)
             (lost_trigger_ranked_NoDup now1 newItem st Hok) Hm Ho Hr Hn).
  - intros P T m Hm Ho l f Hr Hn st1 st2. subst st1 st2 l f.
    destruct (found_trigger_twice_store now1 now2 newItem st Q Hok P T) as [-> ->].
    exact (counts_after_two_passes server_writer 1 found newItem
             (found_trigger_ranked now1 newItem st)
             (found_trigger_ranked now2 newItem st) (enriched_store newItem st) m
             server_writer_ok (fun _ => eq_refl)
             (found_trigger_ranked_NoDup now1 newItem st Hok) Hm Ho Hr Hn).
Qed.

Lemma C2_witness :
  quiet sample_store /\ store_ok sample_store
  /\ In sample_top_match (client_ranked sample_now lost_bag sample_store)
  /\ (let l := fst (pair_ids lost lost_bag sample_top_match) in
      let f := snd (pair_ids lost lost_bag sample_top_match) in
      let st1 := snd (Dashboard.findMatches sample_now lost_bag sample_store) in
      let st2 := snd (Dashboard.findMatches (sample_now + 1000) lost_bag st1) in
      count_records l f st1 = 1 /\ count_notifications l f st1 = 2
      /\ count_records l f st2 = 1 /\ count_notifications l f st2 = 2).
Proof.
  assert (Hin : In sample_top_match (client_ranked sample_now lost_bag sample_store))
    by (vm_compute; left; reflexivity).
  refine (conj eq_refl (conj sample_store_ok (conj Hin _))).
  apply (proj1 (C2_two_passes sample_now (sample_now + 1000) lost_bag sample_store
                  eq_refl sample_store_ok) sample_top_match Hin); reflexivity.
Defined.

(** The claim fails on the creation triggers: after [onLostItemCreated] has
    run twice for the lost bag, the pair it forms with its best match, a
    found bag of another user, has one match record and one notification,
    not two. *)
Lemma C2_counterexample :
  let st1 := snd (Functions.onLostItemCreated sample_now lost_bag sample_store) in
  let st2 := snd (Functions.onLostItemCreated (sample_now + 1000) lost_bag st1) in
  In sample_top_match (lost_trigger_ranked sample_now lost_bag sample_store)
  /\ uid (m_item sample_top_match) <> uid lost_bag
  /\ (50 <= m_score sample_top_match)%Z
  /\ count_records (item_id lost_bag) (item_id (m_item sample_top_match)) st2 = 1
  /\ count_notifications (item_id lost_bag) (item_id (m_item sample_top_match)) st2 = 1.
Proof.
  cbv zeta. split; [vm_compute; left; reflexivity|].
  split; [vm_compute; discriminate|].
  split; [vm_compute; discriminate|].
  split; vm_compute; reflexivity.
Qed.

(** ** A rejected request *)





(** ** The orientation of the pairs *)

Lemma top_candidates_in_pool (now : Z) (calc : Item -> ScoreResult)
    (docs : list Item) (m : Match) :
  In m (JS.slice0 3 (JS.sort_desc m_score (candidates now calc docs))) ->
  In (m_item m) docs.
Proof.
  unfold JS.slice0. intros H.
  assert (H1 : In m (JS.sort_desc m_score (candidates now calc docs))).
  { rewrite <- (firstn_skipn 3 (JS.sort_desc m_score (candidates now calc docs))).
    apply in_or_app. left. exact H. }
  apply (Permutation_in _ (sort_desc_perm m_score _)) in H1.
  unfold candidates in H1. apply in_map_iff in H1 as [d [<- Hd]].
  apply filter_In in Hd as [Hd _]. exact Hd.
Qed.

Lemma pool_In (t : ItemType) (st : Store) (d : Item) :
  In d (pool t st) -> In d (items st) /\ item_type d = t.
Proof.
  unfold pool. intros H. apply filter_In in H as [Hd Ht]. split; [exact Hd|].
  apply andb_true_iff in Ht as [Ht _].
  destruct (item_type d), t; try reflexivity; discriminate.
Qed.

Lemma orient_oriented (newItem : Item) (st : Store) (m : Match) :
  id_of_type (opposite (item_type newItem)) newItem st (item_id (m_item m)) ->
  oriented newItem st (pair_ids (item_type newItem) newItem m).
Proof.
  intros Hc. unfold oriented, pair_ids.
  assert (Hn : id_of_type (item_type newItem) newItem st (item_id newItem)).
  { exists newItem. repeat split. left. reflexivity. }
  destruct (item_type newItem); cbn [orient fst snd opposite] in *; split; assumption.
Qed.

Lemma enriched_store_In (newItem : Item) (st : Store) (d : Item) :
  In d (items (enriched_store newItem st)) ->
  exists d0, In d0 (items st) /\ item_id d0 = item_id d /\ item_type d0 = item_type d.
Proof.
  unfold enriched_store. cbn [items set_items]. intros H.
  apply in_map_iff in H as [d0 [<- Hd0]]. exists d0. split; [exact Hd0|].
  destruct (String.eqb _ _); split; reflexivity.
Qed.

Lemma pass_writes_oriented (W : Writer) (newItem : Item) (ms : list Match)
    (st0 st st' : Store) :
  writer_ok W ->
  matches st = matches st0 -> queries st = queries st0 ->
  notifications st = notifications st0 ->
  (forall m, In m ms ->
     oriented newItem st0 (pair_ids (item_type newItem) newItem m)) ->
  pass_writes W (item_type newItem) newItem ms st st' ->
  adds_oriented newItem st0 st'.
Proof.
  intros HW Em Eq En Hms (_ & kept & ns & Hn & Hr & Hk & _ & Hns & chk & Hq & Hchk).
  exists (map (record_for W (item_type newItem) newItem) kept),
         (map (pair_ids (item_type newItem) newItem) chk), ns.
  rewrite <- Em, <- Eq, <- En.
  split; [exact Hr|]. split; [exact Hq|]. split; [exact Hn|].
  split; [|split].
  - apply Forall_forall. intros r Hin. apply in_map_iff in Hin as [m [<- Hm]].
    unfold record_for.
    destruct (HW (fst (orient (item_type newItem) newItem (m_item m)))
                 (snd (orient (item_type newItem) newItem (m_item m)))
                 (m_score m) (m_details m)) as (-> & -> & _).
    apply (Hms m). apply (Hk m Hm).
  - apply Forall_forall. intros q Hin. apply in_map_iff in Hin as [m [<- Hm]].
    apply Hms. apply Hchk. exact Hm.
  - apply Forall_forall. intros n Hin.
    destruct (Hns n Hin) as [m [Hm Hnm]]. unfold notifications_for in Hnm.
    destruct (HW (fst (orient (item_type newItem) newItem (m_item m)))
                 (snd (orient (item_type newItem) newItem (m_item m)))
                 (m_score m) (m_details m)) as (_ & _ & Hall).
    rewrite Forall_forall in Hall. destruct (Hall n Hnm) as [-> ->].
    apply (Hms m Hm).
Qed.

Lemma adds_oriented_nothing (newItem : Item) (st st' : Store) :
  same_documents st st' -> queries st' = queries st -> adds_oriented newItem st st'.
Proof.
  intros (_ & Hn & Hm) Hq. exists [], [], []. rewrite !app_nil_r.
  repeat split; try assumption; constructor.
Qed.

Lemma client_ranked_oriented (now : Z) (newItem : Item) (st : Store) (m : Match) :
  In m (client_ranked now newItem st) ->
  oriented newItem st (pair_ids (item_type newItem) newItem m).
Proof.
  intros Hm. apply orient_oriented.
  unfold client_ranked in Hm. rewrite rankedMatches_candidates in Hm.
  apply top_candidates_in_pool, pool_In in Hm as [Hd Ht].
  exists (m_item m). repeat split; [right; exact Hd|exact Ht].
Qed.

Lemma trigger_candidate_oriented (newItem : Item) (st : Store) (m : Match) :
  In (m_item m) (pool (opposite (item_type newItem)) (enriched_store newItem st)) ->
  oriented newItem st (pair_ids (item_type newItem) newItem m).
Proof.
  intros Hm. apply orient_oriented. apply pool_In in Hm as [Hd Ht].
  apply enriched_store_In in Hd as (d0 & Hd0 & Hid & Hty).
  exists d0. repeat split; [right; exact Hd0|congruence|exact Hid].
Qed.

Lemma recorded_pair_skipped (l f : string) (c : nat) (k : Async nat) (s : Store) :
  has_record l f s = true ->
  same_documents s
    (snd (bind (match_query_nonempty l f)
            (fun exists_ => if negb exists_ then k else ret c) s)).
Proof.
  intros Hr. destruct (match_query_cases l f s) as [fs [H|H]].
  - rewrite (bind_ok _ _ _ _ _ H), Hr. cbn. repeat split.
  - rewrite (bind_throw _ _ _ _ _ H). cbn. repeat split.
Qed.

(** After a pass on a store without faults, the store holds a record for
    the pair of every candidate of another owner. *)
Lemma recorded_after_pass (W : Writer) (t : ItemType) (newItem : Item)
    (ms : list Match) (st : Store) (m : Match) :
  writer_ok W -> NoDup (candidate_ids ms) -> In m ms ->
  other_owner t newItem m = true ->
  has_record (fst (pair_ids t newItem m)) (snd (pair_ids t newItem m))
             (store_after W t newItem ms st) = true.
Proof.
  intros HW Hnd Hm Ho.
  pose proof (fresh_after_pass W t newItem ms st m HW Hnd Hm) as F.
  rewrite Ho, andb_false_r in F. unfold fresh in F.
  apply negb_false_iff in F. exact F.
Qed.

(** C9.  Whatever requests fail, every match record and every notification
    that a pass adds, and every pair its duplicate check asks for, carries
    as [lostItemId] the id of an item of type lost and as [foundItemId] the
    id of an item of type found, whether the pass is [findMatches] or one of
    the two creation triggers.  On a store without faults, each pass leaves a
    record under (id of the lost item, id of the found item) for every top
    match of another owner.  And a turn of any of the three loops for a pair
    that is recorded under these two ids writes nothing: the duplicate check
    of [onLostItemCreated] for the lost item and the found candidate, the one
    of [onFoundItemCreated] for the found item and the lost candidate, and
    the one of [findMatches] in both directions all ask for the same ids. *)
Theorem C9_orientation (now : Z) (newItem : Item) (st : Store) :
  store_ok st ->
  (adds_oriented newItem st (snd (Dashboard.findMatches now newItem st))
   /\ adds_oriented newItem st (snd (Functions.onLostItemCreated now newItem st))
   /\ adds_oriented newItem st (snd (Functions.onFoundItemCreated now newItem st)))
  /\ (quiet st ->
      (forall m, In m (client_ranked now newItem st) ->
         other_owner (item_type newItem) newItem m = true ->
         (item_type newItem = lost ->
          has_record (item_id newItem) (item_id (m_item m))
                     (snd (Dashboard.findMatches now newItem st)) = true)
         /\ (item_type newItem = found ->
             has_record (item_id (m_item m)) (item_id newItem)
                        (snd (Dashboard.findMatches now newItem st)) = true))
      /\ (posted newItem st -> item_type newItem = lost ->
          forall m, In m (lost_trigger_ranked now newItem st) ->
            other_owner lost newItem m = true ->
            has_record (item_id newItem) (item_id (m_item m))
                       (snd (Functions.onLostItemCreated now newItem st)) = true)
      /\ (posted newItem st -> item_type newItem = found ->
          forall m, In m (found_trigger_ranked now newItem st) ->
            other_owner found newItem m = true ->
            has_record (item_id (m_item m)) (item_id newItem)
                       (snd (Functions.onFoundItemCreated now newItem st)) = true))
  /\ (forall (l f : Item) (m : Match) (c : nat) (s : Store),
        has_record (item_id l) (item_id f) s = true ->
        (item_id (m_item m) = item_id f ->
         same_documents s (snd (Functions.notifyFoundMatch l m c s)))
        /\ (item_id (m_item m) = item_id l ->
            same_documents s (snd (Functions.notifyLostMatch f m c s)))
        /\ (item_type l = lost -> item_id (m_item m) = item_id f ->
            same_documents s (snd (Dashboard.notifyMatch l m c s)))
        /\ (item_type f = found -> item_id (m_item m) = item_id l ->
            same_documents s (snd (Dashboard.notifyMatch f m c s)))).
Proof.
  intros Hok. split; [split; [|split]|split].
  - apply (pass_writes_oriented client_writer newItem
             (client_ranked now newItem st) st st _ client_writer_ok
             eq_refl eq_refl eq_refl).
    + intros m Hm. apply (client_ranked_oriented now newItem st m Hm).
    + apply findMatches_writes. exact Hok.
  - destruct (onLostItemCreated_writes now newItem st Hok) as [[Hs Hq]|Hp].
    + apply adds_oriented_nothing; assumption.
    + destruct (item_type newItem) eqn:T.
      * apply (pass_writes_oriented server_writer newItem
                 (lost_trigger_ranked now newItem (enriched_store newItem st))
                 st (enriched_store newItem st) _ server_writer_ok
                 eq_refl eq_refl eq_refl).
        -- intros m Hm. apply trigger_candidate_oriented. rewrite T.
           apply (top_candidates_in_pool now
                    (Functions.calculateMatchScore (enriched newItem))).
           unfold lost_trigger_ranked, Functions.top3 in Hm.
           rewrite scanFoundItems_candidates in Hm. exact Hm.
        -- rewrite T. exact Hp.
      * apply adds_oriented_nothing.
        -- unfold Functions.onLostItemCreated. rewrite T. repeat split.
        -- unfold Functions.onLostItemCreated. rewrite T. reflexivity.
  - destruct (onFoundItemCreated_writes now newItem st Hok) as [[Hs Hq]|Hp].
    + apply adds_oriented_nothing; assumption.
    + destruct (item_type newItem) eqn:T.
      * apply adds_oriented_nothing.
        -- unfold Functions.onFoundItemCreated. rewrite T. repeat split.
        -- unfold Functions.onFoundItemCreated. rewrite T. reflexivity.
      * apply (pass_writes_oriented server_writer newItem
                 (found_trigger_ranked now newItem (enriched_store newItem st))
                 st (enriched_store newItem st) _ server_writer_ok
                 eq_refl eq_refl eq_refl).
        -- intros m Hm. apply trigger_candidate_oriented. rewrite T.
           apply (top_candidates_in_pool now
                    (fun d => Functions.calculateMatchScore d (enriched newItem))).
           unfold found_trigger_ranked, Functions.top3 in Hm.
           rewrite scanLostItems_candidates in Hm. exact Hm.
        -- rewrite T. exact Hp.
  - intros Q. split; [|split].
    + intros m Hm Ho.
      rewrite (findMatches_effect now newItem st Q Hok). cbn [snd].
      pose proof (recorded_after_pass client_writer (item_type newItem) newItem
                    (client_ranked now newItem st) st m client_writer_ok
                    (client_ranked_NoDup now newItem st Hok) Hm Ho) as R.
      split; intros T; rewrite T; rewrite T in R; exact R.
    + intros P T m Hm Ho.
      rewrite (proj1 (triggers_effect now newItem st Q Hok P) T). cbn [snd].
      exact (recorded_after_pass server_writer lost newItem
               (lost_trigger_ranked now newItem st) (enriched_store newItem st) m
               server_writer_ok (lost_trigger_ranked_NoDup now newItem st Hok)
               Hm Ho).
    + intros P T m Hm Ho.
      rewrite (proj2 (triggers_effect now newItem st Q Hok P) T). cbn [snd].
      exact (recorded_after_pass server_writer found newItem
               (found_trigger_ranked now newItem st) (enriched_store newItem st) m
               server_writer_ok (found_trigger_ranked_NoDup now newItem st Hok)
               Hm Ho).
  - intros l f m c s Hr. split; [|split; [|split]].
    + intros E. unfold Functions.notifyFoundMatch, Functions.matchExists.
      rewrite E. apply recorded_pair_skipped. exact Hr.
    + intros E. unfold Functions.notifyLostMatch, Functions.matchExists.
      rewrite E. apply recorded_pair_skipped. exact Hr.
    + intros T E. unfold Dashboard.notifyMatch, Dashboard.roles,
        Dashboard.matchExists. rewrite T. cbn [ItemType_eqb].
      rewrite E. apply recorded_pair_skipped. exact Hr.
    + intros T E. unfold Dashboard.notifyMatch, Dashboard.roles,
        Dashboard.matchExists. rewrite T. cbn [ItemType_eqb].
      rewrite E. apply recorded_pair_skipped. exact Hr.
Qed.

Lemma C9_witness :
  store_ok sample_store
  /\ adds_oriented lost_bag sample_store
       (snd (Functions.onLostItemCreated sample_now lost_bag sample_store)).
Proof.
  refine (conj sample_store_ok _).
  exact (proj1 (proj2 (proj1 (C9_orientation sample_now lost_bag sample_store
                                sample_store_ok)))).
Defined.

(** ** The score does not depend on the order of the two items *)

Lemma strict_eq_sym (a b : option string) : JS.strict_eq a b = JS.strict_eq b a.
Proof. destruct a, b; cbn; try reflexivity. apply String.eqb_sym. Qed.

Lemma strict_eq_truthy (a b : option string) :
  JS.strict_eq a b = true -> JS.truthy a = JS.truthy b.
Proof.
  destruct a as [x|], b as [y|]; cbn; try discriminate; [|reflexivity].
  intros H. apply String.eqb_eq in H. subst. reflexivity.
Qed.

Lemma client_category_sym (item1 item2 : Item) :
  client_category item1 item2 = client_category item2 item1.
Proof.
  unfold client_category. rewrite (strict_eq_sym (category item2)).
  destruct (JS.strict_eq (category item1) (category item2)) eqn:E.
  - rewrite (strict_eq_truthy _ _ E). reflexivity.
  - rewrite !andb_false_r. reflexivity.
Qed.

Lemma common_words_iff (words1 words2 : list string) :
  (0 <? List.length
          (filter (fun w => JS.array_includes words2 w && (2 <? String.length w)%nat)
                  words1))%nat = true
  <-> exists w, In w words1 /\ In w words2 /\ 2 < String.length w.
Proof.
  split.
  - intros H.
    destruct (filter _ words1) as [|w rest] eqn:E; [discriminate|].
    assert (Hw : In w (filter (fun w => JS.array_includes words2 w
                                        && (2 <? String.length w)%nat) words1))
      by (rewrite E; left; reflexivity).
    apply filter_In in Hw as [H1 H2]. apply andb_true_iff in H2 as [H2 H3].
    exists w. split; [exact H1|]. split.
    + apply (proj1 (Set_has_In words2 w)). exact H2.
    + apply Nat.ltb_lt. exact H3.
  - intros (w & H1 & H2 & H3).
    assert (Hw : In w (filter (fun w => JS.array_includes words2 w
                                        && (2 <? String.length w)%nat) words1)).
    { apply filter_In. split; [exact H1|]. apply andb_true_iff. split.
      - apply (proj2 (Set_has_In words2 w)). exact H2.
      - apply Nat.ltb_lt. exact H3. }
    destruct (filter _ words1); [destruct Hw|reflexivity].
Qed.

Lemma bool_eq_iff (a b : bool) : (a = true <-> b = true) -> a = b.
Proof.
  destruct a, b; intros [H1 H2]; try reflexivity;
    [symmetry; apply H1; reflexivity | apply H2; reflexivity].
Qed.

Lemma locationPoints_sym (loc1 loc2 : string) :
  Functions.locationPoints loc1 loc2 = Functions.locationPoints loc2 loc1.
Proof.
  unfold Functions.locationPoints.
  rewrite (andb_comm (JS.str_truthy loc2)), (String.eqb_sym loc2),
    (orb_comm (JS.includes loc2 loc1)).
  replace (0 <? List.length
                  (filter (fun w => JS.array_includes (JS.split_ws loc1) w
                                    && (2 <? String.length w)%nat)
                          (JS.split_ws loc2)))%nat
    with (0 <? List.length
                 (filter (fun w => JS.array_includes (JS.split_ws loc2) w
                                   && (2 <? String.length w)%nat)
                         (JS.split_ws loc1)))%nat; [reflexivity|].
  apply bool_eq_iff. rewrite !common_words_iff.
  split; intros (w & H1 & H2 & H3); exists w; auto.
Qed.

Lemma same_elements_length (l1 l2 : list string) :
  NoDup l1 -> NoDup l2 -> (forall k, In k l1 <-> In k l2) ->
  List.length l1 = List.length l2.
Proof.
  intros H1 H2 H. apply Permutation_length. apply NoDup_Permutation; assumption.
Qed.

Lemma shared_length_sym (kw1 kw2 : list string) :
  NoDup kw1 -> NoDup kw2 ->
  List.length (shared kw1 kw2) = List.length (shared kw2 kw1).
Proof.
  intros H1 H2. apply same_elements_length.
  - apply NoDup_filter. exact H1.
  - apply NoDup_filter. exact H2.
  - intros k. rewrite !shared_In. tauto.
Qed.

Lemma union_length_sym (kw1 kw2 : list string) :
  List.length (JS.new_Set (kw1 ++ kw2)) = List.length (JS.new_Set (kw2 ++ kw1)).
Proof.
  apply same_elements_length; try apply new_Set_NoDup.
  intros k. rewrite !new_Set_In, !in_app_iff. tauto.
Qed.

Lemma client_score_sym (item1 item2 : Item) :
  score (Dashboard.calculateMatchScore item1 item2)
  = score (Dashboard.calculateMatchScore item2 item1)
  /\ md_category (matchDetails (Dashboard.calculateMatchScore item1 item2))
     = md_category (matchDetails (Dashboard.calculateMatchScore item2 item1))
  /\ md_location (matchDetails (Dashboard.calculateMatchScore item1 item2))
     = md_location (matchDetails (Dashboard.calculateMatchScore item2 item1))
  /\ keywordOverlap (matchDetails (Dashboard.calculateMatchScore item1 item2))
     = keywordOverlap (matchDetails (Dashboard.calculateMatchScore item2 item1)).
Proof.
  rewrite !client_score_signals. unfold score_of_signals.
  cbn [score matchDetails md_category md_location keywordOverlap].
  fold (shared (client_keywords item1) (client_keywords item2)).
  fold (shared (client_keywords item2) (client_keywords item1)).
  rewrite (client_category_sym item2 item1).
  rewrite (locationPoints_sym (client_location item2) (client_location item1)).
  rewrite (shared_length_sym (client_keywords item2) (client_keywords item1))
    by apply new_Set_NoDup.
  rewrite (union_length_sym (client_keywords item2) (client_keywords item1)).
  repeat split.
Qed.

(** Swapping the two items leaves the score, the category flag, the location
    flag and the number of shared keywords as they are, in [dashboard.js]
    for all items and in [functions/index.js] for well-formed ones.  (The
    list [matchedKeywords] may come in another order.) *)
Theorem score_symmetric (item1 item2 : Item) :
  (score (Dashboard.calculateMatchScore item1 item2)
   = score (Dashboard.calculateMatchScore item2 item1)
   /\ md_category (matchDetails (Dashboard.calculateMatchScore item1 item2))
      = md_category (matchDetails (Dashboard.calculateMatchScore item2 item1))
   /\ md_location (matchDetails (Dashboard.calculateMatchScore item1 item2))
      = md_location (matchDetails (Dashboard.calculateMatchScore item2 item1))
   /\ keywordOverlap (matchDetails (Dashboard.calculateMatchScore item1 item2))
      = keywordOverlap (matchDetails (Dashboard.calculateMatchScore item2 item1)))
  /\ (well_formed item1 -> well_formed item2 ->
      score (Functions.calculateMatchScore item1 item2)
      = score (Functions.calculateMatchScore item2 item1)
      /\ md_category (matchDetails (Functions.calculateMatchScore item1 item2))
         = md_category (matchDetails (Functions.calculateMatchScore item2 item1))
      /\ md_location (matchDetails (Functions.calculateMatchScore item1 item2))
         = md_location (matchDetails (Functions.calculateMatchScore item2 item1))
      /\ keywordOverlap (matchDetails (Functions.calculateMatchScore item1 item2))
         = keywordOverlap (matchDetails (Functions.calculateMatchScore item2 item1))).
Proof.
  split; [apply client_score_sym|].
  intros W1 W2.
  rewrite (calculators_agree item1 item2 W1 W2), (calculators_agree item2 item1 W2 W1).
  apply client_score_sym.
Qed.

Lemma score_symmetric_witness :
  well_formed lost_bag /\ well_formed found_bag
  /\ score (Functions.calculateMatchScore lost_bag found_bag)
     = score (Functions.calculateMatchScore found_bag lost_bag).
Proof.
  assert (W1 : well_formed lost_bag) by (split; exact I).
  assert (W2 : well_formed found_bag) by (split; exact I).
  exact (conj W1 (conj W2 (proj1 (proj2 (score_symmetric lost_bag found_bag) W1 W2)))).
Defined.

(** ** The two entry points choose the same matches *)

Lemma enriched_well_formed (newItem : Item) : well_formed (enriched newItem).
Proof. split; reflexivity. Qed.

Lemma client_ignores_cache (newItem d : Item) :
  Dashboard.calculateMatchScore (enriched newItem) d
  = Dashboard.calculateMatchScore newItem d
  /\ Dashboard.calculateMatchScore d (enriched newItem)
     = Dashboard.calculateMatchScore d newItem.
Proof. split; reflexivity. Qed.

Lemma candidates_choice (now : Z) (calc1 calc2 : Item -> ScoreResult)
    (docs : list Item) :
  (forall d, In d docs -> score (calc1 d) = score (calc2 d)) ->
  same_choice (candidates now calc1 docs) (candidates now calc2 docs).
Proof.
  intros H. unfold same_choice, candidates. rewrite !map_map. unfold choice.
  cbn [m_item m_score].
  induction docs as [|d docs IH]; [reflexivity|].
  assert (IH' := IH (fun x Hx => H x (or_intror Hx))).
  assert (E : eligible now (fun d => score (calc1 d)) d
              = eligible now (fun d => score (calc2 d)) d)
    by (unfold eligible; rewrite (H d (or_introl eq_refl)); reflexivity).
  cbn [filter]. rewrite E.
  destruct (eligible now (fun d => score (calc2 d)) d); [|exact IH'].
  cbn [map]. rewrite (H d (or_introl eq_refl)). f_equal. exact IH'.
Qed.

Lemma insert_desc_choice (x1 x2 : Match) (l1 l2 : list Match) :
  choice x1 = choice x2 -> same_choice l1 l2 ->
  same_choice (JS.insert_desc m_score x1 l1) (JS.insert_desc m_score x2 l2).
Proof.
  unfold same_choice. intros Hx.
  assert (Sx : m_score x1 = m_score x2) by (unfold choice in Hx; congruence).
  revert l2.
  induction l1 as [|y1 l1 IH]; intros [|y2 l2] H; try discriminate.
  - cbn. rewrite Hx. reflexivity.
  - cbn [map] in H. unfold choice at 1 3 in H. injection H as Hi Hs Hl.
    cbn [JS.insert_desc]. rewrite Sx, Hs.
    destruct (m_score y2 <=? m_score x2)%Z; cbn [map].
    + rewrite Hx, Hl. unfold choice at 2 5. rewrite Hi, Hs. reflexivity.
    + unfold choice at 1 3. rewrite Hi, Hs. f_equal. apply IH. exact Hl.
Qed.

Lemma sort_desc_choice (l1 l2 : list Match) :
  same_choice l1 l2 ->
  same_choice (JS.sort_desc m_score l1) (JS.sort_desc m_score l2).
Proof.
  unfold same_choice. revert l2.
  induction l1 as [|x1 l1 IH]; intros [|x2 l2] H; try discriminate.
  - reflexivity.
  - cbn [map] in H.
    assert (Hx : choice x1 = choice x2) by congruence.
    assert (Hl : map choice l1 = map choice l2) by congruence.
    cbn [JS.sort_desc].
    apply insert_desc_choice; [exact Hx|]. apply IH. exact Hl.
Qed.

Lemma top_choice (l1 l2 : list Match) :
  same_choice l1 l2 ->
  same_choice (JS.slice0 3 (JS.sort_desc m_score l1))
              (JS.slice0 3 (JS.sort_desc m_score l2)).
Proof.
  intros H. apply sort_desc_choice in H. unfold same_choice, JS.slice0 in *.
  rewrite <- !firstn_map, H. reflexivity.
Qed.

Lemma pool_well_formed (t : ItemType) (st : Store) (d : Item) :
  docs_well_formed st -> In d (pool t st) -> well_formed d.
Proof. intros H Hd. apply H. apply (pool_In t st d Hd). Qed.

(** For a new item and a store of well-formed documents, the creation
    trigger and [findMatches] rank the same candidates with the same scores. *)
Lemma triggers_choose_as_client (now : Z) (newItem : Item) (st : Store) :
  docs_well_formed st ->
  (item_type newItem = lost ->
   same_choice (lost_trigger_ranked now newItem st) (client_ranked now newItem st))
  /\ (item_type newItem = found ->
      same_choice (found_trigger_ranked now newItem st)
                  (client_ranked now newItem st)).
Proof.
  intros Hwf. split; intros T.
  - unfold lost_trigger_ranked, client_ranked, Functions.top3.
    rewrite scanFoundItems_candidates, rankedMatches_candidates, T.
    apply top_choice, candidates_choice. intros d Hd.
    rewrite (calculators_agree _ _ (enriched_well_formed newItem)
               (pool_well_formed _ _ _ Hwf Hd)).
    reflexivity.
  - unfold found_trigger_ranked, client_ranked, Functions.top3.
    rewrite scanLostItems_candidates, rankedMatches_candidates, T.
    apply top_choice, candidates_choice. intros d Hd.
    rewrite (calculators_agree _ _ (pool_well_formed _ _ _ Hwf Hd)
               (enriched_well_formed newItem)).
    rewrite (proj1 (client_score_sym d (enriched newItem))).
    reflexivity.
Qed.

(** ** One entry point after the other *)

Lemma fresh_item_ext (t : ItemType) (newItem : Item) (st : Store) (m m' : Match) :
  m_item m = m_item m' ->
  fresh t newItem st m = fresh t newItem st m'
  /\ other_owner t newItem m = other_owner t newItem m'.
Proof.
  intros E. unfold fresh, other_owner, pair_ids. rewrite E. split; reflexivity.
Qed.

Lemma same_choice_items (ms1 ms2 : list Match) :
  same_choice ms1 ms2 -> map m_item ms1 = map m_item ms2.
Proof.
  intros H. apply (f_equal (map fst)) in H. rewrite !map_map in H. exact H.
Qed.

(** After a pass over [ms1], a pass over the same candidates writes for
    none of them. *)
Lemma written_after_other_pass (W : Writer) (t : ItemType) (newItem : Item)
    (ms1 ms2 : list Match) (st : Store) :
  writer_ok W -> NoDup (candidate_ids ms1) -> map m_item ms2 = map m_item ms1 ->
  written t newItem (store_after W t newItem ms1 st) ms2 = [].
Proof.
  intros HW Hnd Hitems. unfold written. apply filter_none. intros m Hm.
  assert (Hin : In (m_item m) (map m_item ms1))
    by (rewrite <- Hitems; apply in_map; exact Hm).
  apply in_map_iff in Hin as [m' [E Hm']].
  destruct (fresh_item_ext t newItem (store_after W t newItem ms1 st) m m'
              (eq_sym E)) as [-> ->].
  rewrite (fresh_after_pass W t newItem ms1 st m' HW Hnd Hm').
  destruct (fresh t newItem st m'), (other_owner t newItem m'); reflexivity.
Qed.

Lemma store_after_nothing (W : Writer) (t : ItemType) (newItem : Item)
    (ms : list Match) (st : Store) :
  written t newItem st ms = [] ->
  notifications (store_after W t newItem ms st) = notifications st
  /\ matches (store_after W t newItem ms st) = matches st.
Proof.
  intros H. unfold store_after. cbn [notifications matches]. rewrite H.
  cbn [flat_map map]. rewrite !app_nil_r. split; reflexivity.
Qed.

(** When [findMatches] has run for a new item (as [postItem] has it run) and
    the creation trigger of the item runs after it, the trigger adds no
    notification and no match record: its duplicate check finds the record
    of each pair.  The store has no faults, its documents have distinct ids
    and well-formed caches, it holds the new item, and no document expires
    between the readings [now1] and [now2] of the clock of the two passes. *)
Theorem trigger_after_findMatches (now1 now2 : Z) (newItem : Item) (st : Store) :
  quiet st -> store_ok st -> posted newItem st -> docs_well_formed st ->
  same_expiry now1 now2 st ->
  (item_type newItem = lost ->
   let st1 := snd (Dashboard.findMatches now1 newItem st) in
   let st2 := snd (Functions.onLostItemCreated now2 newItem st1) in
   notifications st2 = notifications st1 /\ matches st2 = matches st1)
  /\ (item_type newItem = found ->
      let st1 := snd (Dashboard.findMatches now1 newItem st) in
      let st2 := snd (Functions.onFoundItemCreated now2 newItem st1) in
      notifications st2 = notifications st1 /\ matches st2 = matches st1).
Proof.
  intros Q Hok P Hwf Hex.
  pose proof (client_ranked_NoDup now1 newItem st Hok) as Hnd.
  split; intros T; cbv zeta;
    rewrite (findMatches_effect now1 newItem st Q Hok); cbn [snd];
    set (ms := client_ranked now1 newItem st) in *;
    set (st1 := store_after client_writer (item_type newItem) newItem ms st).
  - rewrite (proj1 (triggers_effect now2 newItem st1 Q Hok P) T). cbn [snd].
    assert (Hw : written lost newItem (enriched_store newItem st1)
                   (lost_trigger_ranked now2 newItem st1) = []).
    { assert (Em : matches (enriched_store newItem st1) = matches st1)
        by reflexivity.
      rewrite (written_matches_ext lost newItem st1 (enriched_store newItem st1) _ Em).
      change (lost_trigger_ranked now2 newItem st1)
        with (lost_trigger_ranked now2 newItem st).
      rewrite (lost_trigger_ranked_same_expiry now1 now2 newItem st Hex).
      unfold st1. rewrite T.
      apply (written_after_other_pass client_writer lost newItem ms _ st
               client_writer_ok Hnd).
      apply same_choice_items.
      apply (proj1 (triggers_choose_as_client now1 newItem st Hwf) T). }
    exact (store_after_nothing server_writer lost newItem _
             (enriched_store newItem st1) Hw).
  - rewrite (proj2 (triggers_effect now2 newItem st1 Q Hok P) T). cbn [snd].
    assert (Hw : written found newItem (enriched_store newItem st1)
                   (found_trigger_ranked now2 newItem st1) = []).
    { assert (Em : matches (enriched_store newItem st1) = matches st1)
        by reflexivity.
      rewrite (written_matches_ext found newItem st1 (enriched_store newItem st1) _ Em).
      change (found_trigger_ranked now2 newItem st1)
        with (found_trigger_ranked now2 newItem st).
      rewrite (found_trigger_ranked_same_expiry now1 now2 newItem st Hex).
      unfold st1. rewrite T.
      apply (written_after_other_pass client_writer found newItem ms _ st
               client_writer_ok Hnd).
      apply same_choice_items.
      apply (proj2 (triggers_choose_as_client now1 newItem st Hwf) T). }
    exact (store_after_nothing server_writer found newItem _
             (enriched_store newItem st1) Hw).
Qed.

Lemma sample_docs_well_formed : docs_well_formed sample_store.
Proof.
  intros d Hd. cbn in Hd.
  destruct Hd as [<-|[<-|[<-|[<-|[]]]]]; split; exact I.
Qed.

Lemma trigger_after_findMatches_witness :
  quiet sample_store /\ store_ok sample_store /\ posted lost_bag sample_store
  /\ docs_well_formed sample_store
  /\ same_expiry sample_now (sample_now + 1000) sample_store
  /\ item_type lost_bag = lost
  /\ matches (snd (Functions.onLostItemCreated (sample_now + 1000) lost_bag
                     (snd (Dashboard.findMatches sample_now lost_bag sample_store))))
     = matches (snd (Dashboard.findMatches sample_now lost_bag sample_store)).
Proof.
  refine (conj eq_refl (conj sample_store_ok (conj lost_bag_posted
            (conj sample_docs_well_formed (conj sample_same_expiry
               (conj eq_refl _)))))).
  exact (proj2 (proj1 (trigger_after_findMatches sample_now (sample_now + 1000)
                         lost_bag sample_store eq_refl sample_store_ok
                         lost_bag_posted sample_docs_well_formed
                         sample_same_expiry) eq_refl)).
Defined.

Lemma client_ranked_after_trigger (W : Writer) (t : ItemType) (now : Z)
    (newItem : Item) (ms : list Match) (st : Store) :
  store_ok st -> posted newItem st ->
  client_ranked now newItem (store_after W t newItem ms (enriched_store newItem st))
  = client_ranked now newItem st.
Proof.
  intros Hok P. unfold client_ranked.
  change (pool (opposite (item_type newItem))
            (store_after W t newItem ms (enriched_store newItem st)))
    with (pool (opposite (item_type newItem)) (enriched_store newItem st)).
  rewrite (pool_enriched_store newItem st Hok P). reflexivity.
Qed.

(** When the creation trigger has run for a new item and [findMatches] runs
    after it, [findMatches] adds no notification and no match record: its
    duplicate check finds the record of each pair.  The notifications of the
    new pairs are then the ones of the trigger alone: all of them go to the
    owner of the new item when it is a lost item, and none of them does when
    it is a found item.  The store has no faults, its documents have
    distinct ids and well-formed caches, it holds the new item, and no
    document expires between the readings [now1] and [now2] of the clock of
    the two passes. *)
Theorem findMatches_after_trigger (now1 now2 : Z) (newItem : Item) (st : Store) :
  quiet st -> store_ok st -> posted newItem st -> docs_well_formed st ->
  same_expiry now1 now2 st ->
  (item_type newItem = lost ->
   let st1 := snd (Functions.onLostItemCreated now1 newItem st) in
   let st2 := snd (Dashboard.findMatches now2 newItem st1) in
   notifications st2 = notifications st1 /\ matches st2 = matches st1
   /\ exists ns, notifications st2 = notifications st ++ ns
                 /\ Forall (fun n => userId n = uid newItem) ns)
  /\ (item_type newItem = found ->
      let st1 := snd (Functions.onFoundItemCreated now1 newItem st) in
      let st2 := snd (Dashboard.findMatches now2 newItem st1) in
      notifications st2 = notifications st1 /\ matches st2 = matches st1
      /\ exists ns, notifications st2 = notifications st ++ ns
                    /\ Forall (fun n => userId n <> uid newItem) ns).
Proof.
  intros Q Hok P Hwf Hex. split; intros T; cbv zeta.
  - rewrite (proj1 (triggers_effect now1 newItem st Q Hok P) T). cbn [snd].
    set (ms := lost_trigger_ranked now1 newItem st).
    set (st0 := enriched_store newItem st).
    set (st1 := store_after server_writer lost newItem ms st0).
    assert (Hnd : NoDup (candidate_ids ms))
      by (apply lost_trigger_ranked_NoDup; exact Hok).
    assert (Q1 : quiet st1) by exact Q.
    assert (Hok1 : store_ok st1) by (apply (enriched_store_ok newItem st Hok)).
    rewrite (findMatches_effect now2 newItem st1 Q1 Hok1). cbn [snd].
    assert (Hr : client_ranked now2 newItem st1 = client_ranked now1 newItem st).
    { unfold st1, st0.
      rewrite (client_ranked_after_trigger server_writer lost now2 newItem ms st Hok P).
      apply client_ranked_same_expiry. exact Hex. }
    rewrite Hr.
    assert (Hw : written (item_type newItem) newItem st1
                   (client_ranked now1 newItem st) = []).
    { rewrite T. unfold st1.
      apply (written_after_other_pass server_writer lost newItem ms _ st0
               server_writer_ok Hnd).
      symmetry. apply same_choice_items.
      apply (proj1 (triggers_choose_as_client now1 newItem st Hwf) T). }
    destruct (store_after_nothing client_writer (item_type newItem) newItem _ st1 Hw)
      as [Hn Hm].
    split; [exact Hn|]. split; [exact Hm|].
    rewrite Hn.
    exists (flat_map (notifications_for server_writer lost newItem)
                     (written lost newItem st0 ms)).
    split; [reflexivity|].
    apply Forall_forall. intros n Hin. apply in_flat_map in Hin as [m [_ Hn']].
    destruct Hn' as [<-|[]]. reflexivity.
  - rewrite (proj2 (triggers_effect now1 newItem st Q Hok P) T). cbn [snd].
    set (ms := found_trigger_ranked now1 newItem st).
    set (st0 := enriched_store newItem st).
    set (st1 := store_after server_writer found newItem ms st0).
    assert (Hnd : NoDup (candidate_ids ms))
      by (apply found_trigger_ranked_NoDup; exact Hok).
    assert (Q1 : quiet st1) by exact Q.
    assert (Hok1 : store_ok st1) by (apply (enriched_store_ok newItem st Hok)).
    rewrite (findMatches_effect now2 newItem st1 Q1 Hok1). cbn [snd].
    assert (Hr : client_ranked now2 newItem st1 = client_ranked now1 newItem st).
    { unfold st1, st0.
      rewrite (client_ranked_after_trigger server_writer found now2 newItem ms st Hok P).
      apply client_ranked_same_expiry. exact Hex. }
    rewrite Hr.
    assert (Hw : written (item_type newItem) newItem st1
                   (client_ranked now1 newItem st) = []).
    { rewrite T. unfold st1.
      apply (written_after_other_pass server_writer found newItem ms _ st0
               server_writer_ok Hnd).
      symmetry. apply same_choice_items.
      apply (proj2 (triggers_choose_as_client now1 newItem st Hwf) T). }
    destruct (store_after_nothing client_writer (item_type newItem) newItem _ st1 Hw)
      as [Hn Hm].
    split; [exact Hn|]. split; [exact Hm|].
    rewrite Hn.
    exists (flat_map (notifications_for server_writer found newItem)
                     (written found newItem st0 ms)).
    split; [reflexivity|].
    apply Forall_forall. intros n Hin. apply in_flat_map in Hin as [m [Hm' Hn']].
    destruct Hn' as [<-|[]]. cbn.
    unfold written in Hm'. apply filter_In in Hm' as [_ Hm'].
    apply andb_true_iff in Hm' as [_ Ho]. unfold other_owner in Ho. cbn in Ho.
    apply negb_true_iff, String.eqb_neq in Ho. exact Ho.
Qed.

Lemma found_bag_posted : posted found_bag sample_store.
Proof. exists found_bag. cbn. auto. Qed.

Lemma findMatches_after_trigger_witness :
  quiet sample_store /\ store_ok sample_store /\ posted found_bag sample_store
  /\ docs_well_formed sample_store
  /\ same_expiry sample_now (sample_now + 1000) sample_store
  /\ item_type found_bag = found
  /\ notifications (snd (Dashboard.findMatches (sample_now + 1000) found_bag
                     (snd (Functions.onFoundItemCreated sample_now found_bag
                             sample_store))))
     = notifications (snd (Functions.onFoundItemCreated sample_now found_bag
                             sample_store)).
Proof.
  refine (conj eq_refl (conj sample_store_ok (conj found_bag_posted
            (conj sample_docs_well_formed (conj sample_same_expiry
               (conj eq_refl _)))))).
  exact (proj1 (proj2 (findMatches_after_trigger sample_now (sample_now + 1000)
                         found_bag sample_store eq_refl sample_store_ok
                         found_bag_posted sample_docs_well_formed
                         sample_same_expiry) eq_refl)).
Defined.

(** ** One signal alone is no match *)

Lemma keyword_rows_checked : forallb keyword_row_low (seq 1 40) = true.
Proof. vm_compute. reflexivity. Qed.

Lemma shared_le_union (kw1 kw2 : list string) :
  NoDup kw1 ->
  List.length (shared kw1 kw2) <= List.length (JS.new_Set (kw1 ++ kw2)).
Proof.
  intros H. apply NoDup_incl_length.
  - apply NoDup_filter. exact H.
  - intros k Hk. apply shared_In in Hk as [Hk _].
    apply new_Set_In, in_or_app. left. exact Hk.
Qed.

Lemma keywords_alone_low (i u : nat) :
  1 <= i <= 20 -> i <= u <= 40 ->
  (clamp_round (score_sum false None true i u) < 50)%Z.
Proof.
  intros Hi Hu.
  assert (Hun : In u (seq 1 40)) by (apply in_seq; lia).
  assert (Hin : In i (seq 1 20)) by (apply in_seq; lia).
  pose proof (forallb_at keyword_row_low (seq 1 40) u keyword_rows_checked Hun)
    as T.
  unfold keyword_row_low in T.
  apply (fun H => forallb_at _ _ i H Hin) in T.
  cbv beta in T. apply orb_true_iff in T as [T|T].
  - apply Nat.ltb_lt in T. lia.
  - apply Z.ltb_lt. exact T.
Qed.

Lemma signals_of_client (item1 item2 : Item) :
  let r := Dashboard.calculateMatchScore item1 item2 in
  (two_signals (matchDetails r) = false -> (score r < 50)%Z)
  /\ (md_category (matchDetails r) = true -> md_location (matchDetails r) = false ->
      keywordOverlap (matchDetails r) = 0 -> score r = 40%Z)
  /\ (md_category (matchDetails r) = false -> md_location (matchDetails r) = true ->
      keywordOverlap (matchDetails r) = 0 ->
      score r = 30%Z \/ score r = 21%Z \/ score r = 15%Z)
  /\ (md_category (matchDetails r) = false -> md_location (matchDetails r) = false ->
      keywordOverlap (matchDetails r) = 0 -> score r = 0%Z).
Proof.
  cbv zeta. rewrite client_score_signals. unfold score_of_signals, two_signals.
  cbn [score matchDetails md_category md_location keywordOverlap].
  fold (shared (client_keywords item1) (client_keywords item2)).
  set (c := client_category item1 item2).
  pose proof (locationPoints_tier (client_location item1) (client_location item2))
    as Hloc.
  set (loc := Functions.locationPoints (client_location item1) (client_location item2))
    in *.
  pose proof (shared_length (client_keywords item1) (client_keywords item2)) as H1.
  pose proof (client_keywords_length item1) as H2.
  pose proof (shared_le_union (client_keywords item1) (client_keywords item2)
                (new_Set_NoDup _)) as H3.
  pose proof (union_length (client_keywords item1) (client_keywords item2)) as H4.
  pose proof (client_keywords_length item2) as H5.
  set (i := List.length (shared (client_keywords item1) (client_keywords item2))) in *.
  set (u := List.length (JS.new_Set (client_keywords item1 ++ client_keywords item2)))
    in *.
  fold (clamp_round (score_sum c loc (0 <? i)%nat i u)).
  assert (Hov : forall b, (if (0 <? i)%nat then i else 0) = 0 -> b = (0 <? i)%nat ->
                          b = false).
  { intros b E ->. destruct (0 <? i)%nat eqn:Z; [|reflexivity].
    apply Nat.ltb_lt in Z. lia. }
  split; [|split; [|split]].
  - intros Htwo.
    destruct (0 <? i)%nat eqn:Ov.
    + apply Nat.ltb_lt in Ov.
      replace (0 <? i)%nat with true in Htwo by (symmetry; apply Nat.ltb_lt; lia).
      destruct c; [rewrite andb_true_r, orb_true_r in Htwo; discriminate|].
      destruct loc as [p|]; [cbn in Htwo; discriminate|].
      apply keywords_alone_low; lia.
    + destruct c.
      * destruct loc as [p|]; [discriminate|]. vm_compute. reflexivity.
      * unfold location_tiers in Hloc.
        destruct Hloc as [<-|[<-|[<-|[<-|[]]]]]; vm_compute; reflexivity.
  - intros Hc Hl Hk. rewrite Hc.
    rewrite (Hov _ Hk eq_refl).
    destruct loc as [p|]; [discriminate|]. vm_compute. reflexivity.
  - intros Hc Hl Hk. rewrite Hc.
    rewrite (Hov _ Hk eq_refl).
    unfold location_tiers in Hloc.
    destruct Hloc as [<-|[<-|[<-|[<-|[]]]]]; try discriminate;
      [left|right; left|right; right]; vm_compute; reflexivity.
  - intros Hc Hl Hk. rewrite Hc.
    rewrite (Hov _ Hk eq_refl).
    destruct loc as [p|]; [discriminate|]. vm_compute. reflexivity.
Qed.

Lemma client_signal_scores (item1 item2 : Item) :
  signal_scores (Dashboard.calculateMatchScore item1 item2).
Proof.
  destruct (signals_of_client item1 item2) as (H1 & H2 & H3 & H4).
  split; [|split; [|split]]; try assumption.
  intros Hs.
  destruct (two_signals (matchDetails (Dashboard.calculateMatchScore item1 item2)))
    eqn:E; [reflexivity|].
  specialize (H1 eq_refl). lia.
Qed.

(** No pair reaches the threshold on one signal: a score of 50 or more has
    at least two of the category, the location and a shared keyword.  The
    category alone scores 40, the location alone 30, 21 or 15, and nothing
    scores 0.  This holds in [dashboard.js] for all items and in
    [functions/index.js] for well-formed ones. *)
Theorem match_needs_two_signals (item1 item2 : Item) :
  signal_scores (Dashboard.calculateMatchScore item1 item2)
  /\ (well_formed item1 -> well_formed item2 ->
      signal_scores (Functions.calculateMatchScore item1 item2)).
Proof.
  split; [apply client_signal_scores|].
  intros W1 W2. rewrite (calculators_agree item1 item2 W1 W2).
  apply client_signal_scores.
Qed.

Lemma match_needs_two_signals_witness :
  well_formed lost_bag /\ well_formed found_bag
  /\ signal_scores (Functions.calculateMatchScore lost_bag found_bag).
Proof.
  assert (W1 : well_formed lost_bag) by (split; exact I).
  assert (W2 : well_formed found_bag) by (split; exact I).
  exact (conj W1 (conj W2 (proj2 (match_needs_two_signals lost_bag found_bag) W1 W2))).
Defined.

(** ** At most one new record for a pair, whatever fails *)

Lemma same_pair_record_ids (W : Writer) (t : ItemType) (newItem : Item) (m : Match)
    (l f : string) :
  writer_ok W ->
  same_pair l f (record_for W t newItem m) = true ->
  pair_ids t newItem m = (l, f).
Proof.
  intros HW H. unfold same_pair, record_for in H.
  destruct (HW (fst (orient t newItem (m_item m))) (snd (orient t newItem (m_item m)))
               (m_score m) (m_details m)) as (E1 & E2 & _).
  rewrite E1, E2 in H. apply andb_true_iff in H as [Hl Hf].
  apply String.eqb_eq in Hl, Hf. unfold pair_ids. rewrite Hl, Hf. reflexivity.
Qed.

Lemma pair_ids_candidate (t : ItemType) (newItem : Item) (m m' : Match) :
  pair_ids t newItem m = pair_ids t newItem m' ->
  item_id (m_item m) = item_id (m_item m').
Proof. unfold pair_ids. destruct t; cbn; congruence. Qed.

Lemma kept_records_at_most_one (W : Writer) (t : ItemType) (newItem : Item)
    (kept : list Match) (l f : string) :
  writer_ok W -> NoDup (candidate_ids kept) ->
  List.length (filter (same_pair l f) (map (record_for W t newItem) kept)) <= 1.
Proof.
  intros HW. induction kept as [|m kept IH]; intros Hnd; [cbn; lia|].
  cbn [candidate_ids map] in Hnd. apply NoDup_cons_iff in Hnd as [Hm Hnd].
  cbn [map filter].
  destruct (same_pair l f (record_for W t newItem m)) eqn:E; [|apply IH; exact Hnd].
  apply (same_pair_record_ids W t newItem m l f HW) in E.
  replace (filter (same_pair l f) (map (record_for W t newItem) kept)) with
    (@nil MatchRecord); [cbn; lia|].
  symmetry. apply filter_none. intros r Hr.
  apply in_map_iff in Hr as [m' [<- Hm']].
  apply not_true_is_false. intros E'.
  apply (same_pair_record_ids W t newItem m' l f HW) in E'.
  apply Hm. rewrite (pair_ids_candidate t newItem m m' (eq_trans E (eq_sym E'))).
  unfold candidate_ids. apply in_map_iff. exists m'. split; [reflexivity|exact Hm'].
Qed.

Lemma pass_writes_one_record (W : Writer) (t : ItemType) (newItem : Item)
    (ms : list Match) (st0 st st' : Store) (l f : string) :
  writer_ok W -> matches st = matches st0 ->
  pass_writes W t newItem ms st st' ->
  at_most_one_more l f st0 st'.
Proof.
  intros HW Em (_ & kept & ns & _ & Hr & Hk & Hnd & _).
  unfold at_most_one_more, count_records, has_record.
  rewrite Hr, Em, filter_app, length_app.
  pose proof (kept_records_at_most_one W t newItem kept l f HW Hnd) as H1.
  split; [lia|].
  destruct (existsb (same_pair l f) (matches st0)) eqn:E; [|lia].
  replace (filter (same_pair l f) (map (record_for W t newItem) kept)) with
    (@nil MatchRecord); [cbn; lia|].
  symmetry. apply filter_none. intros r Hin.
  apply in_map_iff in Hin as [m [<- Hm]].
  apply not_true_is_false. intros E'.
  apply (same_pair_record_ids W t newItem m l f HW) in E'.
  destruct (Hk m Hm) as (_ & Hf & _). unfold fresh, has_record in Hf.
  rewrite E', Em in Hf. cbn [fst snd] in Hf. rewrite E in Hf. discriminate.
Qed.

Lemma at_most_one_more_same (l f : string) (st st' : Store) :
  matches st' = matches st -> at_most_one_more l f st st'.
Proof.
  intros E. unfold at_most_one_more, count_records. rewrite E.
  destruct (has_record l f st); lia.
Qed.

(** Whatever requests fail, a pass keeps the match records of every pair and
    adds at most one for it, none if the pair had a record when the pass
    began.  This holds for [findMatches] and for both creation triggers, on
    every store whose documents have distinct ids. *)
Theorem one_record_per_pair (now : Z) (newItem : Item) (st : Store) (l f : string) :
  store_ok st ->
  at_most_one_more l f st (snd (Dashboard.findMatches now newItem st))
  /\ at_most_one_more l f st (snd (Functions.onLostItemCreated now newItem st))
  /\ at_most_one_more l f st (snd (Functions.onFoundItemCreated now newItem st)).
Proof.
  intros Hok. split; [|split].
  - apply (pass_writes_one_record client_writer (item_type newItem) newItem
             (client_ranked now newItem st) st st _ l f client_writer_ok eq_refl).
    apply findMatches_writes. exact Hok.
  - destruct (onLostItemCreated_writes now newItem st Hok) as [[(_ & _ & Hm) _]|Hp].
    + apply at_most_one_more_same. exact Hm.
    + apply (pass_writes_one_record server_writer lost newItem _ st
               (enriched_store newItem st) _ l f server_writer_ok eq_refl Hp).
  - destruct (onFoundItemCreated_writes now newItem st Hok) as [[(_ & _ & Hm) _]|Hp].
    + apply at_most_one_more_same. exact Hm.
    + apply (pass_writes_one_record server_writer found newItem _ st
               (enriched_store newItem st) _ l f server_writer_ok eq_refl Hp).
Qed.

Lemma one_record_per_pair_witness :
  store_ok faulty_store
  /\ at_most_one_more "L1" "F1" faulty_store
       (snd (Dashboard.findMatches sample_now lost_bag faulty_store)).
Proof.
  assert (K : store_ok faulty_store) by exact sample_store_ok.
  exact (conj K (proj1 (one_record_per_pair sample_now lost_bag faulty_store
                          "L1" "F1" K))).
Defined.

(** ** A rejected write of the match record *)

Lemma client_record_rejected (l f : Item) (s : Z) (d : MatchDetails) (c : nat)
    (st : Store) :
  has_record (item_id l) (item_id f) st = false ->
  String.eqb (uid l) (uid f) = false ->
  faults st = [false; false; false; true] ->
  let r := bind (Dashboard.matchExists (item_id l) (item_id f))
             (fun exists_ =>
                if negb exists_ then
                  bind (Dashboard.createMatchNotification l f s d)
                       (fun _ => ret (S c))
                else ret c) st in
  fst r = Throw Unavailable
  /\ items (snd r) = items st
  /\ matches (snd r) = matches st
  /\ notifications (snd r)
     = notifications st ++ [Dashboard.lostNotif l f s d; Dashboard.foundNotif l f s d]
  /\ faults (snd r) = [].
Proof.
  intros Hr Hu Hf. cbv zeta.
  unfold Dashboard.matchExists, match_query_nonempty,
    Dashboard.createMatchNotification, add_notification, add_match, request, bind, ret.
  rewrite Hf. cbn [faults set_faults log_query matches].
  fold (has_record (item_id l) (item_id f) st). rewrite Hr, Hu.
  cbn. rewrite <- app_assoc. repeat split.
Qed.

Lemma server_record_rejected (l f : Item) (s : Z) (d : MatchDetails) (c : nat)
    (st : Store) :
  has_record (item_id l) (item_id f) st = false ->
  String.eqb (uid l) (uid f) = false ->
  faults st = [false; false; true] ->
  let r := bind (Functions.matchExists (item_id l) (item_id f))
             (fun exists_ =>
                if negb exists_ then
                  bind (Functions.createNotification l f s d) (fun _ => ret (S c))
                else ret c) st in
  fst r = Throw Unavailable
  /\ items (snd r) = items st
  /\ matches (snd r) = matches st
  /\ notifications (snd r) = notifications st ++ [Functions.notification l f s d]
  /\ faults (snd r) = [].
Proof.
  intros Hr Hu Hf. cbv zeta.
  unfold Functions.matchExists, match_query_nonempty,
    Functions.createNotification, add_notification, add_match, request, bind, ret.
  rewrite Hf. cbn [faults set_faults log_query matches].
  fold (has_record (item_id l) (item_id f) st). rewrite Hr, Hu.
  cbn. repeat split.
Qed.

Lemma store_after_one (W : Writer) (t : ItemType) (newItem : Item) (m : Match)
    (st : Store) :
  fresh t newItem st m = true -> other_owner t newItem m = true ->
  notifications (store_after W t newItem [m] st)
  = notifications st ++ notifications_for W t newItem m
  /\ matches (store_after W t newItem [m] st)
     = matches st ++ [record_for W t newItem m].
Proof.
  intros Hf Ho. unfold store_after, written. cbn [filter notifications matches].
  rewrite Hf, Ho. cbn [andb flat_map map]. rewrite app_nil_r. split; reflexivity.
Qed.

(** The writers are not atomic.  When the write of the match record is
    rejected after the notifications went through, the turn is rejected, the
    notifications stay and the pair has no record; the next turn for the
    same pair then passes the duplicate check and writes the notifications a
    second time, with one record.  This holds for the loop of [findMatches]
    (two notifications, written twice) and for the loops of the two creation
    triggers (one notification, written twice). *)
Theorem rejected_record_write (newItem : Item) (m : Match) (c : nat) (st : Store) :
  fresh (item_type newItem) newItem st m = true ->
  other_owner (item_type newItem) newItem m = true ->
  (faults st = [false; false; false; true] ->
   let st1 := snd (Dashboard.notifyMatch newItem m c st) in
   let st2 := snd (Dashboard.notifyMatch newItem m c st1) in
   fst (Dashboard.notifyMatch newItem m c st) = Throw Unavailable
   /\ matches st1 = matches st
   /\ notifications st1
      = notifications st
        ++ notifications_for client_writer (item_type newItem) newItem m
   /\ fst (Dashboard.notifyMatch newItem m c st1) = Ok (S c)
   /\ matches st2
      = matches st ++ [record_for client_writer (item_type newItem) newItem m]
   /\ notifications st2
      = notifications st
        ++ notifications_for client_writer (item_type newItem) newItem m
        ++ notifications_for client_writer (item_type newItem) newItem m)
  /\ (item_type newItem = lost -> faults st = [false; false; true] ->
      let st1 := snd (Functions.notifyFoundMatch newItem m c st) in
      let st2 := snd (Functions.notifyFoundMatch newItem m c st1) in
      fst (Functions.notifyFoundMatch newItem m c st) = Throw Unavailable
      /\ matches st1 = matches st
      /\ notifications st1
         = notifications st ++ notifications_for server_writer lost newItem m
      /\ fst (Functions.notifyFoundMatch newItem m c st1) = Ok (S c)
      /\ matches st2 = matches st ++ [record_for server_writer lost newItem m]
      /\ notifications st2
         = notifications st ++ notifications_for server_writer lost newItem m
           ++ notifications_for server_writer lost newItem m)
  /\ (item_type newItem = found -> faults st = [false; false; true] ->
      let st1 := snd (Functions.notifyLostMatch newItem m c st) in
      let st2 := snd (Functions.notifyLostMatch newItem m c st1) in
      fst (Functions.notifyLostMatch newItem m c st) = Throw Unavailable
      /\ matches st1 = matches st
      /\ notifications st1
         = notifications st ++ notifications_for server_writer found newItem m
      /\ fst (Functions.notifyLostMatch newItem m c st1) = Ok (S c)
      /\ matches st2 = matches st ++ [record_for server_writer found newItem m]
      /\ notifications st2
         = notifications st ++ notifications_for server_writer found newItem m
           ++ notifications_for server_writer found newItem m).
Proof.
  intros Hfresh Hother.
  assert (Hr : has_record
                 (item_id (fst (orient (item_type newItem) newItem (m_item m))))
                 (item_id (snd (orient (item_type newItem) newItem (m_item m)))) st
               = false)
    by (unfold fresh, pair_ids in Hfresh; cbn [fst snd] in Hfresh;
        apply negb_true_iff in Hfresh; exact Hfresh).
  assert (Hu : String.eqb
                 (uid (fst (orient (item_type newItem) newItem (m_item m))))
                 (uid (snd (orient (item_type newItem) newItem (m_item m))))
               = false)
    by (unfold other_owner in Hother; apply negb_true_iff in Hother; exact Hother).
  split; [|split].
  - intros Hf. cbv zeta.
    assert (E : Dashboard.notifyMatch newItem m c st
                = bind (Dashboard.matchExists
                          (item_id (fst (orient (item_type newItem) newItem (m_item m))))
                          (item_id (snd (orient (item_type newItem) newItem (m_item m)))))
                    (fun exists_ =>
                       if negb exists_ then
                         bind (Dashboard.createMatchNotification
                                 (fst (orient (item_type newItem) newItem (m_item m)))
                                 (snd (orient (item_type newItem) newItem (m_item m)))
                                 (m_score m) (m_details m))
                              (fun _ => ret (S c))
                       else ret c) st).
    { unfold Dashboard.notifyMatch. rewrite roles_orient.
      destruct (orient (item_type newItem) newItem (m_item m)); reflexivity. }
    destruct (client_record_rejected _ _ (m_score m) (m_details m) c st Hr Hu Hf)
      as (H1 & H2 & H3 & H4 & H5).
    cbv zeta in H1, H2, H3, H4, H5. rewrite <- E in H1, H2, H3, H4, H5.
    set (st1 := snd (Dashboard.notifyMatch newItem m c st)) in *.
    assert (Hfresh1 : fresh (item_type newItem) newItem st1 m = true)
      by (rewrite (fresh_matches_ext _ _ st st1 m H3); exact Hfresh).
    rewrite (notifyMatch_quiet newItem m c st1 H5), step_effect_store, Hfresh1.
    cbn [fst snd].
    destruct (store_after_one client_writer (item_type newItem) newItem m st1
                Hfresh1 Hother) as [Hn Hm].
    rewrite Hn, Hm, H3, H4, <- app_assoc. repeat split; assumption.
  - intros T Hf. cbv zeta. rewrite T in *.
    destruct (server_record_rejected _ _ (m_score m) (m_details m) c st Hr Hu Hf)
      as (H1 & H2 & H3 & H4 & H5).
    cbv zeta in H1, H2, H3, H4, H5.
    change (bind _ _ st) with (Functions.notifyFoundMatch newItem m c st)
      in H1, H2, H3, H4, H5.
    set (st1 := snd (Functions.notifyFoundMatch newItem m c st)) in *.
    assert (Hfresh1 : fresh lost newItem st1 m = true)
      by (rewrite (fresh_matches_ext _ _ st st1 m H3); exact Hfresh).
    rewrite (notifyFoundMatch_quiet newItem m c st1 H5), step_effect_store, Hfresh1.
    cbn [fst snd].
    destruct (store_after_one server_writer lost newItem m st1 Hfresh1 Hother)
      as [Hn Hm].
    rewrite Hn, Hm, H3, H4, <- app_assoc. repeat split; assumption.
  - intros T Hf. cbv zeta. rewrite T in *.
    destruct (server_record_rejected _ _ (m_score m) (m_details m) c st Hr Hu Hf)
      as (H1 & H2 & H3 & H4 & H5).
    cbv zeta in H1, H2, H3, H4, H5.
    change (bind _ _ st) with (Functions.notifyLostMatch newItem m c st)
      in H1, H2, H3, H4, H5.
    set (st1 := snd (Functions.notifyLostMatch newItem m c st)) in *.
    assert (Hfresh1 : fresh found newItem st1 m = true)
      by (rewrite (fresh_matches_ext _ _ st st1 m H3); exact Hfresh).
    rewrite (notifyLostMatch_quiet newItem m c st1 H5), step_effect_store, Hfresh1.
    cbn [fst snd].
    destruct (store_after_one server_writer found newItem m st1 Hfresh1 Hother)
      as [Hn Hm].
    rewrite Hn, Hm, H3, H4, <- app_assoc. repeat split; assumption.
Qed.

Lemma rejected_record_write_witness :
  fresh (item_type lost_bag) lost_bag
    (set_faults [false; false; false; true] sample_store) sample_top_match = true
  /\ other_owner (item_type lost_bag) lost_bag sample_top_match = true
  /\ fst (Dashboard.notifyMatch lost_bag sample_top_match 0
            (set_faults [false; false; false; true] sample_store))
     = Throw Unavailable.
Proof.
  assert (Hf : fresh (item_type lost_bag) lost_bag
                 (set_faults [false; false; false; true] sample_store)
                 sample_top_match = true) by (vm_compute; reflexivity).
  assert (Ho : other_owner (item_type lost_bag) lost_bag sample_top_match = true)
    by (vm_compute; reflexivity).
  refine (conj Hf (conj Ho _)).
  exact (proj1 (proj1 (rejected_record_write lost_bag sample_top_match 0
                         (set_faults [false; false; false; true] sample_store)
                         Hf Ho) eq_refl)).
Defined.
